(** * shairport-sync [player.c]: jitter buffer, sync engine and stuffing

    A shallow embedding of the core of [player.c] and the properties of
    its sequence arithmetic, its packet producer [player_put_packet], its
    consumer [buffer_get_frame], the sync loop of [player_thread_func] and
    the basic stuffer [stuff_buffer_basic].

    C integers are modelled as [Z] with the wrap-around of each type
    written out; the process-wide statics of [player.c] are gathered in
    one record that every operation takes and returns; calls to the
    external collaborators (RTP resend, output device, RTSP shutdown) are
    recorded as a list of events, and what those collaborators and the
    clock return is an argument of the operation that asks for it.
    Logging ([debug], [inform]) and metadata messages are left out. *)

From Stdlib Require Import ZArith Lia Bool List.
From stdpp Require Import base list.
Import ListNotations.

Local Open Scope Z_scope.

(** * Part I: the embedding *)

(** ** Machine integers *)

Module CInt.

(** Value of an unsigned [w]-bit object holding [x]. *)
Definition wrap_u (w x : Z) : Z := x mod 2 ^ w.

(** Value of a signed [w]-bit object holding [x]: two's complement,
    which is also how out-of-range conversions and overflowing
    arithmetic are taken to behave. *)
Definition wrap_s (w x : Z) : Z := (x + 2 ^ (w - 1)) mod 2 ^ w - 2 ^ (w - 1).

Definition to_short (x : Z) : Z := wrap_s 16 x.
Definition to_int32 (x : Z) : Z := wrap_s 32 x.
Definition to_int64 (x : Z) : Z := wrap_s 64 x.
Definition to_uint16 (x : Z) : Z := wrap_u 16 x.
Definition to_uint32 (x : Z) : Z := wrap_u 32 x.
Definition to_uint64 (x : Z) : Z := wrap_u 64 x.

(** [long] and [unsigned long] are 64 bits wide (LP64). *)
Definition to_long (x : Z) : Z := wrap_s 64 x.
Definition to_ulong (x : Z) : Z := wrap_u 64 x.

Definition is_short (x : Z) : Prop := -32768 <= x <= 32767.
Definition is_uint16 (x : Z) : Prop := 0 <= x < 65536.
Definition is_uint32 (x : Z) : Prop := 0 <= x < 4294967296.
Definition is_uint64 (x : Z) : Prop := 0 <= x < 18446744073709551616.
Definition is_int64 (x : Z) : Prop :=
  -9223372036854775808 <= x < 9223372036854775808.

End CInt.
Import CInt.

(** ** Sequence arithmetic (player.c, lines 151-223) *)

(** Modelled from the spec: the typedef [seq_t] lives in a header that is
    not part of the sources; the spec gives it as a 16-bit unsigned
    sequence number, so a [seq_t] is a [Z] in [[0, 65536)]. *)
Definition seq_t := Z.

(** [BUFFER_FRAMES]: the ring size, a power of two. *)
Definition BUFFER_FRAMES : Z := 512.

(** [BUFIDX(seqno)]: [(seq_t)(seqno) % BUFFER_FRAMES]. *)
Definition BUFIDX (seqno : Z) : Z := to_uint16 seqno mod BUFFER_FRAMES.

Definition SUCCESSOR (x : seq_t) : seq_t :=
  let p := Z.land x 65535 in
  let p := to_uint32 (p + 1) in
  let p := Z.land p 65535 in
  p.

Definition PREDECESSOR (x : seq_t) : seq_t :=
  let p := to_uint32 (Z.land x 65535 + 65536) in
  let p := to_uint32 (p - 1) in
  let p := Z.land p 65535 in
  p.

(** [ORDINATE] reads the global [ab_read]; here it is the first argument
    (as it is of [seq_diff] and [seq_order], which call it). *)
Definition ORDINATE (ab_read : seq_t) (x : seq_t) : Z :=
  let p := Z.land x 65535 in
  let q := Z.land ab_read 65535 in
  let t := Z.land (p + 65536 - q) 65535 in
  if 32767 <=? t then t - 65536 else t.

Definition seq_diff (ab_read : seq_t) (a b : seq_t) : Z :=
  let diff := ORDINATE ab_read b - ORDINATE ab_read a in
  diff.

Definition seq_order (ab_read : seq_t) (a b : seq_t) : bool :=
  let d := ORDINATE ab_read b - ORDINATE ab_read a in
  0 <? d.

Definition seq_sum (a b : seq_t) : seq_t :=
  let r := Z.land (to_uint32 (a + b)) 65535 in
  r.

(** [seq32_order a b]: [b] is strictly after [a], 32-bit wrap. [A], [B]
    and [C] are [int64_t]; the mask tests bit 31 of [C]. *)
Definition seq32_order (a b : Z) : bool :=
  if a =? b then false
  else
    let A := Z.land a 4294967295 in
    let B := Z.land b 4294967295 in
    let C := B - A in
    Z.land C 2147483648 =? 0.

(** The signed 16-bit distance from [anchor] to [x]: the representative
    of [x - anchor] modulo 2^16 in [[-32768, 32768)]. *)
Definition signed16_distance (anchor x : Z) : Z := wrap_s 16 (x - anchor).

(** ** Software volume and dither (player.c, lines 374-392) *)

(** [lcg_rand]: the static [lcg_prev] is threaded through; the result is
    the returned [short] and the new [lcg_prev]. *)
Definition lcg_rand (lcg_prev : Z) : Z * Z :=
  let lcg_prev := to_ulong (lcg_prev * 69069 + 3) in
  (to_short (Z.land lcg_prev 65535), lcg_prev).

(** [dithered_vol]. The local [rand_a] is read before it is written
    ([rand_b = rand_a]); [rand_a0] is the value that read yields. *)
Definition dithered_vol (fix_volume : Z) (rand_a0 : Z) (lcg_prev : Z) (sample : Z)
  : Z * Z :=
  let out := to_long (sample * fix_volume) in
  if fix_volume <? 65536 then
    let rand_b := rand_a0 in
    let '(rand_a, lcg_prev) := lcg_rand lcg_prev in
    let out := to_long (out + rand_a) in
    let out := to_long (out - rand_b) in
    (to_short (Z.shiftr out 16), lcg_prev)
  else
    (to_short (Z.shiftr out 16), lcg_prev).

(** ** Mean of two shorts (player.c, lines 726-734) *)

(** The pair is the returned short and whether the [r != longmean] branch
    (which only logs) is taken. C division truncates toward zero. *)
Definition shortmean_dbg (a b : Z) : Z * bool :=
  let al := a in
  let bl := b in
  let longmean := (al + bl) ÷ 2 in
  let r := to_short longmean in
  (r, negb (r =? longmean)).

Definition shortmean (a b : Z) : Z := fst (shortmean_dbg a b).

(** ** The basic stuffer (player.c, lines 736-775) *)

(** [short] arrays are lists; [rd] reads one element. *)
Definition rd (buf : list Z) (i : Z) : Z := default 0 (buf !! Z.to_nat i).

(** Writing [new] at the start of [old] ([memcpy]-like). *)
Definition overwrite (old new : list Z) : list Z := new ++ drop (length new) old.

(** The moving parts of one stuffing pass: the read position [inptr] in
    the input, the shorts written through [outptr] so far, [lcg_prev] and
    the number of [dithered_vol] calls made. *)
Record stuff_cursor := {
  inptr : Z;
  written : list Z;
  sc_lcg_prev : Z;
  sc_calls : nat
}.

Section StuffPass.

Variable frame_size : Z.
Variable fix_volume : Z.
(** [rand_a_uninit n]: what the [n]-th call of [dithered_vol] in the
    pass reads from its uninitialised [rand_a]. *)
Variable rand_a_uninit : nat -> Z.
Variable inbuf : list Z.

(** [*outptr++ = dithered_vol(v)] *)
Definition emit (v : Z) (c : stuff_cursor) : stuff_cursor :=
  let '(o, l) := dithered_vol fix_volume (rand_a_uninit (sc_calls c)) (sc_lcg_prev c) v in
  {| inptr := inptr c; written := written c ++ [o];
     sc_lcg_prev := l; sc_calls := S (sc_calls c) |}.

(** [inptr++] *)
Definition advance (c : stuff_cursor) : stuff_cursor :=
  {| inptr := inptr c + 1; written := written c;
     sc_lcg_prev := sc_lcg_prev c; sc_calls := sc_calls c |}.

(** One short copied: [outptr] receives [dithered_vol] of the short at
    [inptr], and both advance. *)
Definition copy_short (c : stuff_cursor) : stuff_cursor :=
  advance (emit (rd inbuf (inptr c)) c).

(** One turn of either copying loop: a left and a right short. *)
Definition copy_frame (c : stuff_cursor) : stuff_cursor :=
  copy_short (copy_short c).

Fixpoint copy_frames (n : nat) (c : stuff_cursor) : stuff_cursor :=
  match n with
  | O => c
  | S n => copy_frames n (copy_frame c)
  end.

(** [stuff_buffer_basic inptr outptr stuff]; [rnd] is what [rand()]
    returns. The result is the final cursor and the returned count. *)
Definition stuff_buffer_basic (stuff : Z) (rnd : Z) (lcg_prev : Z)
  : stuff_cursor * Z :=
  let c := {| inptr := 0; written := []; sc_lcg_prev := lcg_prev; sc_calls := O |} in
  if (1 <? stuff) || (stuff <? -1) then (c, frame_size)
  else
    let stuffsamp :=
      if stuff =? 0 then frame_size
      else Z.rem rnd (frame_size - 2) + 1 in
    let c := copy_frames (Z.to_nat stuffsamp) c in
    let c :=
      if stuff =? 0 then c
      else
        let c :=
          if stuff =? 1 then
            let c := emit (shortmean (rd inbuf (inptr c - 2)) (rd inbuf (inptr c))) c in
            emit (shortmean (rd inbuf (inptr c - 1)) (rd inbuf (inptr c + 1))) c
          else if stuff =? -1 then advance (advance c)
          else c in
        copy_frames (Z.to_nat (frame_size + stuff - stuffsamp)) c in
    (c, frame_size + stuff).

End StuffPass.

(** ** The player's state *)

(** Record update. *)
Class Setter {R T : Type} (proj : R -> T) := set : (T -> T) -> R -> R.
Arguments set {R T} proj {Setter} _ _.
Notation "r <| proj := v |>" := (set proj (fun _ => v) r)
  (at level 1, left associativity, format "r  <| proj  :=  v |>").
Notation "r <| proj ::= f |>" := (set proj f r)
  (at level 1, left associativity, format "r  <| proj  ::=  f |>").

(** [abuf_t]: one slot of decoded audio. [data] points to
    [OUTFRAME_BYTES(frame_size)] bytes, that is [2 * (frame_size + 3)]
    shorts. *)
Record abuf_t := {
  ready : bool;
  timestamp : Z;
  sequence_number : seq_t;
  data : list Z
}.

#[global] Instance set_ready : Setter ready := fun f r =>
  Build_abuf_t (f (ready r)) (timestamp r) (sequence_number r) (data r).
#[global] Instance set_timestamp : Setter timestamp := fun f r =>
  Build_abuf_t (ready r) (f (timestamp r)) (sequence_number r) (data r).
#[global] Instance set_sequence_number : Setter sequence_number := fun f r =>
  Build_abuf_t (ready r) (timestamp r) (f (sequence_number r)) (data r).
#[global] Instance set_data : Setter data := fun f r =>
  Build_abuf_t (ready r) (timestamp r) (sequence_number r) (f (data r)).

(** The fields of the global [config] that [player.c] reads; the struct
    is declared in a header that is not part of the sources, so it is
    taken as it is used. [output_has_flush] and [output_has_delay] say
    whether the hooks [config.output->flush] and [config.output->delay]
    are set. *)
Record config_t := {
  timeout : Z;
  dont_check_timeout : Z;
  latency : Z;
  audio_backend_latency_offset : Z;
  audio_backend_buffer_desired_length : Z;
  tolerance : Z;
  resyncthreshold : Z;
  output_has_flush : bool;
  output_has_delay : bool
}.

(** The statics of [player.c] (and the globals it shares with the rest
    of the program). [decoder_info] stands for the decryption and ALAC
    decoding of a packet, a black box from payload to PCM. *)
Record player := {
  audio_buffer : list abuf_t;
  ab_read : seq_t;
  ab_write : seq_t;
  ab_buffering : bool;
  ab_synced : bool;
  first_packet_timestamp : Z;
  flush_requested : bool;
  flush_rtp_timestamp : Z;
  time_of_last_audio_packet : Z;
  shutdown_requested : bool;
  first_packet_time_to_play : Z;
  time_since_play_started : Z;
  connection_state_to_output : Z;
  please_stop : bool;
  packet_count : Z;
  last_seqno_read : Z;
  missing_packets : Z;
  late_packets : Z;
  too_late_packets : Z;
  resend_requests : Z;
  fix_volume : Z;
  lcg_prev : Z;
  play_segment_reference_frame : Z;
  play_segment_reference_frame_remote_time : Z;
  session_corrections : Z;
  buffer_occupancy : Z;
  frame_size : Z;
  decoder_info : list Z -> list Z;
  config : config_t
}.

#[global] Instance set_audio_buffer : Setter audio_buffer := fun f r =>
  Build_player
    (f (audio_buffer r)) (ab_read r) (ab_write r) (ab_buffering r) (ab_synced r)
    (first_packet_timestamp r) (flush_requested r) (flush_rtp_timestamp r)
    (time_of_last_audio_packet r) (shutdown_requested r) (first_packet_time_to_play r)
    (time_since_play_started r) (connection_state_to_output r) (please_stop r) (packet_count r)
    (last_seqno_read r) (missing_packets r) (late_packets r) (too_late_packets r)
    (resend_requests r) (fix_volume r) (lcg_prev r) (play_segment_reference_frame r)
    (play_segment_reference_frame_remote_time r) (session_corrections r) (buffer_occupancy r)
    (frame_size r) (decoder_info r) (config r).
#[global] Instance set_ab_read : Setter ab_read := fun f r =>
  Build_player
    (audio_buffer r) (f (ab_read r)) (ab_write r) (ab_buffering r) (ab_synced r)
    (first_packet_timestamp r) (flush_requested r) (flush_rtp_timestamp r)
    (time_of_last_audio_packet r) (shutdown_requested r) (first_packet_time_to_play r)
    (time_since_play_started r) (connection_state_to_output r) (please_stop r) (packet_count r)
    (last_seqno_read r) (missing_packets r) (late_packets r) (too_late_packets r)
    (resend_requests r) (fix_volume r) (lcg_prev r) (play_segment_reference_frame r)
    (play_segment_reference_frame_remote_time r) (session_corrections r) (buffer_occupancy r)
    (frame_size r) (decoder_info r) (config r).
#[global] Instance set_ab_write : Setter ab_write := fun f r =>
  Build_player
    (audio_buffer r) (ab_read r) (f (ab_write r)) (ab_buffering r) (ab_synced r)
    (first_packet_timestamp r) (flush_requested r) (flush_rtp_timestamp r)
    (time_of_last_audio_packet r) (shutdown_requested r) (first_packet_time_to_play r)
    (time_since_play_started r) (connection_state_to_output r) (please_stop r) (packet_count r)
    (last_seqno_read r) (missing_packets r) (late_packets r) (too_late_packets r)
    (resend_requests r) (fix_volume r) (lcg_prev r) (play_segment_reference_frame r)
    (play_segment_reference_frame_remote_time r) (session_corrections r) (buffer_occupancy r)
    (frame_size r) (decoder_info r) (config r).
#[global] Instance set_ab_buffering : Setter ab_buffering := fun f r =>
  Build_player
    (audio_buffer r) (ab_read r) (ab_write r) (f (ab_buffering r)) (ab_synced r)
    (first_packet_timestamp r) (flush_requested r) (flush_rtp_timestamp r)
    (time_of_last_audio_packet r) (shutdown_requested r) (first_packet_time_to_play r)
    (time_since_play_started r) (connection_state_to_output r) (please_stop r) (packet_count r)
    (last_seqno_read r) (missing_packets r) (late_packets r) (too_late_packets r)
    (resend_requests r) (fix_volume r) (lcg_prev r) (play_segment_reference_frame r)
    (play_segment_reference_frame_remote_time r) (session_corrections r) (buffer_occupancy r)
    (frame_size r) (decoder_info r) (config r).
#[global] Instance set_ab_synced : Setter ab_synced := fun f r =>
  Build_player
    (audio_buffer r) (ab_read r) (ab_write r) (ab_buffering r) (f (ab_synced r))
    (first_packet_timestamp r) (flush_requested r) (flush_rtp_timestamp r)
    (time_of_last_audio_packet r) (shutdown_requested r) (first_packet_time_to_play r)
    (time_since_play_started r) (connection_state_to_output r) (please_stop r) (packet_count r)
    (last_seqno_read r) (missing_packets r) (late_packets r) (too_late_packets r)
    (resend_requests r) (fix_volume r) (lcg_prev r) (play_segment_reference_frame r)
    (play_segment_reference_frame_remote_time r) (session_corrections r) (buffer_occupancy r)
    (frame_size r) (decoder_info r) (config r).
#[global] Instance set_first_packet_timestamp : Setter first_packet_timestamp := fun f r =>
  Build_player
    (audio_buffer r) (ab_read r) (ab_write r) (ab_buffering r) (ab_synced r)
    (f (first_packet_timestamp r)) (flush_requested r) (flush_rtp_timestamp r)
    (time_of_last_audio_packet r) (shutdown_requested r) (first_packet_time_to_play r)
    (time_since_play_started r) (connection_state_to_output r) (please_stop r) (packet_count r)
    (last_seqno_read r) (missing_packets r) (late_packets r) (too_late_packets r)
    (resend_requests r) (fix_volume r) (lcg_prev r) (play_segment_reference_frame r)
    (play_segment_reference_frame_remote_time r) (session_corrections r) (buffer_occupancy r)
    (frame_size r) (decoder_info r) (config r).
#[global] Instance set_flush_requested : Setter flush_requested := fun f r =>
  Build_player
    (audio_buffer r) (ab_read r) (ab_write r) (ab_buffering r) (ab_synced r)
    (first_packet_timestamp r) (f (flush_requested r)) (flush_rtp_timestamp r)
    (time_of_last_audio_packet r) (shutdown_requested r) (first_packet_time_to_play r)
    (time_since_play_started r) (connection_state_to_output r) (please_stop r) (packet_count r)
    (last_seqno_read r) (missing_packets r) (late_packets r) (too_late_packets r)
    (resend_requests r) (fix_volume r) (lcg_prev r) (play_segment_reference_frame r)
    (play_segment_reference_frame_remote_time r) (session_corrections r) (buffer_occupancy r)
    (frame_size r) (decoder_info r) (config r).
#[global] Instance set_flush_rtp_timestamp : Setter flush_rtp_timestamp := fun f r =>
  Build_player
    (audio_buffer r) (ab_read r) (ab_write r) (ab_buffering r) (ab_synced r)
    (first_packet_timestamp r) (flush_requested r) (f (flush_rtp_timestamp r))
    (time_of_last_audio_packet r) (shutdown_requested r) (first_packet_time_to_play r)
    (time_since_play_started r) (connection_state_to_output r) (please_stop r) (packet_count r)
    (last_seqno_read r) (missing_packets r) (late_packets r) (too_late_packets r)
    (resend_requests r) (fix_volume r) (lcg_prev r) (play_segment_reference_frame r)
    (play_segment_reference_frame_remote_time r) (session_corrections r) (buffer_occupancy r)
    (frame_size r) (decoder_info r) (config r).
#[global] Instance set_time_of_last_audio_packet : Setter time_of_last_audio_packet := fun f r =>
  Build_player
    (audio_buffer r) (ab_read r) (ab_write r) (ab_buffering r) (ab_synced r)
    (first_packet_timestamp r) (flush_requested r) (flush_rtp_timestamp r)
    (f (time_of_last_audio_packet r)) (shutdown_requested r) (first_packet_time_to_play r)
    (time_since_play_started r) (connection_state_to_output r) (please_stop r) (packet_count r)
    (last_seqno_read r) (missing_packets r) (late_packets r) (too_late_packets r)
    (resend_requests r) (fix_volume r) (lcg_prev r) (play_segment_reference_frame r)
    (play_segment_reference_frame_remote_time r) (session_corrections r) (buffer_occupancy r)
    (frame_size r) (decoder_info r) (config r).
#[global] Instance set_shutdown_requested : Setter shutdown_requested := fun f r =>
  Build_player
    (audio_buffer r) (ab_read r) (ab_write r) (ab_buffering r) (ab_synced r)
    (first_packet_timestamp r) (flush_requested r) (flush_rtp_timestamp r)
    (time_of_last_audio_packet r) (f (shutdown_requested r)) (first_packet_time_to_play r)
    (time_since_play_started r) (connection_state_to_output r) (please_stop r) (packet_count r)
    (last_seqno_read r) (missing_packets r) (late_packets r) (too_late_packets r)
    (resend_requests r) (fix_volume r) (lcg_prev r) (play_segment_reference_frame r)
    (play_segment_reference_frame_remote_time r) (session_corrections r) (buffer_occupancy r)
    (frame_size r) (decoder_info r) (config r).
#[global] Instance set_first_packet_time_to_play : Setter first_packet_time_to_play := fun f r =>
  Build_player
    (audio_buffer r) (ab_read r) (ab_write r) (ab_buffering r) (ab_synced r)
    (first_packet_timestamp r) (flush_requested r) (flush_rtp_timestamp r)
    (time_of_last_audio_packet r) (shutdown_requested r) (f (first_packet_time_to_play r))
    (time_since_play_started r) (connection_state_to_output r) (please_stop r) (packet_count r)
    (last_seqno_read r) (missing_packets r) (late_packets r) (too_late_packets r)
    (resend_requests r) (fix_volume r) (lcg_prev r) (play_segment_reference_frame r)
    (play_segment_reference_frame_remote_time r) (session_corrections r) (buffer_occupancy r)
    (frame_size r) (decoder_info r) (config r).
#[global] Instance set_time_since_play_started : Setter time_since_play_started := fun f r =>
  Build_player
    (audio_buffer r) (ab_read r) (ab_write r) (ab_buffering r) (ab_synced r)
    (first_packet_timestamp r) (flush_requested r) (flush_rtp_timestamp r)
    (time_of_last_audio_packet r) (shutdown_requested r) (first_packet_time_to_play r)
    (f (time_since_play_started r)) (connection_state_to_output r) (please_stop r)
    (packet_count r) (last_seqno_read r) (missing_packets r) (late_packets r)
    (too_late_packets r) (resend_requests r) (fix_volume r) (lcg_prev r)
    (play_segment_reference_frame r) (play_segment_reference_frame_remote_time r)
    (session_corrections r) (buffer_occupancy r) (frame_size r) (decoder_info r) (config r).
#[global] Instance set_connection_state_to_output : Setter connection_state_to_output := fun f r =>
  Build_player
    (audio_buffer r) (ab_read r) (ab_write r) (ab_buffering r) (ab_synced r)
    (first_packet_timestamp r) (flush_requested r) (flush_rtp_timestamp r)
    (time_of_last_audio_packet r) (shutdown_requested r) (first_packet_time_to_play r)
    (time_since_play_started r) (f (connection_state_to_output r)) (please_stop r)
    (packet_count r) (last_seqno_read r) (missing_packets r) (late_packets r)
    (too_late_packets r) (resend_requests r) (fix_volume r) (lcg_prev r)
    (play_segment_reference_frame r) (play_segment_reference_frame_remote_time r)
    (session_corrections r) (buffer_occupancy r) (frame_size r) (decoder_info r) (config r).
#[global] Instance set_packet_count : Setter packet_count := fun f r =>
  Build_player
    (audio_buffer r) (ab_read r) (ab_write r) (ab_buffering r) (ab_synced r)
    (first_packet_timestamp r) (flush_requested r) (flush_rtp_timestamp r)
    (time_of_last_audio_packet r) (shutdown_requested r) (first_packet_time_to_play r)
    (time_since_play_started r) (connection_state_to_output r) (please_stop r)
    (f (packet_count r)) (last_seqno_read r) (missing_packets r) (late_packets r)
    (too_late_packets r) (resend_requests r) (fix_volume r) (lcg_prev r)
    (play_segment_reference_frame r) (play_segment_reference_frame_remote_time r)
    (session_corrections r) (buffer_occupancy r) (frame_size r) (decoder_info r) (config r).
#[global] Instance set_last_seqno_read : Setter last_seqno_read := fun f r =>
  Build_player
    (audio_buffer r) (ab_read r) (ab_write r) (ab_buffering r) (ab_synced r)
    (first_packet_timestamp r) (flush_requested r) (flush_rtp_timestamp r)
    (time_of_last_audio_packet r) (shutdown_requested r) (first_packet_time_to_play r)
    (time_since_play_started r) (connection_state_to_output r) (please_stop r) (packet_count r)
    (f (last_seqno_read r)) (missing_packets r) (late_packets r) (too_late_packets r)
    (resend_requests r) (fix_volume r) (lcg_prev r) (play_segment_reference_frame r)
    (play_segment_reference_frame_remote_time r) (session_corrections r) (buffer_occupancy r)
    (frame_size r) (decoder_info r) (config r).
#[global] Instance set_missing_packets : Setter missing_packets := fun f r =>
  Build_player
    (audio_buffer r) (ab_read r) (ab_write r) (ab_buffering r) (ab_synced r)
    (first_packet_timestamp r) (flush_requested r) (flush_rtp_timestamp r)
    (time_of_last_audio_packet r) (shutdown_requested r) (first_packet_time_to_play r)
    (time_since_play_started r) (connection_state_to_output r) (please_stop r) (packet_count r)
    (last_seqno_read r) (f (missing_packets r)) (late_packets r) (too_late_packets r)
    (resend_requests r) (fix_volume r) (lcg_prev r) (play_segment_reference_frame r)
    (play_segment_reference_frame_remote_time r) (session_corrections r) (buffer_occupancy r)
    (frame_size r) (decoder_info r) (config r).
#[global] Instance set_late_packets : Setter late_packets := fun f r =>
  Build_player
    (audio_buffer r) (ab_read r) (ab_write r) (ab_buffering r) (ab_synced r)
    (first_packet_timestamp r) (flush_requested r) (flush_rtp_timestamp r)
    (time_of_last_audio_packet r) (shutdown_requested r) (first_packet_time_to_play r)
    (time_since_play_started r) (connection_state_to_output r) (please_stop r) (packet_count r)
    (last_seqno_read r) (missing_packets r) (f (late_packets r)) (too_late_packets r)
    (resend_requests r) (fix_volume r) (lcg_prev r) (play_segment_reference_frame r)
    (play_segment_reference_frame_remote_time r) (session_corrections r) (buffer_occupancy r)
    (frame_size r) (decoder_info r) (config r).
#[global] Instance set_too_late_packets : Setter too_late_packets := fun f r =>
  Build_player
    (audio_buffer r) (ab_read r) (ab_write r) (ab_buffering r) (ab_synced r)
    (first_packet_timestamp r) (flush_requested r) (flush_rtp_timestamp r)
    (time_of_last_audio_packet r) (shutdown_requested r) (first_packet_time_to_play r)
    (time_since_play_started r) (connection_state_to_output r) (please_stop r) (packet_count r)
    (last_seqno_read r) (missing_packets r) (late_packets r) (f (too_late_packets r))
    (resend_requests r) (fix_volume r) (lcg_prev r) (play_segment_reference_frame r)
    (play_segment_reference_frame_remote_time r) (session_corrections r) (buffer_occupancy r)
    (frame_size r) (decoder_info r) (config r).
#[global] Instance set_resend_requests : Setter resend_requests := fun f r =>
  Build_player
    (audio_buffer r) (ab_read r) (ab_write r) (ab_buffering r) (ab_synced r)
    (first_packet_timestamp r) (flush_requested r) (flush_rtp_timestamp r)
    (time_of_last_audio_packet r) (shutdown_requested r) (first_packet_time_to_play r)
    (time_since_play_started r) (connection_state_to_output r) (please_stop r) (packet_count r)
    (last_seqno_read r) (missing_packets r) (late_packets r) (too_late_packets r)
    (f (resend_requests r)) (fix_volume r) (lcg_prev r) (play_segment_reference_frame r)
    (play_segment_reference_frame_remote_time r) (session_corrections r) (buffer_occupancy r)
    (frame_size r) (decoder_info r) (config r).
#[global] Instance set_lcg_prev : Setter lcg_prev := fun f r =>
  Build_player
    (audio_buffer r) (ab_read r) (ab_write r) (ab_buffering r) (ab_synced r)
    (first_packet_timestamp r) (flush_requested r) (flush_rtp_timestamp r)
    (time_of_last_audio_packet r) (shutdown_requested r) (first_packet_time_to_play r)
    (time_since_play_started r) (connection_state_to_output r) (please_stop r) (packet_count r)
    (last_seqno_read r) (missing_packets r) (late_packets r) (too_late_packets r)
    (resend_requests r) (fix_volume r) (f (lcg_prev r)) (play_segment_reference_frame r)
    (play_segment_reference_frame_remote_time r) (session_corrections r) (buffer_occupancy r)
    (frame_size r) (decoder_info r) (config r).
#[global] Instance set_play_segment_reference_frame : Setter play_segment_reference_frame := fun f r =>
  Build_player
    (audio_buffer r) (ab_read r) (ab_write r) (ab_buffering r) (ab_synced r)
    (first_packet_timestamp r) (flush_requested r) (flush_rtp_timestamp r)
    (time_of_last_audio_packet r) (shutdown_requested r) (first_packet_time_to_play r)
    (time_since_play_started r) (connection_state_to_output r) (please_stop r) (packet_count r)
    (last_seqno_read r) (missing_packets r) (late_packets r) (too_late_packets r)
    (resend_requests r) (fix_volume r) (lcg_prev r) (f (play_segment_reference_frame r))
    (play_segment_reference_frame_remote_time r) (session_corrections r) (buffer_occupancy r)
    (frame_size r) (decoder_info r) (config r).
#[global] Instance set_play_segment_reference_frame_remote_time : Setter play_segment_reference_frame_remote_time := fun f r =>
  Build_player
    (audio_buffer r) (ab_read r) (ab_write r) (ab_buffering r) (ab_synced r)
    (first_packet_timestamp r) (flush_requested r) (flush_rtp_timestamp r)
    (time_of_last_audio_packet r) (shutdown_requested r) (first_packet_time_to_play r)
    (time_since_play_started r) (connection_state_to_output r) (please_stop r) (packet_count r)
    (last_seqno_read r) (missing_packets r) (late_packets r) (too_late_packets r)
    (resend_requests r) (fix_volume r) (lcg_prev r) (play_segment_reference_frame r)
    (f (play_segment_reference_frame_remote_time r)) (session_corrections r)
    (buffer_occupancy r) (frame_size r) (decoder_info r) (config r).
#[global] Instance set_session_corrections : Setter session_corrections := fun f r =>
  Build_player
    (audio_buffer r) (ab_read r) (ab_write r) (ab_buffering r) (ab_synced r)
    (first_packet_timestamp r) (flush_requested r) (flush_rtp_timestamp r)
    (time_of_last_audio_packet r) (shutdown_requested r) (first_packet_time_to_play r)
    (time_since_play_started r) (connection_state_to_output r) (please_stop r) (packet_count r)
    (last_seqno_read r) (missing_packets r) (late_packets r) (too_late_packets r)
    (resend_requests r) (fix_volume r) (lcg_prev r) (play_segment_reference_frame r)
    (play_segment_reference_frame_remote_time r) (f (session_corrections r))
    (buffer_occupancy r) (frame_size r) (decoder_info r) (config r).
#[global] Instance set_buffer_occupancy : Setter buffer_occupancy := fun f r =>
  Build_player
    (audio_buffer r) (ab_read r) (ab_write r) (ab_buffering r) (ab_synced r)
    (first_packet_timestamp r) (flush_requested r) (flush_rtp_timestamp r)
    (time_of_last_audio_packet r) (shutdown_requested r) (first_packet_time_to_play r)
    (time_since_play_started r) (connection_state_to_output r) (please_stop r) (packet_count r)
    (last_seqno_read r) (missing_packets r) (late_packets r) (too_late_packets r)
    (resend_requests r) (fix_volume r) (lcg_prev r) (play_segment_reference_frame r)
    (play_segment_reference_frame_remote_time r) (session_corrections r)
    (f (buffer_occupancy r)) (frame_size r) (decoder_info r) (config r).

(** Calls to the external collaborators. [output_play buf n] carries the
    [2 * n] shorts the device is handed. *)
Inductive event :=
| rtp_request_resend (first : seq_t) (count : Z)
| output_flush
| output_play (buf : list Z) (samples : Z)
| rtsp_request_shutdown_stream.

(** What [get_reference_timestamp_stuff] stores through its pointers. *)
Record reference := {
  reference_timestamp : Z;
  reference_timestamp_time : Z;
  remote_reference_timestamp_time : Z
}.

Definition abuf_null : abuf_t :=
  {| ready := false; timestamp := 0; sequence_number := 0; data := [] |}.

(** [audio_buffer[i]] *)
Definition slot (s : player) (i : Z) : abuf_t :=
  default abuf_null (audio_buffer s !! Z.to_nat i).

(** An assignment through a pointer to [audio_buffer[i]]. *)
Definition update_slot (i : Z) (f : abuf_t -> abuf_t) (s : player) : player :=
  s <| audio_buffer ::= alter f (Z.to_nat i) |>.

(** [FRAME_BYTES(frame_size)] and [OUTFRAME_BYTES(frame_size)], counted
    in shorts. *)
Definition FRAME_SHORTS (frame_size : Z) : nat := Z.to_nat (2 * frame_size).
Definition OUTFRAME_SHORTS (frame_size : Z) : nat := Z.to_nat (2 * (frame_size + 3)).

(** ** [ab_resync] (lines 140-149) *)
Definition ab_resync (s : player) : player :=
  s <| audio_buffer ::= fmap (fun a => a <| ready := false |> <| sequence_number := 0 |>) |>
    <| ab_synced := false |>
    <| last_seqno_read := -1 |>
    <| ab_buffering := true |>.

(** ** [alac_decode] (lines 225-248): the PCM of the packet is written at
    the start of [dest]. *)
Definition alac_decode (s : player) (dest : list Z) (buf : list Z) : list Z :=
  overwrite dest (decoder_info s buf).

(** ** [player_flush] (lines 1245-1256) *)
Definition player_flush (rtp_timestamp : Z) (s : player) : player :=
  s <| flush_requested := true |>
    <| flush_rtp_timestamp := rtp_timestamp |>
    <| play_segment_reference_frame := 0 |>.

(** ** [player_put_packet] (lines 295-372) *)

(** Lines 334-336: a slot in the gap is cleared. *)
Definition clear_slot (a : abuf_t) : abuf_t :=
  a <| ready := false |> <| timestamp := 0 |> <| sequence_number := 0 |>.

(** The loop [for (i = 0; i < gap; i++)] of the newer-than-expected
    branch, [n] turns from [i]; [w] is [ab_write]. *)
Fixpoint zero_gap (n : nat) (i : Z) (w : seq_t) (s : player) : player :=
  match n with
  | O => s
  | S n =>
    let s := update_slot (BUFIDX (seq_sum w (to_uint16 i))) clear_slot s in
    zero_gap n (i + 1) w s
  end.

(** The flush filter: the packet is at or before [flush_rtp_timestamp]. *)
Definition flush_filtered (s : player) (ts : Z) : bool :=
  negb (flush_rtp_timestamp s =? 0) &&
  ((ts =? flush_rtp_timestamp s) || seq32_order ts (flush_rtp_timestamp s)).

(** Lines 313-355: the ring syncs to the first packet, then the packet is
    classified against the cursors. The middle component is the index of
    the slot [abuf] points to, if any. *)
Definition place_packet (seqno : seq_t) (s : player) : player * option Z * list event :=
  let s :=
    if ab_synced s then s
    else s <| ab_write := seqno |> <| ab_read := seqno |> <| ab_synced := true |> in
  if ab_write s =? seqno then
    (s <| ab_write := SUCCESSOR seqno |>, Some (BUFIDX seqno), [])
  else if seq_order (ab_read s) (ab_write s) seqno then
    let gap := seq_diff (ab_read s) (ab_write s) (PREDECESSOR seqno) + 1 in
    let w := ab_write s in
    let s := zero_gap (Z.to_nat gap) 0 w s in
    let s := s <| resend_requests ::= fun n => to_uint64 (n + 1) |> in
    let s := s <| ab_write := SUCCESSOR seqno |> in
    (s, Some (BUFIDX seqno), [rtp_request_resend w gap])
  else if seq_order (ab_read s) (ab_read s) seqno then
    (s <| late_packets ::= fun n => to_uint64 (n + 1) |>, Some (BUFIDX seqno), [])
  else
    (s <| too_late_packets ::= fun n => to_uint64 (n + 1) |>, None, []).

(** Lines 358-363: the packet is decoded into the slot. *)
Definition store_packet (seqno : seq_t) (rtp_timestamp : Z) (payload : list Z) (i : Z)
  (s : player) : player :=
  let pcm := alac_decode s (data (slot s i)) payload in
  update_slot i
    (fun a => a <| data := pcm |> <| ready := true |>
                <| timestamp := rtp_timestamp |> <| sequence_number := seqno |>) s.

(** [now] is what [get_absolute_time_in_fp] returns; [rtp_timestamp] and
    [payload] are the arguments [timestamp] and [data] (of length [len]). *)
Definition player_put_packet (seqno : seq_t) (rtp_timestamp : Z) (payload : list Z) (now : Z)
  (s : player) : player * list event :=
  let s := s <| packet_count ::= fun n => to_uint64 (n + 1) |> in
  let s := s <| time_of_last_audio_packet := now |> in
  if connection_state_to_output s =? 0 then (s, [])
  else if flush_filtered s rtp_timestamp then (s, [])
  else
    let s :=
      if negb (flush_rtp_timestamp s =? 0) &&
         negb (seq32_order rtp_timestamp (flush_rtp_timestamp s))
      then s <| flush_rtp_timestamp := 0 |> else s in
    let '(s, abuf, evs) := place_packet seqno s in
    match abuf with
    | Some i => (store_packet seqno rtp_timestamp payload i s, evs)
    | None => (s, evs)
    end.

(** ** [buffer_get_frame] (lines 394-724) *)

(** What one turn of the outer [do ... while (wait)] loop reads from the
    clock and the collaborators: [get_absolute_time_in_fp], the requested
    connection state, the three calls of [get_reference_timestamp_stuff]
    (first packet, end of buffering, play decision) and
    [config.output->delay]. *)
Record tick_env := {
  local_time_now : Z;
  rco : Z;
  ref_first_packet : reference;
  ref_resume : reference;
  ref_play : reference;
  dac_delay_read : Z
}.

(** Lines 415-424: the silence timeout. *)
Definition timeout_check (e : tick_env) (s : player) : player * list event :=
  if negb (time_of_last_audio_packet s =? 0) && negb (shutdown_requested s) &&
     (dont_check_timeout (config s) =? 0)
  then
    let ct := to_uint64 (timeout (config s)) in
    if (time_of_last_audio_packet s <? local_time_now e) &&
       (to_uint64 (ct * 2 ^ 32) <=? to_uint64 (local_time_now e - time_of_last_audio_packet s))
    then (s <| shutdown_requested := true |>, [rtsp_request_shutdown_stream])
    else (s, [])
  else (s, []).

(** Lines 425-435: following the requested connection state. *)
Definition track_connection (e : tick_env) (s : player) : player :=
  if connection_state_to_output s =? rco e then s
  else
    let s := s <| connection_state_to_output := rco e |> in
    if connection_state_to_output s =? 0 then s <| flush_requested := true |> else s.

(** [if (config.output->flush) config.output->flush();] *)
Definition call_output_flush (s : player) : list event :=
  if output_has_flush (config s) then [output_flush] else [].

(** Lines 437-447: a requested flush is applied. *)
Definition apply_flush (s : player) : player * list event :=
  if flush_requested s then
    let evs := call_output_flush s in
    let s := ab_resync s in
    let s := s <| first_packet_timestamp := 0 |> in
    let s := s <| first_packet_time_to_play := 0 |> in
    let s := s <| time_since_play_started := 0 |> in
    let s := s <| flush_requested := false |> in
    (s, evs)
  else (s, []).

(** Lines 451-480: the body of the inner [do ... while]; [cur] is the
    index [curframe] points to, [flush_limit] the local counter. *)
Definition flush_drain_body (cur : Z) (flush_limit : Z) (s : player) : player * Z :=
  let curframe := slot s cur in
  if ready curframe then
    let s :=
      if negb (sequence_number curframe =? ab_read s) then
        if BUFIDX (sequence_number curframe) =? BUFIDX (ab_read s) then
          if seq_order (ab_read s) (ab_read s) (sequence_number curframe)
          then s <| ab_read := sequence_number curframe |>
          else s
        else s
      else s in
    let '(s, flush_limit) :=
      if negb (flush_rtp_timestamp s =? 0) &&
         ((timestamp curframe =? flush_rtp_timestamp s) ||
          seq32_order (timestamp curframe) (flush_rtp_timestamp s))
      then
        let s := update_slot cur (fun a => a <| ready := false |>) s in
        let s := s <| ab_read := SUCCESSOR (ab_read s) |> in
        (s, to_uint32 (flush_limit + 1))
      else (s, flush_limit) in
    let s :=
      if negb (flush_rtp_timestamp s =? 0) &&
         negb (seq32_order (timestamp curframe) (flush_rtp_timestamp s))
      then s <| flush_rtp_timestamp := 0 |> else s in
    (s, flush_limit)
  else (s, flush_limit).

(** Lines 450-481: the inner [do ... while]. The loop has no bound of
    its own when the head slot is not ready; [None] is a run that is
    still looping after [fuel] turns. *)
Fixpoint flush_drain (fuel : nat) (flush_limit : Z) (s : player) : option (player * Z) :=
  match fuel with
  | O => None
  | S fuel =>
    let cur := BUFIDX (ab_read s) in
    let '(s, flush_limit) := flush_drain_body cur flush_limit s in
    if negb (flush_rtp_timestamp s =? 0) && (flush_limit <=? 8820) &&
       negb (ready (slot s cur))
    then flush_drain fuel flush_limit s
    else Some (s, flush_limit)
  end.

(** More turns than the loop can take when every turn drops a frame. *)
Definition flush_drain_fuel : nat := Z.to_nat 8823.

(** Lines 556-561 and 580-584: giving up on a start time that has
    passed; [reset_play_time] is whether [time_since_play_started] is
    cleared too. *)
Definition abandon_start (reset_play_time : bool) (s : player) : player * list event :=
  let evs := call_output_flush s in
  let s := ab_resync s in
  let s := s <| first_packet_timestamp := 0 |> in
  let s := s <| first_packet_time_to_play := 0 |> in
  let s := if reset_play_time then s <| time_since_play_started := 0 |> else s in
  (s, evs).

(** Lines 492-541: the first ready frame fixes the time to start. *)
Definition first_packet (e : tick_env) (curframe : abuf_t) (s : player) : player :=
  if first_packet_timestamp s =? 0 then
    let r := ref_first_packet e in
    if negb (reference_timestamp r =? 0) then
      let s := s <| first_packet_timestamp := timestamp curframe |> in
      let delta := to_int64 (first_packet_timestamp s - reference_timestamp r) in
      let s :=
        s <| first_packet_time_to_play :=
               to_int64
                 (reference_timestamp_time r +
                  to_int64
                    (to_int64
                       (delta + latency (config s) +
                        audio_backend_latency_offset (config s)) * 2 ^ 32) ÷ 44100) |> in
      if to_uint64 (first_packet_time_to_play s) <=? local_time_now e
      then player_flush (to_uint32 (first_packet_timestamp s + 4410)) s
      else s
    else s
  else s.

(** Lines 543-613: silence is played until the time to start. *)
Definition lead_in (e : tick_env) (s : player) : player * list event :=
  if negb (first_packet_time_to_play s =? 0) then
    let max_dac_delay := 4410 in
    let filler_size := 4410 in
    if to_uint64 (first_packet_time_to_play s) <=? local_time_now e then
      abandon_start true s
    else
      let dac_delay :=
        if output_has_delay (config s) then
          if dac_delay_read e =? -1 then 0 else dac_delay_read e
        else 0 in
      let gross_frame_gap :=
        Z.shiftr
          (to_uint64 (to_uint64 (first_packet_time_to_play s - local_time_now e) * 44100))
          32 in
      let exact_frame_gap := to_int64 (gross_frame_gap - dac_delay) in
      if exact_frame_gap <=? 0 then
        abandon_start false s
      else
        let fs := filler_size in
        let fs :=
          if to_uint32 (max_dac_delay - dac_delay) <? fs
          then to_uint32 (max_dac_delay - dac_delay) else fs in
        let '(fs, s) :=
          if (exact_frame_gap <=? fs) || (exact_frame_gap <=? to_int32 (frame_size s * 2))
          then (to_uint32 exact_frame_gap, s <| ab_buffering := false |>)
          else (fs, s) in
        let silence := replicate (FRAME_SHORTS fs) 0 in
        let evs := [output_play silence fs] in
        let s :=
          if ab_buffering s then s
          else
            s <| play_segment_reference_frame := reference_timestamp (ref_resume e) |>
              <| play_segment_reference_frame_remote_time :=
                   remote_reference_timestamp_time (ref_resume e) |> in
        (s, evs)
  else (s, []).

(** Lines 488-615: the part of a turn that deals with buffering. *)
Definition buffering (e : tick_env) (s : player) : player * list event :=
  let curframe := slot s (BUFIDX (ab_read s)) in
  if ready curframe && ab_buffering s then
    lead_in e (first_packet e curframe s)
  else (s, []).

(** Lines 630-657: is the frame at the head due? The result is
    [do_wait]. *)
Definition do_wait (e : tick_env) (s : player) : bool :=
  let curframe := slot s (BUFIDX (ab_read s)) in
  if ab_synced s && ready curframe && negb (timestamp curframe =? 0) then
    let r := ref_play e in
    if negb (reference_timestamp r =? 0) then
      let packet_timestamp := timestamp curframe in
      let delta := to_int64 (packet_timestamp - reference_timestamp r) in
      let offset :=
        to_int64 (to_int64 (latency (config s) + audio_backend_latency_offset (config s)) -
                  audio_backend_buffer_desired_length (config s)) in
      let net_offset := to_int64 (delta + offset) in
      let time_to_play := to_int64 (reference_timestamp_time r) in
      let time_to_play :=
        if 0 <=? net_offset then
          let net_offset_fp_sec := to_int64 (net_offset * 2 ^ 32) ÷ 44100 in
          to_int64 (time_to_play + net_offset_fp_sec)
        else
          let net_offset_fp_sec := to_int64 (to_int64 (- net_offset) * 2 ^ 32) ÷ 44100 in
          to_int64 (time_to_play - net_offset_fp_sec) in
      negb (to_uint64 time_to_play <=? local_time_now e)
    else true
  else true.

(** Lines 702-712: the last-chance resend scan, [for (i = 8; i <
    seq_diff(ab_read, ab_write) / 2; i = i * 2)]. *)
Fixpoint resend_scan (fuel : nat) (i : Z) (s : player) : player * list event :=
  match fuel with
  | O => (s, [])
  | S fuel =>
    if i <? seq_diff (ab_read s) (ab_read s) (ab_write s) ÷ 2 then
      let next := seq_sum (ab_read s) (to_uint16 i) in
      let '(s, evs) :=
        if ready (slot s (BUFIDX next)) then (s, [])
        else (s <| resend_requests ::= fun n => to_uint64 (n + 1) |>,
              [rtp_request_resend next 1]) in
      let '(s, evs') := resend_scan fuel (to_int32 (i * 2)) s in
      (s, evs ++ evs')
    else (s, [])
  end.

(** The bound is below 2^15, so the scan ends within 13 turns. *)
Definition resend_scan_fuel : nat := 13.

(** Lines 697-723: the head frame is handed over. The result carries the
    index of the slot the returned pointer designates. *)
Definition release_frame (s : player) : player * list event * Z :=
  let cur := BUFIDX (ab_read s) in
  let '(s, evs) :=
    if ab_buffering s then (s, [])
    else resend_scan resend_scan_fuel 8 s in
  let s :=
    if ready (slot s cur) then s
    else
      let s := s <| missing_packets ::= fun n => to_uint64 (n + 1) |> in
      let s :=
        update_slot cur
          (fun a => a <| data ::= fun d => overwrite d (replicate (FRAME_SHORTS (frame_size s)) 0) |>)
          s in
      update_slot cur (fun a => a <| timestamp := 0 |>) s in
  let s := update_slot cur (fun a => a <| ready := false |>) s in
  let s := s <| ab_read := SUCCESSOR (ab_read s) |> in
  (s, evs, cur).

(** How a turn of [buffer_get_frame] ends: in the timed wait on
    [flowcontrol] (during which the producer may run), by returning 0,
    or by returning the frame in a slot. *)
Inductive turn_result :=
| Waiting
| Stopped
| Frame (cur : Z).

(** One turn of the outer loop, from the clock read to the wait or the
    return, all of it under [ab_mutex]. [None]: the inner loop does not
    end. *)
Definition buffer_get_frame_turn (e : tick_env) (s : player)
  : option (player * list event * turn_result) :=
  let '(s, evs1) := timeout_check e s in
  let s := track_connection e s in
  let '(s, evs2) := apply_flush s in
  let after_drain :=
    if ab_synced s then
      match flush_drain flush_drain_fuel 0 s with
      | Some (s, _) => Some (buffering e s)
      | None => None
      end
    else Some (s, []) in
  match after_drain with
  | None => None
  | Some (s, evs3) =>
    let wait := (ab_buffering s || do_wait e s || negb (ab_synced s)) && negb (please_stop s) in
    if wait then Some (s, evs1 ++ evs2 ++ evs3, Waiting)
    else if please_stop s then Some (s, evs1 ++ evs2 ++ evs3, Stopped)
    else
      let '(s, evs4, cur) := release_frame s in
      Some (s, evs1 ++ evs2 ++ evs3 ++ evs4, Frame cur)
  end.

(** A whole call: turns until one does not wait, with nothing running in
    between; [envs] is what each turn reads. [None]: no return within
    [envs]. *)
Fixpoint buffer_get_frame (envs : list tick_env) (s : player)
  : option (player * list event * option Z) :=
  match envs with
  | [] => None
  | e :: envs =>
    match buffer_get_frame_turn e s with
    | None => None
    | Some (s, evs, Waiting) =>
      match buffer_get_frame envs s with
      | Some (s, evs', r) => Some (s, evs ++ evs', r)
      | None => None
      end
    | Some (s, evs, Stopped) => Some (s, evs, None)
    | Some (s, evs, Frame cur) => Some (s, evs, Some cur)
    end
  end.

(** ** The sync loop of [player_thread_func] (lines 858-1188) *)

(** One entry of the running statistics. *)
Record stats_t := {
  sync_error : Z;
  correction : Z;
  drift : Z
}.

Definition trend_interval : Z := 3758.
Definition print_interval : Z := trend_interval.
Definition DAC_BUFFER_QUEUE_MINIMUM_LENGTH : Z := 5000.

(** The locals of [player_thread_func] that live across turns of its
    loop. *)
Record loop_t := {
  play_number : Z;
  at_least_one_frame_seen : bool;
  statistics : list stats_t;
  number_of_statistics : Z;
  oldest_statistic : Z;
  newest_statistic : Z;
  tsum_of_sync_errors : Z;
  tsum_of_corrections : Z;
  tsum_of_insertions_and_deletions : Z;
  tsum_of_drifts : Z;
  previous_sync_error : Z;
  previous_correction : Z;
  minimum_dac_queue_size : Z;
  minimum_buffer_occupancy : Z;
  maximum_buffer_occupancy : Z;
  sync_error_out_of_bounds : Z;
  outbuf : list Z
}.

#[global] Instance set_play_number : Setter play_number := fun f r =>
  Build_loop_t
    (f (play_number r)) (at_least_one_frame_seen r) (statistics r) (number_of_statistics r)
    (oldest_statistic r) (newest_statistic r) (tsum_of_sync_errors r) (tsum_of_corrections r)
    (tsum_of_insertions_and_deletions r) (tsum_of_drifts r) (previous_sync_error r)
    (previous_correction r) (minimum_dac_queue_size r) (minimum_buffer_occupancy r)
    (maximum_buffer_occupancy r) (sync_error_out_of_bounds r) (outbuf r).
#[global] Instance set_at_least_one_frame_seen : Setter at_least_one_frame_seen := fun f r =>
  Build_loop_t
    (play_number r) (f (at_least_one_frame_seen r)) (statistics r) (number_of_statistics r)
    (oldest_statistic r) (newest_statistic r) (tsum_of_sync_errors r) (tsum_of_corrections r)
    (tsum_of_insertions_and_deletions r) (tsum_of_drifts r) (previous_sync_error r)
    (previous_correction r) (minimum_dac_queue_size r) (minimum_buffer_occupancy r)
    (maximum_buffer_occupancy r) (sync_error_out_of_bounds r) (outbuf r).
#[global] Instance set_statistics : Setter statistics := fun f r =>
  Build_loop_t
    (play_number r) (at_least_one_frame_seen r) (f (statistics r)) (number_of_statistics r)
    (oldest_statistic r) (newest_statistic r) (tsum_of_sync_errors r) (tsum_of_corrections r)
    (tsum_of_insertions_and_deletions r) (tsum_of_drifts r) (previous_sync_error r)
    (previous_correction r) (minimum_dac_queue_size r) (minimum_buffer_occupancy r)
    (maximum_buffer_occupancy r) (sync_error_out_of_bounds r) (outbuf r).
#[global] Instance set_number_of_statistics : Setter number_of_statistics := fun f r =>
  Build_loop_t
    (play_number r) (at_least_one_frame_seen r) (statistics r) (f (number_of_statistics r))
    (oldest_statistic r) (newest_statistic r) (tsum_of_sync_errors r) (tsum_of_corrections r)
    (tsum_of_insertions_and_deletions r) (tsum_of_drifts r) (previous_sync_error r)
    (previous_correction r) (minimum_dac_queue_size r) (minimum_buffer_occupancy r)
    (maximum_buffer_occupancy r) (sync_error_out_of_bounds r) (outbuf r).
#[global] Instance set_oldest_statistic : Setter oldest_statistic := fun f r =>
  Build_loop_t
    (play_number r) (at_least_one_frame_seen r) (statistics r) (number_of_statistics r)
    (f (oldest_statistic r)) (newest_statistic r) (tsum_of_sync_errors r)
    (tsum_of_corrections r) (tsum_of_insertions_and_deletions r) (tsum_of_drifts r)
    (previous_sync_error r) (previous_correction r) (minimum_dac_queue_size r)
    (minimum_buffer_occupancy r) (maximum_buffer_occupancy r) (sync_error_out_of_bounds r)
    (outbuf r).
#[global] Instance set_newest_statistic : Setter newest_statistic := fun f r =>
  Build_loop_t
    (play_number r) (at_least_one_frame_seen r) (statistics r) (number_of_statistics r)
    (oldest_statistic r) (f (newest_statistic r)) (tsum_of_sync_errors r)
    (tsum_of_corrections r) (tsum_of_insertions_and_deletions r) (tsum_of_drifts r)
    (previous_sync_error r) (previous_correction r) (minimum_dac_queue_size r)
    (minimum_buffer_occupancy r) (maximum_buffer_occupancy r) (sync_error_out_of_bounds r)
    (outbuf r).
#[global] Instance set_tsum_of_sync_errors : Setter tsum_of_sync_errors := fun f r =>
  Build_loop_t
    (play_number r) (at_least_one_frame_seen r) (statistics r) (number_of_statistics r)
    (oldest_statistic r) (newest_statistic r) (f (tsum_of_sync_errors r))
    (tsum_of_corrections r) (tsum_of_insertions_and_deletions r) (tsum_of_drifts r)
    (previous_sync_error r) (previous_correction r) (minimum_dac_queue_size r)
    (minimum_buffer_occupancy r) (maximum_buffer_occupancy r) (sync_error_out_of_bounds r)
    (outbuf r).
#[global] Instance set_tsum_of_corrections : Setter tsum_of_corrections := fun f r =>
  Build_loop_t
    (play_number r) (at_least_one_frame_seen r) (statistics r) (number_of_statistics r)
    (oldest_statistic r) (newest_statistic r) (tsum_of_sync_errors r)
    (f (tsum_of_corrections r)) (tsum_of_insertions_and_deletions r) (tsum_of_drifts r)
    (previous_sync_error r) (previous_correction r) (minimum_dac_queue_size r)
    (minimum_buffer_occupancy r) (maximum_buffer_occupancy r) (sync_error_out_of_bounds r)
    (outbuf r).
#[global] Instance set_tsum_of_insertions_and_deletions : Setter tsum_of_insertions_and_deletions := fun f r =>
  Build_loop_t
    (play_number r) (at_least_one_frame_seen r) (statistics r) (number_of_statistics r)
    (oldest_statistic r) (newest_statistic r) (tsum_of_sync_errors r) (tsum_of_corrections r)
    (f (tsum_of_insertions_and_deletions r)) (tsum_of_drifts r) (previous_sync_error r)
    (previous_correction r) (minimum_dac_queue_size r) (minimum_buffer_occupancy r)
    (maximum_buffer_occupancy r) (sync_error_out_of_bounds r) (outbuf r).
#[global] Instance set_tsum_of_drifts : Setter tsum_of_drifts := fun f r =>
  Build_loop_t
    (play_number r) (at_least_one_frame_seen r) (statistics r) (number_of_statistics r)
    (oldest_statistic r) (newest_statistic r) (tsum_of_sync_errors r) (tsum_of_corrections r)
    (tsum_of_insertions_and_deletions r) (f (tsum_of_drifts r)) (previous_sync_error r)
    (previous_correction r) (minimum_dac_queue_size r) (minimum_buffer_occupancy r)
    (maximum_buffer_occupancy r) (sync_error_out_of_bounds r) (outbuf r).
#[global] Instance set_previous_sync_error : Setter previous_sync_error := fun f r =>
  Build_loop_t
    (play_number r) (at_least_one_frame_seen r) (statistics r) (number_of_statistics r)
    (oldest_statistic r) (newest_statistic r) (tsum_of_sync_errors r) (tsum_of_corrections r)
    (tsum_of_insertions_and_deletions r) (tsum_of_drifts r) (f (previous_sync_error r))
    (previous_correction r) (minimum_dac_queue_size r) (minimum_buffer_occupancy r)
    (maximum_buffer_occupancy r) (sync_error_out_of_bounds r) (outbuf r).
#[global] Instance set_previous_correction : Setter previous_correction := fun f r =>
  Build_loop_t
    (play_number r) (at_least_one_frame_seen r) (statistics r) (number_of_statistics r)
    (oldest_statistic r) (newest_statistic r) (tsum_of_sync_errors r) (tsum_of_corrections r)
    (tsum_of_insertions_and_deletions r) (tsum_of_drifts r) (previous_sync_error r)
    (f (previous_correction r)) (minimum_dac_queue_size r) (minimum_buffer_occupancy r)
    (maximum_buffer_occupancy r) (sync_error_out_of_bounds r) (outbuf r).
#[global] Instance set_minimum_dac_queue_size : Setter minimum_dac_queue_size := fun f r =>
  Build_loop_t
    (play_number r) (at_least_one_frame_seen r) (statistics r) (number_of_statistics r)
    (oldest_statistic r) (newest_statistic r) (tsum_of_sync_errors r) (tsum_of_corrections r)
    (tsum_of_insertions_and_deletions r) (tsum_of_drifts r) (previous_sync_error r)
    (previous_correction r) (f (minimum_dac_queue_size r)) (minimum_buffer_occupancy r)
    (maximum_buffer_occupancy r) (sync_error_out_of_bounds r) (outbuf r).
#[global] Instance set_minimum_buffer_occupancy : Setter minimum_buffer_occupancy := fun f r =>
  Build_loop_t
    (play_number r) (at_least_one_frame_seen r) (statistics r) (number_of_statistics r)
    (oldest_statistic r) (newest_statistic r) (tsum_of_sync_errors r) (tsum_of_corrections r)
    (tsum_of_insertions_and_deletions r) (tsum_of_drifts r) (previous_sync_error r)
    (previous_correction r) (minimum_dac_queue_size r) (f (minimum_buffer_occupancy r))
    (maximum_buffer_occupancy r) (sync_error_out_of_bounds r) (outbuf r).
#[global] Instance set_maximum_buffer_occupancy : Setter maximum_buffer_occupancy := fun f r =>
  Build_loop_t
    (play_number r) (at_least_one_frame_seen r) (statistics r) (number_of_statistics r)
    (oldest_statistic r) (newest_statistic r) (tsum_of_sync_errors r) (tsum_of_corrections r)
    (tsum_of_insertions_and_deletions r) (tsum_of_drifts r) (previous_sync_error r)
    (previous_correction r) (minimum_dac_queue_size r) (minimum_buffer_occupancy r)
    (f (maximum_buffer_occupancy r)) (sync_error_out_of_bounds r) (outbuf r).
#[global] Instance set_sync_error_out_of_bounds : Setter sync_error_out_of_bounds := fun f r =>
  Build_loop_t
    (play_number r) (at_least_one_frame_seen r) (statistics r) (number_of_statistics r)
    (oldest_statistic r) (newest_statistic r) (tsum_of_sync_errors r) (tsum_of_corrections r)
    (tsum_of_insertions_and_deletions r) (tsum_of_drifts r) (previous_sync_error r)
    (previous_correction r) (minimum_dac_queue_size r) (minimum_buffer_occupancy r)
    (maximum_buffer_occupancy r) (f (sync_error_out_of_bounds r)) (outbuf r).
#[global] Instance set_outbuf : Setter outbuf := fun f r =>
  Build_loop_t
    (play_number r) (at_least_one_frame_seen r) (statistics r) (number_of_statistics r)
    (oldest_statistic r) (newest_statistic r) (tsum_of_sync_errors r) (tsum_of_corrections r)
    (tsum_of_insertions_and_deletions r) (tsum_of_drifts r) (previous_sync_error r)
    (previous_correction r) (minimum_dac_queue_size r) (minimum_buffer_occupancy r)
    (maximum_buffer_occupancy r) (sync_error_out_of_bounds r) (f (outbuf r)).

(** What one turn of the loop reads once it has a frame:
    [get_reference_timestamp_stuff], [get_absolute_time_in_fp],
    [config.output->delay], [random] (rate limit), [rand] (stuffing
    position) and the uninitialised [rand_a] of each [dithered_vol]. *)
Record play_env := {
  pe_reference : reference;
  pe_local_time_now : Z;
  pe_current_delay : Z;
  pe_random : Z;
  pe_rand : Z;
  pe_rand_a_uninit : nat -> Z
}.

(** [statistics[i]] and an assignment to it. *)
Definition stat (l : loop_t) (i : Z) : stats_t :=
  default {| sync_error := 0; correction := 0; drift := 0 |} (statistics l !! Z.to_nat i).

(** Lines 1016-1028: corrections are held back after the start of play.
    [rnd] is what [random()] returns. *)
Definition rate_limit (amount_to_stuff : Z) (local_time_now : Z)
  (first_packet_time_to_play : Z) (rnd : Z) : Z :=
  if negb (amount_to_stuff =? 0) then
    if negb (local_time_now =? 0) && negb (first_packet_time_to_play =? 0) &&
       (to_uint64 first_packet_time_to_play <=? local_time_now)
    then
      let tp := to_int64 (Z.shiftr (to_uint64 (local_time_now - first_packet_time_to_play)) 32) in
      if tp <? 5 then 0
      else if tp <? 30 then
        if 352 <? Z.rem rnd 1000 then 0 else amount_to_stuff
      else amount_to_stuff
    else amount_to_stuff
  else amount_to_stuff.

(** Lines 944-951: the time since the reference, in frames. *)
Definition td_in_frames (local_time_now : Z) (r : reference) : Z :=
  let td := to_int64 (local_time_now - reference_timestamp_time r) in
  if 0 <=? td then Z.shiftr (to_int64 (td * 44100)) 32
  else to_int64 (- (Z.shiftr (to_int64 (to_int64 (- td) * 44100)) 32)).

(** Lines 958-970: the out-of-sequence minder. *)
Definition check_sequencing (seq : seq_t) (last_seqno_read : Z) : Z :=
  if last_seqno_read =? -1 then seq
  else
    let last_seqno_read := Z.land (SUCCESSOR (to_uint16 last_seqno_read)) 65535 in
    if negb (seq =? last_seqno_read) then seq else last_seqno_read.

(** Lines 1107-1144: a frame's sync error and correction enter the
    running statistics. *)
Definition record_statistics (sync_err amount_to_stuff : Z) (l : loop_t) : loop_t :=
  let l :=
    if number_of_statistics l =? trend_interval then
      let old := stat l (oldest_statistic l) in
      l <| tsum_of_sync_errors ::= fun t => to_int64 (t - sync_error old) |>
        <| tsum_of_drifts ::= fun t => to_int64 (t - drift old) |>
        <| tsum_of_insertions_and_deletions ::= fun t =>
             if 0 <? correction old then to_int64 (t - correction old)
             else to_int64 (t + correction old) |>
        <| tsum_of_corrections ::= fun t => to_int64 (t - correction old) |>
        <| oldest_statistic ::= fun o => Z.rem (o + 1) trend_interval |>
        <| number_of_statistics ::= fun n => n - 1 |>
    else l in
  let new_drift :=
    if number_of_statistics l =? 0 then 0
    else to_int64 (to_int64 (sync_err - previous_sync_error l) - previous_correction l) in
  let l :=
    l <| statistics ::=
           <[Z.to_nat (newest_statistic l) :=
               {| sync_error := sync_err; correction := amount_to_stuff; drift := new_drift |}]> |> in
  let l := l <| previous_sync_error := sync_err |> in
  let l := l <| previous_correction := amount_to_stuff |> in
  let l := l <| tsum_of_sync_errors ::= fun t => to_int64 (t + sync_err) |> in
  let l := l <| tsum_of_drifts ::= fun t => to_int64 (t + new_drift) |> in
  let l :=
    l <| tsum_of_insertions_and_deletions ::= fun t =>
           if 0 <? amount_to_stuff then to_int64 (t + amount_to_stuff)
           else to_int64 (t - amount_to_stuff) |> in
  let l := l <| tsum_of_corrections ::= fun t => to_int64 (t + amount_to_stuff) |> in
  let l := l <| newest_statistic ::= fun n => Z.rem (n + 1) trend_interval |> in
  l <| number_of_statistics ::= fun n => to_int32 (n + 1) |>.

(** Lines 1146-1181: the end of a reporting interval (the report itself
    is a log line). *)
Definition end_of_interval (l : loop_t) : loop_t :=
  if Z.rem (play_number l) print_interval =? 0 then
    l <| minimum_dac_queue_size := 1000000 |>
      <| maximum_buffer_occupancy := 0 |>
      <| minimum_buffer_occupancy := BUFFER_FRAMES |>
      <| at_least_one_frame_seen := false |>
  else l.

(** [config.output->play(inbuf, frame_size)] *)
Definition play_direct (inbuf : list Z) (s : player) : list event :=
  [output_play (take (FRAME_SHORTS (frame_size s)) inbuf) (frame_size s)].

(** [play_samples = stuff_buffer_basic(inbuf, outbuf, stuff);
    config.output->play(outbuf, n)], where [n] is [play_samples] or, with
    no delay hook, [frame_size]. *)
Definition play_stuffed (e : play_env) (inbuf : list Z) (stuff : Z) (use_play_samples : bool)
  (l : loop_t) (s : player) : player * loop_t * list event :=
  let '(c, play_samples) :=
    stuff_buffer_basic (frame_size s) (fix_volume s) (pe_rand_a_uninit e) inbuf
      stuff (pe_rand e) (lcg_prev s) in
  let l := l <| outbuf ::= fun o => overwrite o (written c) |> in
  let s := s <| lcg_prev := sc_lcg_prev c |> in
  let n := if use_play_samples then play_samples else frame_size s in
  (s, l, [output_play (take (FRAME_SHORTS n) (outbuf l)) n]).

(** What the loop worked out for a frame: the sync error and the
    correction it asked the stuffer for. *)
Record sync_decision := {
  sd_sync_error : Z;
  sd_amount_to_stuff : Z
}.

(** Lines 996-1010: the correction the sync error calls for, before the
    rate limit. *)
Definition choose_correction (cfg : config_t) (sync_err current_delay : Z) : Z :=
  let amount_to_stuff := 0 in
  let amount_to_stuff :=
    if tolerance cfg <? sync_err then -1 else amount_to_stuff in
  let amount_to_stuff :=
    if sync_err <? - tolerance cfg then 1 else amount_to_stuff in
  let amount_to_stuff :=
    if current_delay <? DAC_BUFFER_QUEUE_MINIMUM_LENGTH then 0 else amount_to_stuff in
  amount_to_stuff.

(** Lines 1070-1087: the check for loss of sync; [nt] is the frame's
    timestamp, [cur] its slot. *)
Definition check_resync (nt sync_err : Z) (cur : Z) (l : loop_t) (s : player)
  : player * loop_t :=
  if negb (timestamp (slot s cur) =? 0) && negb (please_stop s) &&
     negb (resyncthreshold (config s) =? 0) &&
     (resyncthreshold (config s) <? Z.abs (to_int32 sync_err))
  then
    let l := l <| sync_error_out_of_bounds ::= fun n => to_int32 (n + 1) |> in
    if 3 <? sync_error_out_of_bounds l
    then (player_flush (to_uint32 nt) s, l <| sync_error_out_of_bounds := 0 |>)
    else (s, l)
  else (s, l <| sync_error_out_of_bounds := 0 |>).

(** Lines 980-1087: with a delay hook, the frame is timed against the
    reference, corrected and played. The result ends with the sync error
    and the correction. *)
Definition play_synced (e : play_env) (cur : Z) (inbuf : list Z) (td_in_frames rt nt : Z)
  (l : loop_t) (s : player) : player * loop_t * list event * Z * Z :=
  let current_delay :=
    if pe_current_delay e =? -1 then 0 else pe_current_delay e in
  let l :=
    if current_delay <? minimum_dac_queue_size l
    then l <| minimum_dac_queue_size := current_delay |> else l in
  let delay := to_int64 (to_int64 (td_in_frames + rt) - to_int64 (nt - current_delay)) in
  let sync_err := to_int64 (delay - latency (config s)) in
  let amount_to_stuff := choose_correction (config s) sync_err current_delay in
  let amount_to_stuff :=
    rate_limit amount_to_stuff (pe_local_time_now e) (first_packet_time_to_play s)
      (pe_random e) in
  let '(s, l, evs) :=
    if (amount_to_stuff =? 0) && (fix_volume s =? 65536)
    then (s, l, play_direct inbuf s)
    else play_stuffed e inbuf amount_to_stuff true l s in
  let '(s, l) := check_resync nt sync_err cur l s in
  (s, l, evs, sync_err, amount_to_stuff).

(** Lines 1088-1096: without a delay hook there is no synchronising. *)
Definition play_unsynced (e : play_env) (inbuf : list Z) (l : loop_t) (s : player)
  : player * loop_t * list event * Z * Z :=
  let '(s, l, evs) :=
    if fix_volume s =? 65536 then (s, l, play_direct inbuf s)
    else play_stuffed e inbuf 0 false l s in
  (s, l, evs, 0, 0).

(** Lines 910-1183: the body of the loop for the frame [buffer_get_frame]
    returned in slot [cur]. The build is the one without libsoxr. The
    last component is [None] when the frame is played without any sync
    computation. *)
Definition play_frame (e : play_env) (cur : Z) (l : loop_t) (s : player)
  : player * loop_t * list event * option sync_decision :=
  let inframe := slot s cur in
  let inbuf := data inframe in
  let l := l <| play_number ::= fun n => to_int32 (n + 1) |> in
  if timestamp inframe =? 0 then
    let s :=
      s <| last_seqno_read ::= fun n => Z.land (SUCCESSOR (to_uint16 n)) 65535 |> in
    (s, end_of_interval l, play_direct inbuf s, None)
  else
    let l := l <| at_least_one_frame_seen := true |> in
    let r := pe_reference e in
    let rt := reference_timestamp r in
    let nt := timestamp inframe in
    let td_in_frames := td_in_frames (pe_local_time_now e) r in
    let s := s <| last_seqno_read ::= check_sequencing (sequence_number inframe) |> in
    let s := s <| buffer_occupancy := seq_diff (ab_read s) (ab_read s) (ab_write s) |> in
    let l :=
      if buffer_occupancy s <? minimum_buffer_occupancy l
      then l <| minimum_buffer_occupancy := buffer_occupancy s |> else l in
    let l :=
      if maximum_buffer_occupancy l <? buffer_occupancy s
      then l <| maximum_buffer_occupancy := buffer_occupancy s |> else l in
    let '(s, l, evs, sync_err, amount_to_stuff) :=
      if output_has_delay (config s)
      then play_synced e cur inbuf td_in_frames rt nt l s
      else play_unsynced e inbuf l s in
    let s := update_slot cur (fun a => a <| timestamp := 0 |> <| sequence_number := 0 |>) s in
    let l := record_statistics sync_err amount_to_stuff l in
    let s := s <| session_corrections ::= fun n => to_int64 (n + amount_to_stuff) |> in
    (s, end_of_interval l, evs,
     Some {| sd_sync_error := sync_err; sd_amount_to_stuff := amount_to_stuff |}).

(** ** [player_play] and the start of [player_thread_func]: the state a
    session starts from. The ring has [BUFFER_FRAMES] slots, all cleared
    by [ab_resync]; the cursors are the zero-initialised statics; [conn]
    is the requested connection state read at the start of the thread. *)
Definition player_play (fs : Z) (dec : list Z -> list Z) (cfg : config_t) (conn : Z)
  : player :=
  {| audio_buffer :=
       replicate (Z.to_nat BUFFER_FRAMES)
         {| ready := false; timestamp := 0; sequence_number := 0;
            data := replicate (OUTFRAME_SHORTS fs) 0 |};
     ab_read := 0; ab_write := 0;
     ab_buffering := true; ab_synced := false;
     first_packet_timestamp := 0;
     flush_requested := false; flush_rtp_timestamp := 0;
     time_of_last_audio_packet := 0; shutdown_requested := false;
     first_packet_time_to_play := 0; time_since_play_started := 0;
     connection_state_to_output := conn;
     please_stop := false;
     packet_count := 0; last_seqno_read := -1;
     missing_packets := 0; late_packets := 0; too_late_packets := 0;
     resend_requests := 0;
     fix_volume := 65536; lcg_prev := 12345;
     play_segment_reference_frame := 0;
     play_segment_reference_frame_remote_time := 0;
     session_corrections := 0; buffer_occupancy := 0;
     frame_size := fs; decoder_info := dec; config := cfg |}.

(** The locals of [player_thread_func] as the loop is entered. *)
Definition loop_start (fs : Z) : loop_t :=
  {| play_number := 0; at_least_one_frame_seen := false;
     statistics := replicate (Z.to_nat trend_interval)
                     {| sync_error := 0; correction := 0; drift := 0 |};
     number_of_statistics := 0; oldest_statistic := 0; newest_statistic := 0;
     tsum_of_sync_errors := 0; tsum_of_corrections := 0;
     tsum_of_insertions_and_deletions := 0; tsum_of_drifts := 0;
     previous_sync_error := 0; previous_correction := 0;
     minimum_dac_queue_size := 1000000;
     minimum_buffer_occupancy := BUFFER_FRAMES; maximum_buffer_occupancy := 0;
     sync_error_out_of_bounds := 0;
     outbuf := replicate (OUTFRAME_SHORTS fs) 0 |}.

(** ** Notions used to state the properties *)

(** The shorts at positions [p], [p + 1], ... ([n] of them) of a buffer. *)
Fixpoint reads (buf : list Z) (p : Z) (n : nat) : list Z :=
  match n with
  | O => []
  | S n => rd buf p :: reads buf (p + 1) n
  end.

(** [lcg_prev] after one call of [dithered_vol] (it does not depend on
    the sample), and after [n] calls. *)
Definition lcg_step (fix_volume : Z) (lcg_prev : Z) : Z :=
  snd (dithered_vol fix_volume 0 lcg_prev 0).

Definition lcg_after (fix_volume : Z) (n : nat) (lcg_prev : Z) : Z :=
  Nat.iter n (lcg_step fix_volume) lcg_prev.

(** The position [stuff_buffer_basic] picks from what [rand()] returns. *)
Definition stuffsamp_of (frame_size rnd : Z) : Z := Z.rem rnd (frame_size - 2) + 1.

(** Everything in the loop's locals that the running sync statistics
    consist of. *)
Definition sync_statistics (l : loop_t) :=
  (statistics l, number_of_statistics l, oldest_statistic l, newest_statistic l,
   (tsum_of_sync_errors l, tsum_of_corrections l,
    tsum_of_insertions_and_deletions l, tsum_of_drifts l),
   (previous_sync_error l, previous_correction l)).

(** The draws [r] in [[0, 1000)] for which the rate limit turns the
    correction [amount_to_stuff] into none. *)
Definition dropping_draws (amount_to_stuff local_time_now first_packet_time_to_play : Z)
  : list Z :=
  List.filter
    (fun r => rate_limit amount_to_stuff local_time_now first_packet_time_to_play r =? 0)
    (seqZ 0 1000).

(** Whole seconds from [first_packet_time_to_play] to [local_time_now],
    both 32.32 fixed point. *)
Definition seconds_since (first_packet_time_to_play local_time_now : Z) : Z :=
  (local_time_now - to_uint64 first_packet_time_to_play) / 2 ^ 32.

(** The classification "too late" of [player_put_packet]: the ring is
    synced and the packet is neither the expected one, nor newer, nor
    after [ab_read]. *)
Definition too_late (s : player) (seqno : seq_t) : bool :=
  ab_synced s && negb (ab_write s =? seqno) &&
  negb (seq_order (ab_read s) (ab_write s) seqno) &&
  negb (seq_order (ab_read s) (ab_read s) seqno).

(** The number of sequence numbers from [w] up to, not including, [seqno]. *)
Definition gap_between (w seqno : seq_t) : Z := (seqno - w) mod 65536.

(** Whether one of the [n] turns from [i] of the gap loop clears slot [j]. *)
Fixpoint gap_hits (n : nat) (i : Z) (w : seq_t) (j : Z) : bool :=
  match n with
  | O => false
  | S n => (BUFIDX (seq_sum w (to_uint16 i)) =? j) || gap_hits n (i + 1) w j
  end.

(** ** Reachable states and the ring invariant *)

(** [ab_write - ab_read], measured in the ordinate order. *)
Definition ring_distance (s : player) : Z :=
  seq_diff (ab_read s) (ab_read s) (ab_write s).

(** The packet gets past the connection switch and the flush filter. *)
Definition admitted (s : player) (ts : Z) : bool :=
  negb (connection_state_to_output s =? 0) && negb (flush_filtered s ts).

(** ** A turn and the calls that can land inside it *)

(** Lines 415-447 of a turn: the silence timeout, the connection switch
    and the flush check, which runs under [flush_mutex]. *)
Definition turn_head (e : tick_env) (s : player) : player * list event :=
  let '(s, evs1) := timeout_check e s in
  let s := track_connection e s in
  let '(s, evs2) := apply_flush s in
  (s, evs1 ++ evs2).

(** Lines 448-723: the inner loop, the buffering, the decision to wait
    and the release. *)
Definition turn_tail (e : tick_env) (s : player)
  : option (player * list event * turn_result) :=
  let after_drain :=
    if ab_synced s then
      match flush_drain flush_drain_fuel 0 s with
      | Some (s, _) => Some (buffering e s)
      | None => None
      end
    else Some (s, []) in
  match after_drain with
  | None => None
  | Some (s, evs3) =>
    let wait := (ab_buffering s || do_wait e s || negb (ab_synced s)) && negb (please_stop s) in
    if wait then Some (s, evs3, Waiting)
    else if please_stop s then Some (s, evs3, Stopped)
    else
      let '(s, evs4, cur) := release_frame s in
      Some (s, evs3 ++ evs4, Frame cur)
  end.

(** A turn during which another thread may call [player_flush].
    [player_flush] (lines 1245-1256) takes [flush_mutex] only, not
    [ab_mutex], so it can run while a turn does: before the flush check
    of lines 437-447 (which is a call before the turn), or past it.
    [mid] is the timestamp of a call that lands past the flush check,
    before the inner loop reads the boundary; with [None] the turn is
    [buffer_get_frame_turn]. *)
Definition buffer_get_frame_turn_flushed (e : tick_env) (mid : option Z) (s : player)
  : option (player * list event * turn_result) :=
  let '(s, evs) := turn_head e s in
  let s := match mid with Some ts => player_flush ts s | None => s end in
  match turn_tail e s with
  | Some (s, evs', r) => Some (s, evs ++ evs', r)
  | None => None
  end.

(** The slot the player loop holds after a turn: [buffer_get_frame]
    returns a pointer into the ring, and the loop reads and writes that
    slot after [ab_mutex] has been released. *)
Definition held_after (r : turn_result) : option Z :=
  match r with
  | Frame cur => Some cur
  | _ => None
  end.

(** The pacing condition on an arriving packet, given the slot the
    player loop holds: if the packet is admitted, it is fewer than
    [BUFFER_FRAMES] slots ahead of [ab_read] on a synced ring, and its
    slot is not the one the loop holds. *)
Definition paced (s : player) (held : option Z) (seqno : seq_t) (ts : Z) : Prop :=
  admitted s ts = true ->
  (ab_synced s = true -> ORDINATE (ab_read s) seqno < BUFFER_FRAMES) /\
  held <> Some (BUFIDX seqno).

(** The first half alone. *)
Definition paced_ahead (s : player) (held : option Z) (seqno : seq_t) (ts : Z) : Prop :=
  admitted s ts = true -> ab_synced s = true ->
  ORDINATE (ab_read s) seqno < BUFFER_FRAMES.

(** No condition at all. *)
Definition unpaced (s : player) (held : option Z) (seqno : seq_t) (ts : Z) : Prop := True.

(** The states reached from [s0], with the slot the player loop holds.
    The steps are those of the three threads: a call of
    [player_put_packet] (with well-typed arguments that satisfy [guard]),
    which runs under [ab_mutex]; a call of [player_flush]; a turn of
    [buffer_get_frame], under [ab_mutex] from start to end, into which a
    call of [player_flush] may land; and, for each frame a turn has
    returned, the body of the loop of [player_thread_func], which marks
    the slot finished (lines 1099-1100) outside any lock before the
    next turn. Packets and flushes may arrive while the loop holds a
    slot. *)
Inductive reachable (guard : player -> option Z -> seq_t -> Z -> Prop) (s0 : player)
  : player -> option Z -> Prop :=
| reach_start : reachable guard s0 s0 None
| reach_put s h seqno ts payload now :
    reachable guard s0 s h ->
    is_uint16 seqno -> guard s h seqno ts ->
    reachable guard s0 (fst (player_put_packet seqno ts payload now s)) h
| reach_flush s h ts :
    reachable guard s0 s h ->
    reachable guard s0 (player_flush ts s) h
| reach_turn s e mid s' evs r :
    reachable guard s0 s None ->
    buffer_get_frame_turn_flushed e mid s = Some (s', evs, r) ->
    reachable guard s0 s' (held_after r)
| reach_play s cur e l :
    reachable guard s0 s (Some cur) ->
    reachable guard s0 (fst (fst (fst (play_frame e cur l s)))) None.

(** The slot the loop holds is not ready. *)
Definition held_inv (s : player) (held : option Z) : Prop :=
  forall cur, held = Some cur -> 0 <= cur /\ ready (slot s cur) = false.

(** What the ring invariant reads of the state. *)
Definition ring_view (s : player) :=
  (audio_buffer s, ab_read s, ab_write s, ab_synced s).

(** The ring invariant: the cursors are at most [BUFFER_FRAMES] apart,
    and every ready slot holds, at its own index, a frame between them;
    an unsynced ring has no ready slot. *)
Record ring_inv (s : player) : Prop := {
  inv_length : length (audio_buffer s) = Z.to_nat BUFFER_FRAMES;
  inv_read : is_uint16 (ab_read s);
  inv_write : is_uint16 (ab_write s);
  inv_distance : (ab_write s - ab_read s) mod 65536 <= BUFFER_FRAMES;
  inv_slots : forall j,
    0 <= j < BUFFER_FRAMES -> ready (slot s j) = true ->
    ab_synced s = true /\
    is_uint16 (sequence_number (slot s j)) /\
    BUFIDX (sequence_number (slot s j)) = j /\
    (sequence_number (slot s j) - ab_read s) mod 65536
      < (ab_write s - ab_read s) mod 65536
}.

(** A flush filter is only active while the flush is still to be applied
    or the ring is waiting to sync. *)
Definition filter_inv (s : player) : Prop :=
  flush_rtp_timestamp s <> 0 -> flush_requested s = true \/ ab_synced s = false.

Definition player_inv (s : player) : Prop := ring_inv s /\ filter_inv s.

(** Two states with the same ring and the same flush state. *)
Definition same_ring (s s' : player) : Prop :=
  ring_view s' = ring_view s /\
  flush_rtp_timestamp s' = flush_rtp_timestamp s /\
  flush_requested s' = flush_requested s.

(** ** Sample values *)

Definition sample_config : config_t :=
  {| timeout := 120; dont_check_timeout := 0; latency := 88200;
     audio_backend_latency_offset := 0; audio_backend_buffer_desired_length := 6615;
     tolerance := 88; resyncthreshold := 2205;
     output_has_flush := true; output_has_delay := true |}.

Definition sample_reference : reference :=
  {| reference_timestamp := 900; reference_timestamp_time := 2 ^ 40;
     remote_reference_timestamp_time := 2 ^ 41 |}.

Definition sample_play_env : play_env :=
  {| pe_reference := sample_reference; pe_local_time_now := 2 ^ 40 + 2 ^ 33;
     pe_current_delay := 6000; pe_random := 400; pe_rand := 5;
     pe_rand_a_uninit := fun _ => 0 |}.

(** A session with four-sample frames whose decoder is the identity. *)
Definition sample_player : player := player_play 4 (fun p => p) sample_config 1.

Definition sample_payload (v : Z) : list Z := [v; v; v; v; v; v; v; v].

(** The ring after 100 and 101, with a frame of an earlier lap of the
    ring left ready in slot 102. *)
Definition stale_ring : player :=
  update_slot 102
    (fun a => a <| ready := true |> <| timestamp := 77 |> <| sequence_number := 614 |>)
    (fst (player_put_packet 101 1004 (sample_payload 2) 8
            (fst (player_put_packet 100 1000 (sample_payload 1) 7 sample_player)))).

(** ** Notions used to state further properties *)

(** A packet as [player_put_packet] receives it: sequence number,
    timestamp, payload, and the time of arrival. *)
Definition packet : Type := seq_t * Z * list Z * Z.

(** A run of [player_put_packet] calls, one per packet, with nothing in
    between; the events are gathered in order. *)
Definition put_all (pkts : list packet) (s : player) : player * list event :=
  fold_left
    (fun acc pkt =>
       let '(s, evs) := acc in
       let '(seqno, ts, payload, now) := pkt in
       let '(s', evs') := player_put_packet seqno ts payload now s in
       (s', evs ++ evs'))
    pkts (s, []).

(** The decoded frame [player_put_packet] leaves in a slot. *)
Definition stored_frame (s : player) (seqno : seq_t) (ts : Z) (payload : list Z) : abuf_t :=
  {| ready := true; timestamp := ts; sequence_number := seqno;
     data := alac_decode s (data (slot s (BUFIDX seqno))) payload |}.

(** The state [place_packet] starts from once a packet is admitted. *)
Definition admitted_state (now : Z) (s : player) : player :=
  s <| packet_count ::= fun n => to_uint64 (n + 1) |>
    <| time_of_last_audio_packet := now |>
    <| flush_rtp_timestamp := 0 |>.


(** A session in which the ring is synced at 100 and holds 100 and 101;
    then 103 has arrived and 102 is missing. *)
Definition two_packets : player :=
  fst (player_put_packet 101 1004 (sample_payload 2) 8
         (fst (player_put_packet 100 1000 (sample_payload 1) 7 sample_player))).

Definition gap_at_102 : player :=
  fst (player_put_packet 103 1012 (sample_payload 3) 9 two_packets).

(** The packets a sender emits in order from [seq0]: the sequence number
    is a 16-bit counter. What varies per packet is the timestamp, the
    payload and the time of arrival. *)
Definition in_order (seq0 : seq_t) (l : list (Z * list Z * Z)) : list packet :=
  imap (fun k '(ts, payload, now) => (to_uint16 (seq0 + Z.of_nat k), ts, payload, now)) l.

(** What holds after the packets [l] of an in-order run from [seq0] have
    been put into the ring, from the state [s]. *)
Definition run_stored (seq0 : seq_t) (l : list (Z * list Z * Z)) (s s' : player) : Prop :=
  length (audio_buffer s') = Z.to_nat BUFFER_FRAMES /\
  connection_state_to_output s' = connection_state_to_output s /\
  flush_rtp_timestamp s' = 0 /\
  decoder_info s' = decoder_info s /\
  ab_synced s' = true /\
  ab_read s' = seq0 /\
  ab_write s' = to_uint16 (seq0 + Z.of_nat (length l)) /\
  (forall k ts payload now, l !! k = Some (ts, payload, now) ->
     slot s' (BUFIDX (to_uint16 (seq0 + Z.of_nat k))) =
     stored_frame s (to_uint16 (seq0 + Z.of_nat k)) ts payload) /\
  (forall j, 0 <= j ->
     (forall k, (k < length l)%nat -> j <> BUFIDX (to_uint16 (seq0 + Z.of_nat k))) ->
     slot s' j = slot s j) /\
  resend_requests s' = resend_requests s /\
  late_packets s' = late_packets s /\
  too_late_packets s' = too_late_packets s /\
  packet_count s' = to_uint64 (packet_count s + Z.of_nat (length l)).

(** What [player_put_packet] owns of the state, apart from the slots:
    [buffer_get_frame] only reads these. *)
Definition producer_view (s : player) :=
  (ab_write s, packet_count s, late_packets s, too_late_packets s,
   time_of_last_audio_packet s, length (audio_buffer s)).

(** A clock reading at which the frames of [two_packets] are not yet
    due. *)
Definition sample_tick : tick_env :=
  {| local_time_now := 2 ^ 40; rco := 1; ref_first_packet := sample_reference;
     ref_resume := sample_reference; ref_play := sample_reference;
     dac_delay_read := 0 |}.

(** A clock reading just before the time to start of [two_packets]: the
    lead-in ends and the first frame is due. *)
Definition due_tick : tick_env :=
  {| local_time_now := 2 ^ 40 + 2 * 2 ^ 32; rco := 1; ref_first_packet := sample_reference;
     ref_resume := sample_reference; ref_play := sample_reference;
     dac_delay_read := 0 |}.

(** ** [player_stop] (lines 1308-1322), up to the join: the request the
    player thread sees. *)
#[global] Instance set_please_stop : Setter please_stop := fun f r =>
  Build_player
    (audio_buffer r) (ab_read r) (ab_write r) (ab_buffering r) (ab_synced r)
    (first_packet_timestamp r) (flush_requested r) (flush_rtp_timestamp r)
    (time_of_last_audio_packet r) (shutdown_requested r) (first_packet_time_to_play r)
    (time_since_play_started r) (connection_state_to_output r) (f (please_stop r))
    (packet_count r)
    (last_seqno_read r) (missing_packets r) (late_packets r) (too_late_packets r)
    (resend_requests r) (fix_volume r) (lcg_prev r) (play_segment_reference_frame r)
    (play_segment_reference_frame_remote_time r) (session_corrections r) (buffer_occupancy r)
    (frame_size r) (decoder_info r) (config r).

Definition player_stop (s : player) : player := s <| please_stop := true |>.

(** The calls of [rtsp_request_shutdown_stream] among the events. *)
Definition is_shutdown (ev : event) : bool :=
  match ev with
  | rtsp_request_shutdown_stream => true
  | _ => false
  end.

(** Fields that the parts of a turn after the timeout check only read. *)
Definition kept_view (s : player) :=
  (missing_packets s, please_stop s, shutdown_requested s).

(** [two_packets] once the first frame has fixed the time to start. *)
Definition lead_state : player :=
  first_packet due_tick (slot two_packets (BUFIDX 100)) two_packets.

(** The state and the held slot a turn leaves; a turn that does not end
    leaves nothing. *)
Definition turn_state (e : tick_env) (mid : option Z) (s : player) : player :=
  match buffer_get_frame_turn_flushed e mid s with
  | Some (s', _, _) => s'
  | None => s
  end.

Definition turn_held (e : tick_env) (mid : option Z) (s : player) : option Z :=
  match buffer_get_frame_turn_flushed e mid s with
  | Some (_, _, r) => held_after r
  | None => None
  end.

(** [two_packets] after a turn has handed frame 100 over, packet 102 has
    arrived and the player loop has played the frame. *)
Definition played_state : player :=
  fst (fst (fst
    (play_frame sample_play_env 100 (loop_start 4)
       (fst (player_put_packet 102 1008 (sample_payload 3) 9
               (turn_state due_tick None two_packets)))))).

(** A synced ring whose head frame is missing: 100 was handed over and
    played, 101 never arrived, 102 did. *)
Definition hole_at_head : player :=
  fst (player_put_packet 102 1008 (sample_payload 3) 9
         (fst (fst (fst
            (play_frame sample_play_env 100 (loop_start 4)
               (turn_state due_tick None
                  (fst (player_put_packet 100 1000 (sample_payload 1) 7 sample_player)))))))).

(** ** Scripted runs *)

(** The steps of [reachable], as data; the state of a run carries the
    locals of the player loop from one frame to the next. *)
Inductive op :=
| Put (seqno ts : Z) (payload : list Z) (now : Z)
| Flush (ts : Z)
| Turn (e : tick_env) (mid : option Z)
| Play (e : play_env).

(** [paced_ahead], decided. *)
Definition paced_aheadb (s : player) (seqno ts : Z) : bool :=
  negb (admitted s ts) || negb (ab_synced s) ||
  (ORDINATE (ab_read s) seqno <? BUFFER_FRAMES).

(** One step of a run; [None] when the step cannot be taken: a packet
    that is not 16-bit or not paced, a turn while the loop holds a frame,
    a turn that does not end, the loop body with no frame. *)
Definition run_op (o : op) (st : player * option Z * loop_t)
  : option (player * option Z * loop_t) :=
  let '(s, h, l) := st in
  match o with
  | Put seqno ts payload now =>
    if (0 <=? seqno) && (seqno <? 65536) && paced_aheadb s seqno ts
    then Some (fst (player_put_packet seqno ts payload now s), h, l)
    else None
  | Flush ts => Some (player_flush ts s, h, l)
  | Turn e mid =>
    match h with
    | Some _ => None
    | None =>
      match buffer_get_frame_turn_flushed e mid s with
      | Some (s', _, r) => Some (s', held_after r, l)
      | None => None
      end
    end
  | Play e =>
    match h with
    | Some cur =>
      let '(s', l', _, _) := play_frame e cur l s in Some (s', None, l')
    | None => None
    end
  end.

Fixpoint run (ops : list op) (st : player * option Z * loop_t)
  : option (player * option Z * loop_t) :=
  match ops with
  | [] => Some st
  | o :: ops =>
    match run_op o st with
    | Some st' => run ops st'
    | None => None
    end
  end.

(** The state and the held slot a run ends in; a run that cannot be
    taken ends where it started. *)
Definition run_state (ops : list op) (st : player * option Z * loop_t) : player :=
  match run ops st with
  | Some (s, _, _) => s
  | None => fst (fst st)
  end.

Definition run_held (ops : list op) (st : player * option Z * loop_t) : option Z :=
  match run ops st with
  | Some (_, h, _) => h
  | None => snd (fst st)
  end.

(** A backend whose delay keeps the sync error within the resync
    threshold for the frames below. *)
Definition steady_play_env : play_env :=
  {| pe_reference := sample_reference; pe_local_time_now := 2 ^ 40 + 2 ^ 33;
     pe_current_delay := 1100; pe_random := 400; pe_rand := 5;
     pe_rand_a_uninit := fun _ => 0 |}.

(** A full ring, 64512 to 65023, all in order; frame 64512 is handed
    over; packet 65024, 511 ahead of [ab_read], arrives and lands in the
    slot the loop still holds; the loop marks that slot finished; the
    other 511 frames are played; the next turn looks at the slot. *)
Definition overrun_script : list op :=
  map (fun k => Put (64512 + Z.of_nat k) (1000 + 4 * Z.of_nat k) (sample_payload 1) 7)
      (seq 0 512)
  ++ [Turn due_tick None; Put 65024 3048 (sample_payload 2) 8; Play steady_play_env]
  ++ concat (replicate 511 [Turn due_tick None; Play steady_play_env])
  ++ [Turn due_tick None].

(** * Part II: properties *)

(** ** Machine integers *)

Section CIntFacts.

Lemma to_short_id x : is_short x -> to_short x = x.
Proof.
  unfold is_short, to_short, wrap_s; intros H.
  change (2 ^ (16 - 1)) with 32768; change (2 ^ 16) with 65536.
  rewrite Z.mod_small; lia.
Qed.

Lemma to_short_range x : is_short (to_short x).
Proof.
  unfold is_short, to_short, wrap_s.
  change (2 ^ (16 - 1)) with 32768; change (2 ^ 16) with 65536.
  pose proof (Z.mod_pos_bound (x + 32768) 65536); lia.
Qed.

Lemma to_uint16_id x : is_uint16 x -> to_uint16 x = x.
Proof. unfold is_uint16, to_uint16, wrap_u. intros H. apply Z.mod_small. lia. Qed.

Lemma to_uint16_range x : is_uint16 (to_uint16 x).
Proof.
  unfold is_uint16, to_uint16, wrap_u. change (2 ^ 16) with 65536.
  apply Z.mod_pos_bound. lia.
Qed.

Lemma to_uint64_id x : is_uint64 x -> to_uint64 x = x.
Proof. unfold is_uint64, to_uint64, wrap_u. intros H. apply Z.mod_small. lia. Qed.

Lemma to_int64_id x : is_int64 x -> to_int64 x = x.
Proof.
  unfold is_int64, to_int64, wrap_s; intros H.
  change (2 ^ (64 - 1)) with 9223372036854775808.
  change (2 ^ 64) with 18446744073709551616.
  rewrite Z.mod_small; lia.
Qed.

Lemma land_ffff x : Z.land x 65535 = x mod 65536.
Proof. change 65535 with (Z.ones 16). now rewrite Z.land_ones by lia. Qed.

Lemma land_ffffffff x : Z.land x 4294967295 = x mod 4294967296.
Proof. change 4294967295 with (Z.ones 32). now rewrite Z.land_ones by lia. Qed.

(** Masking with a single bit tests that bit. *)
Lemma land_pow2_testbit c n :
  0 <= n -> (Z.land c (2 ^ n) =? 0) = negb (Z.testbit c n).
Proof.
  intros Hn.
  assert (Hbit : Z.land c (2 ^ n) = if Z.testbit c n then 2 ^ n else 0).
  { apply Z.bits_inj'; intros k Hk. rewrite Z.land_spec.
    destruct (Z.testbit c n) eqn:En.
    - destruct (Z.eq_dec k n) as [->|Hne].
      + now rewrite En.
      + now rewrite Z.pow2_bits_false, andb_false_r by lia.
    - rewrite Z.bits_0.
      destruct (Z.eq_dec k n) as [->|Hne].
      + now rewrite En.
      + now rewrite Z.pow2_bits_false, andb_false_r by lia. }
  rewrite Hbit. destruct (Z.testbit c n); simpl.
  - apply Z.eqb_neq. pose proof (Z.pow_pos_nonneg 2 n). lia.
  - reflexivity.
Qed.

End CIntFacts.

(** ** Sequence arithmetic *)

Section SeqFacts.

Lemma SUCCESSOR_mod x : SUCCESSOR x = (x + 1) mod 65536.
Proof.
  unfold SUCCESSOR, to_uint32, wrap_u. rewrite !land_ffff.
  change (2 ^ 32) with 4294967296.
  Z.div_mod_to_equations; lia.
Qed.

Lemma PREDECESSOR_mod x : PREDECESSOR x = (x - 1) mod 65536.
Proof.
  unfold PREDECESSOR, to_uint32, wrap_u. rewrite !land_ffff.
  change (2 ^ 32) with 4294967296.
  Z.div_mod_to_equations; lia.
Qed.

Lemma seq_sum_mod a b : 0 <= a + b < 4294967296 -> seq_sum a b = (a + b) mod 65536.
Proof.
  intros H. unfold seq_sum, to_uint32, wrap_u. rewrite land_ffff.
  change (2 ^ 32) with 4294967296. rewrite (Z.mod_small (a + b)); lia.
Qed.

Lemma BUFIDX_mod x : BUFIDX x = x mod 512.
Proof.
  unfold BUFIDX, BUFFER_FRAMES, to_uint16, wrap_u. change (2 ^ 16) with 65536.
  Z.div_mod_to_equations; lia.
Qed.

Lemma BUFIDX_range x : 0 <= BUFIDX x < 512.
Proof. rewrite BUFIDX_mod. apply Z.mod_pos_bound. lia. Qed.

(** [ORDINATE] in terms of the wrapped difference. *)
Lemma ORDINATE_mod r x :
  ORDINATE r x =
  if 32767 <=? (x - r) mod 65536 then (x - r) mod 65536 - 65536
  else (x - r) mod 65536.
Proof.
  unfold ORDINATE. rewrite !land_ffff.
  replace ((x mod 65536 + 65536 - r mod 65536) mod 65536)
    with ((x - r) mod 65536); [reflexivity|].
  Z.div_mod_to_equations; lia.
Qed.

Lemma ORDINATE_range r x : -32769 <= ORDINATE r x < 32767.
Proof.
  rewrite ORDINATE_mod.
  pose proof (Z.mod_pos_bound (x - r) 65536).
  destruct (Z.leb_spec 32767 ((x - r) mod 65536)); lia.
Qed.

Lemma ORDINATE_congr r x : (ORDINATE r x - (x - r)) mod 65536 = 0.
Proof.
  rewrite ORDINATE_mod.
  destruct (Z.leb_spec 32767 ((x - r) mod 65536));
    Z.div_mod_to_equations; lia.
Qed.

Lemma ORDINATE_anchor r : ORDINATE r r = 0.
Proof. rewrite ORDINATE_mod, Z.sub_diag. reflexivity. Qed.

(** [seq32_order] is the spec's [seq_after32]. *)
Lemma seq32_order_spec a b :
  is_uint32 a -> is_uint32 b ->
  seq32_order a b = negb (a =? b) && ((b - a) mod 4294967296 <? 2147483648).
Proof.
  unfold is_uint32; intros Ha Hb. unfold seq32_order.
  destruct (Z.eqb_spec a b); [reflexivity|]. simpl.
  rewrite !land_ffffffff, !Z.mod_small by lia.
  change 2147483648 with (2 ^ 31) at 1.
  rewrite land_pow2_testbit by lia.
  rewrite Z.testbit_eqb by lia. change (2 ^ 31) with 2147483648.
  destruct (Z.eqb_spec (((b - a) / 2147483648) mod 2) 1) as [E|E];
    destruct (Z.ltb_spec ((b - a) mod 4294967296) 2147483648) as [L|L];
    try reflexivity; exfalso;
    revert E L; Z.div_mod_to_equations; lia.
Qed.

(** Two timestamps are never each strictly after the other. *)
Lemma seq32_order_asym a b :
  is_uint32 a -> is_uint32 b ->
  seq32_order a b = true -> seq32_order b a = false.
Proof.
  intros Ha Hb. rewrite !seq32_order_spec by assumption.
  unfold is_uint32 in *.
  destruct (Z.eqb_spec a b), (Z.eqb_spec b a); simpl; try congruence; try lia.
  destruct (Z.ltb_spec ((b - a) mod 4294967296) 2147483648);
    destruct (Z.ltb_spec ((a - b) mod 4294967296) 2147483648);
    try congruence; exfalso; Z.div_mod_to_equations; lia.
Qed.

End SeqFacts.

(** C5 (as amended). Whenever the wrapped difference
    [(x - ab_read) mod 2^16] is not 32767, [ORDINATE] returns the signed
    16-bit distance of [x] from the anchor [ab_read], and the value lies
    in [[-32768, 32767)]. *)
Theorem C5_ordinate_signed_distance (ab_read x : Z) :
  (x - ab_read) mod 65536 <> 32767 ->
  ORDINATE ab_read x = signed16_distance ab_read x /\
  -32768 <= ORDINATE ab_read x < 32767.
Proof.
  intros Hne. rewrite ORDINATE_mod.
  unfold signed16_distance, wrap_s.
  change (2 ^ (16 - 1)) with 32768; change (2 ^ 16) with 65536.
  destruct (Z.leb_spec 32767 ((x - ab_read) mod 65536));
    split; try (Z.div_mod_to_equations; lia).
Qed.

Lemma C5_ordinate_signed_distance_witness :
  ORDINATE 65530 4 = signed16_distance 65530 4 /\
  -32768 <= ORDINATE 65530 4 < 32767.
Proof. apply (C5_ordinate_signed_distance 65530 4). vm_compute. discriminate. Defined.

(** C5, as stated, fails: at distance 32767 from the anchor [ORDINATE]
    returns -32769, below the claimed interval. *)
Lemma C5_ordinate_range_counterexample :
  ~ (forall ab_read x : Z, is_uint16 ab_read -> is_uint16 x ->
       -32768 <= ORDINATE ab_read x < 32767).
Proof.
  intros H. specialize (H 0 32767). unfold is_uint16 in H.
  vm_compute in H. destruct H as [H _]; [split; congruence..|].
  apply H. reflexivity.
Qed.

(** C6 (as amended). For every [a] and every anchor [ab_read] such that
    [a] is not at wrapped distance 32766 from the anchor,
    [seq_diff a (SUCCESSOR a)] is 1. *)
Theorem C6_seq_diff_successor (ab_read a : Z) :
  (a - ab_read) mod 65536 <> 32766 ->
  seq_diff ab_read a (SUCCESSOR a) = 1.
Proof.
  intros Hne. unfold seq_diff. rewrite SUCCESSOR_mod, !ORDINATE_mod.
  replace (((a + 1) mod 65536 - ab_read) mod 65536)
    with ((a - ab_read + 1) mod 65536) by (Z.div_mod_to_equations; lia).
  destruct (Z.leb_spec 32767 ((a - ab_read + 1) mod 65536));
    destruct (Z.leb_spec 32767 ((a - ab_read) mod 65536));
    Z.div_mod_to_equations; lia.
Qed.

Lemma C6_seq_diff_successor_witness : seq_diff 65535 65535 (SUCCESSOR 65535) = 1.
Proof. apply (C6_seq_diff_successor 65535 65535). vm_compute. discriminate. Defined.

(** C6, as stated, fails at the seam of the ordinate window: with the
    anchor at 0, the successor of 32766 has ordinate -32769. *)
Lemma C6_seq_diff_successor_counterexample :
  ~ (forall ab_read a : Z, is_uint16 ab_read -> is_uint16 a ->
       seq_diff ab_read a (SUCCESSOR a) = 1).
Proof.
  intros H. specialize (H 0 32766). unfold is_uint16 in H.
  vm_compute in H. discriminate H; split; congruence.
Qed.

(** What the code returns at the seam. *)
Lemma seq_diff_successor_seam (ab_read a : Z) :
  (a - ab_read) mod 65536 = 32766 ->
  seq_diff ab_read a (SUCCESSOR a) = -65535.
Proof.
  intros He. unfold seq_diff. rewrite SUCCESSOR_mod, !ORDINATE_mod.
  replace (((a + 1) mod 65536 - ab_read) mod 65536)
    with ((a - ab_read + 1) mod 65536) by (Z.div_mod_to_equations; lia).
  destruct (Z.leb_spec 32767 ((a - ab_read + 1) mod 65536));
    destruct (Z.leb_spec 32767 ((a - ab_read) mod 65536));
    Z.div_mod_to_equations; lia.
Qed.

(** ** [shortmean] *)

(** C10. For all 16-bit signed [a] and [b] the truncated mean fits a
    short: the [r != longmean] branch is never taken and [shortmean]
    returns the mean truncated toward zero. *)
Theorem C10_shortmean_total (a b : Z) :
  is_short a -> is_short b ->
  snd (shortmean_dbg a b) = false /\
  shortmean a b = (a + b) ÷ 2 /\
  is_short (shortmean a b).
Proof.
  unfold is_short; intros Ha Hb.
  assert (Hm : is_short ((a + b) ÷ 2)).
  { unfold is_short. pose proof (Z.quot_rem' (a + b) 2) as Hq.
    pose proof (Z.rem_bound_abs (a + b) 2 ltac:(lia)) as Hr.
    lia. }
  unfold shortmean, shortmean_dbg; cbn [fst snd].
  rewrite (to_short_id _ Hm), Z.eqb_refl. auto.
Qed.

Lemma C10_shortmean_total_witness :
  snd (shortmean_dbg (-32768) 32767) = false /\
  shortmean (-32768) 32767 = (-32768 + 32767) ÷ 2 /\
  is_short (shortmean (-32768) 32767).
Proof. apply (C10_shortmean_total (-32768) 32767); unfold is_short; lia. Defined.

(** ** The basic stuffer *)

Section StuffFacts.

Variable frame_size : Z.
Variable fix_volume : Z.
Variable rand_a_uninit : nat -> Z.
Variable inbuf : list Z.

Lemma dithered_vol_lcg g l v :
  snd (dithered_vol fix_volume g l v) = lcg_step fix_volume l.
Proof.
  unfold lcg_step, dithered_vol.
  destruct (fix_volume <? 65536); [|reflexivity].
  destruct (lcg_rand l); reflexivity.
Qed.

Lemma emit_spec v c :
  emit fix_volume rand_a_uninit v c =
  {| inptr := inptr c;
     written := written c ++
                [fst (dithered_vol fix_volume (rand_a_uninit (sc_calls c)) (sc_lcg_prev c) v)];
     sc_lcg_prev := lcg_step fix_volume (sc_lcg_prev c);
     sc_calls := S (sc_calls c) |}.
Proof.
  unfold emit. rewrite <- (dithered_vol_lcg (rand_a_uninit (sc_calls c)) _ v).
  destruct (dithered_vol _ _ _ v); reflexivity.
Qed.

Lemma copy_frame_spec c :
  copy_frame fix_volume rand_a_uninit inbuf c =
  {| inptr := inptr c + 1 + 1;
     written :=
       (written c ++
        [fst (dithered_vol fix_volume (rand_a_uninit (sc_calls c)) (sc_lcg_prev c)
                (rd inbuf (inptr c)))]) ++
        [fst (dithered_vol fix_volume (rand_a_uninit (S (sc_calls c)))
                (lcg_step fix_volume (sc_lcg_prev c)) (rd inbuf (inptr c + 1)))];
     sc_lcg_prev := lcg_step fix_volume (lcg_step fix_volume (sc_lcg_prev c));
     sc_calls := S (S (sc_calls c)) |}.
Proof.
  unfold copy_frame, copy_short, advance. rewrite !emit_spec. reflexivity.
Qed.

(** The copying loop moves [inptr] by two shorts a turn, calls
    [dithered_vol] twice a turn and only appends to the output. *)
Lemma copy_frames_shape n : forall c,
  inptr (copy_frames fix_volume rand_a_uninit inbuf n c) = inptr c + 2 * Z.of_nat n /\
  sc_calls (copy_frames fix_volume rand_a_uninit inbuf n c) = (sc_calls c + 2 * n)%nat /\
  sc_lcg_prev (copy_frames fix_volume rand_a_uninit inbuf n c) = lcg_after fix_volume (2 * n) (sc_lcg_prev c) /\
  exists rest, written (copy_frames fix_volume rand_a_uninit inbuf n c) = written c ++ rest /\
               length rest = (2 * n)%nat.
Proof.
  induction n as [|n IH]; intros c.
  - simpl. repeat split; try lia. exists []. now rewrite app_nil_r.
  - cbn [copy_frames]. rewrite copy_frame_spec.
    match goal with |- context [copy_frames _ _ _ n ?c'] =>
      destruct (IH c') as (Hi & Hc & Hl & rest & Hw & Hlen) end.
    cbn [inptr sc_calls sc_lcg_prev written] in *.
    repeat split.
    + rewrite Hi. lia.
    + rewrite Hc. lia.
    + rewrite Hl. unfold lcg_after.
      replace (2 * S n)%nat with (2 * n + 2)%nat by lia.
      rewrite Nat.iter_add. reflexivity.
    + eexists. split.
      * rewrite Hw, <- !app_assoc. reflexivity.
      * rewrite !length_app, Hlen. simpl. lia.
Qed.

Lemma rd_app_l (l1 l2 : list Z) i :
  0 <= i < Z.of_nat (length l1) -> rd (l1 ++ l2) i = rd l1 i.
Proof. intros H. unfold rd. rewrite lookup_app_l by lia. reflexivity. Qed.

Lemma rd_app_r (l1 l2 : list Z) i :
  Z.of_nat (length l1) <= i -> rd (l1 ++ l2) i = rd l2 (i - Z.of_nat (length l1)).
Proof.
  intros H. unfold rd. rewrite lookup_app_r by lia.
  f_equal. f_equal. lia.
Qed.

Lemma rd_short : Forall is_short inbuf -> forall i, is_short (rd inbuf i).
Proof.
  intros Hall i. unfold rd.
  destruct (inbuf !! Z.to_nat i) as [x|] eqn:E; simpl.
  - eapply Forall_lookup_1; eauto.
  - unfold is_short; lia.
Qed.

Lemma reads_take (n : nat) : forall i : nat,
  (i + n <= length inbuf)%nat ->
  reads inbuf (Z.of_nat i) n = take n (drop i inbuf).
Proof.
  induction n as [|n IH]; intros i Hlen; [reflexivity|].
  destruct (lookup_lt_is_Some_2 inbuf i ltac:(lia)) as [x Hx].
  rewrite (drop_S _ _ _ Hx). cbn [reads take]. f_equal.
  - unfold rd. rewrite Nat2Z.id, Hx. reflexivity.
  - replace (Z.of_nat i + 1) with (Z.of_nat (S i)) by lia. apply IH. lia.
Qed.

Lemma reads_length p n : length (reads inbuf p n) = n.
Proof. revert p; induction n; intros; simpl; auto. Qed.

End StuffFacts.

(** At full volume [dithered_vol] is the identity on shorts and leaves
    [lcg_prev] alone. *)
Lemma dithered_vol_full_volume g l v :
  is_short v -> dithered_vol 65536 g l v = (v, l).
Proof.
  intros Hv. unfold dithered_vol. simpl (65536 <? 65536).
  unfold to_long. assert (Hr : is_int64 (v * 65536)) by (unfold is_short, is_int64 in *; lia).
  pose proof (to_int64_id _ Hr) as E. unfold to_int64 in E. rewrite E.
  rewrite Z.shiftr_div_pow2 by lia. change (2 ^ 16) with 65536.
  rewrite Z.div_mul by lia. now rewrite to_short_id.
Qed.

Lemma lcg_after_full_volume n l : lcg_after 65536 n l = l.
Proof. induction n; simpl; auto. Qed.

(** At full volume the copying loop copies. *)
Lemma copy_frames_full_volume junk inbuf :
  Forall is_short inbuf ->
  forall n c,
    written (copy_frames 65536 junk inbuf n c) =
    written c ++ reads inbuf (inptr c) (2 * n).
Proof.
  intros Hall. induction n as [|n IH]; intros c.
  - simpl. now rewrite app_nil_r.
  - cbn [copy_frames]. rewrite IH, copy_frame_spec. cbn [written inptr].
    rewrite !dithered_vol_full_volume by (apply rd_short; assumption).
    replace (2 * S n)%nat with (S (S (2 * n))) by lia.
    cbn [fst reads]. rewrite <- !app_assoc. reflexivity.
Qed.

(** C9. With no stuffing ([stuff = 0]) and full volume
    ([fix_volume = 2^16]) [stuff_buffer_basic] writes the [frame_size]
    stereo samples of its input unchanged, returns [frame_size], and does
    not draw from the dither generator. *)
Theorem C9_stuff_identity (frame_size : Z) (junk : nat -> Z) (inbuf : list Z)
  (rnd lcg : Z) :
  0 <= frame_size ->
  (FRAME_SHORTS frame_size <= length inbuf)%nat ->
  Forall is_short inbuf ->
  let r := stuff_buffer_basic frame_size 65536 junk inbuf 0 rnd lcg in
  written (fst r) = take (FRAME_SHORTS frame_size) inbuf /\
  snd r = frame_size /\
  sc_lcg_prev (fst r) = lcg.
Proof.
  intros HF Hlen Hall r. subst r. unfold stuff_buffer_basic.
  change (1 <? 0) with false. change (0 <? -1) with false.
  change (0 =? 0) with true. cbn [orb fst snd].
  split; [|split].
  - rewrite copy_frames_full_volume by assumption. cbn [written inptr app].
    change 0 with (Z.of_nat 0). rewrite reads_take.
    + rewrite drop_0. f_equal. unfold FRAME_SHORTS. lia.
    + unfold FRAME_SHORTS in Hlen. lia.
  - lia.
  - destruct (copy_frames_shape 65536 junk inbuf (Z.to_nat frame_size)
                {| inptr := 0; written := []; sc_lcg_prev := lcg; sc_calls := 0 |})
      as (_ & _ & Hl & _).
    rewrite Hl. apply lcg_after_full_volume.
Qed.

Lemma C9_stuff_identity_witness :
  let inbuf := [1; -2; 3; -4; 32767; -32768; 7; 8; 0; 0; 0; 0; 0; 0] in
  let r := stuff_buffer_basic 4 65536 (fun _ => 0) inbuf 0 17 12345 in
  written (fst r) = take (FRAME_SHORTS 4) inbuf /\
  snd r = 4 /\
  sc_lcg_prev (fst r) = 12345.
Proof.
  apply (C9_stuff_identity 4 (fun _ => 0)
           [1; -2; 3; -4; 32767; -32768; 7; 8; 0; 0; 0; 0; 0; 0] 17 12345).
  - lia.
  - vm_compute. lia.
  - repeat constructor; unfold is_short; lia.
Defined.

Lemma stuffsamp_of_range frame_size rnd :
  3 <= frame_size -> 0 <= rnd ->
  1 <= stuffsamp_of frame_size rnd <= frame_size - 2.
Proof.
  intros HF Hr. unfold stuffsamp_of.
  pose proof (Z.rem_bound_pos rnd (frame_size - 2) Hr ltac:(lia)). lia.
Qed.

(** The layout of what a [+1] pass writes: [2 * k] shorts, the two
    channels of the inserted sample, then the rest. *)
Lemma stuff_insert_layout (frame_size fix_volume : Z) (junk : nat -> Z)
  (inbuf : list Z) (rnd lcg : Z) :
  3 <= frame_size -> 0 <= rnd ->
  let k := stuffsamp_of frame_size rnd in
  exists head tail,
    written (fst (stuff_buffer_basic frame_size fix_volume junk inbuf 1 rnd lcg)) =
      head ++
      [fst (dithered_vol fix_volume (junk (Z.to_nat (2 * k)))
              (lcg_after fix_volume (Z.to_nat (2 * k)) lcg)
              (shortmean (rd inbuf (2 * (k - 1))) (rd inbuf (2 * k))));
       fst (dithered_vol fix_volume (junk (Z.to_nat (2 * k + 1)))
              (lcg_after fix_volume (Z.to_nat (2 * k + 1)) lcg)
              (shortmean (rd inbuf (2 * (k - 1) + 1)) (rd inbuf (2 * k + 1))))] ++
      tail /\
    Z.of_nat (length head) = 2 * k.
Proof.
  intros HF Hr k. pose proof (stuffsamp_of_range frame_size rnd HF Hr) as Hk.
  fold k in Hk. unfold stuff_buffer_basic.
  change (1 <? 1) with false. change (1 <? -1) with false.
  change (1 =? 0) with false. change (1 =? 1) with true.
  cbn [orb fst]. fold (stuffsamp_of frame_size rnd). fold k.
  set (c0 := {| inptr := 0; written := []; sc_lcg_prev := lcg; sc_calls := 0 |}).
  destruct (copy_frames_shape fix_volume junk inbuf (Z.to_nat k) c0)
    as (Hi & Hc & Hl & rest & Hw & Hlen).
  set (c1 := copy_frames fix_volume junk inbuf (Z.to_nat k) c0) in *.
  cbn [inptr sc_calls sc_lcg_prev written c0 app] in Hi, Hc, Hl, Hw.
  rewrite !emit_spec. cbn [inptr sc_calls sc_lcg_prev written].
  match goal with |- context [copy_frames _ _ _ ?m ?c'] =>
    destruct (copy_frames_shape fix_volume junk inbuf m c')
      as (_ & _ & _ & rest' & Hw' & _) end.
  exists rest, rest'. split; [|lia].
  rewrite Hw'. cbn [written]. rewrite Hi, Hc, Hl, Hw.
  replace (0 + 2 * Z.of_nat (Z.to_nat k)) with (2 * k) by lia.
  replace (0 + 2 * Z.to_nat k)%nat with (Z.to_nat (2 * k)) by lia.
  replace (2 * Z.to_nat k)%nat with (Z.to_nat (2 * k)) by lia.
  replace (S (Z.to_nat (2 * k))) with (Z.to_nat (2 * k + 1)) by lia.
  replace (lcg_step fix_volume (lcg_after fix_volume (Z.to_nat (2 * k)) lcg))
    with (lcg_after fix_volume (Z.to_nat (2 * k + 1)) lcg).
  2:{ replace (Z.to_nat (2 * k + 1)) with (S (Z.to_nat (2 * k))) by lia. reflexivity. }
  rewrite <- !app_assoc. cbn [app].
  repeat (f_equal; try lia).
Qed.

Lemma rd_middle (head tail : list Z) (a b : Z) (i : Z) :
  Z.of_nat (length head) = i ->
  rd (head ++ [a; b] ++ tail) i = a /\ rd (head ++ [a; b] ++ tail) (i + 1) = b.
Proof.
  intros Hlen. split.
  - rewrite rd_app_r by lia. replace (i - Z.of_nat (length head)) with 0 by lia.
    reflexivity.
  - rewrite rd_app_r by lia. replace (i + 1 - Z.of_nat (length head)) with 1 by lia.
    reflexivity.
Qed.

(** C7 (as amended). With [stuff = +1] and the position [k] in
    [[1, frame_size - 2]] drawn from [rand()], the stereo sample written
    at output position [k] is, on each channel, [dithered_vol] of the
    truncated mean of the input samples [in[k-1]] and [in[k]], the two
    samples it is inserted between. *)
Theorem C7_stuff_insert_mean (frame_size fix_volume : Z) (junk : nat -> Z)
  (inbuf : list Z) (rnd lcg : Z) :
  3 <= frame_size -> 0 <= rnd ->
  let k := stuffsamp_of frame_size rnd in
  let out := written (fst (stuff_buffer_basic frame_size fix_volume junk inbuf 1 rnd lcg)) in
  1 <= k <= frame_size - 2 /\
  rd out (2 * k) =
    fst (dithered_vol fix_volume (junk (Z.to_nat (2 * k)))
           (lcg_after fix_volume (Z.to_nat (2 * k)) lcg)
           (shortmean (rd inbuf (2 * (k - 1))) (rd inbuf (2 * k)))) /\
  rd out (2 * k + 1) =
    fst (dithered_vol fix_volume (junk (Z.to_nat (2 * k + 1)))
           (lcg_after fix_volume (Z.to_nat (2 * k + 1)) lcg)
           (shortmean (rd inbuf (2 * (k - 1) + 1)) (rd inbuf (2 * k + 1)))).
Proof.
  intros HF Hr k out. split.
  - apply stuffsamp_of_range; assumption.
  - destruct (stuff_insert_layout frame_size fix_volume junk inbuf rnd lcg HF Hr)
      as (head & tail & Hw & Hlen).
    subst out. fold k in Hw, Hlen. rewrite Hw.
    apply rd_middle. exact Hlen.
Qed.

Lemma C7_stuff_insert_mean_witness :
  let inbuf := [0; 1; 10; 11; 100; 101; 1000; 1001; 7; 7; 0; 0; 0; 0] in
  let out := written (fst (stuff_buffer_basic 4 65536 (fun _ => 0) inbuf 1 5 12345)) in
  1 <= stuffsamp_of 4 5 <= 4 - 2 /\
  rd out (2 * stuffsamp_of 4 5) =
    fst (dithered_vol 65536 0 (lcg_after 65536 (Z.to_nat (2 * stuffsamp_of 4 5)) 12345)
           (shortmean (rd inbuf (2 * (stuffsamp_of 4 5 - 1))) (rd inbuf (2 * stuffsamp_of 4 5)))) /\
  rd out (2 * stuffsamp_of 4 5 + 1) =
    fst (dithered_vol 65536 0 (lcg_after 65536 (Z.to_nat (2 * stuffsamp_of 4 5 + 1)) 12345)
           (shortmean (rd inbuf (2 * (stuffsamp_of 4 5 - 1) + 1))
              (rd inbuf (2 * stuffsamp_of 4 5 + 1)))).
Proof.
  apply (C7_stuff_insert_mean 4 65536 (fun _ => 0)
           [0; 1; 10; 11; 100; 101; 1000; 1001; 7; 7; 0; 0; 0; 0] 5 12345); lia.
Defined.

(** C7, as stated, fails: the inserted sample is not the mean of
    [in[k-1]] and [in[k+1]]. With full volume (so that the volume stage is
    the identity), [frame_size = 4] and [k = 1], the left channels of
    [in[0]], [in[1]], [in[2]] are 0, 10, 100; the sample written is 5,
    the mean the claim gives is 50. *)
Lemma C7_stuff_insert_mean_counterexample :
  ~ (forall (frame_size : Z) (inbuf : list Z) (rnd lcg : Z),
       3 <= frame_size -> 0 <= rnd ->
       length inbuf = OUTFRAME_SHORTS frame_size -> Forall is_short inbuf ->
       let k := stuffsamp_of frame_size rnd in
       let out :=
         written (fst (stuff_buffer_basic frame_size 65536 (fun _ => 0) inbuf 1 rnd lcg)) in
       rd out (2 * k) = shortmean (rd inbuf (2 * (k - 1))) (rd inbuf (2 * (k + 1))) /\
       rd out (2 * k + 1) =
         shortmean (rd inbuf (2 * (k - 1) + 1)) (rd inbuf (2 * (k + 1) + 1))).
Proof.
  intros H.
  specialize (H 4 [0; 0; 10; 10; 100; 100; 1000; 1000; 0; 0; 0; 0; 0; 0] 0 12345).
  destruct H as [H _]; try lia; try reflexivity.
  - repeat constructor; unfold is_short; lia.
  - vm_compute in H. discriminate H.
Qed.

(** At full volume the inserted sample is the mean itself. *)
Lemma stuff_insert_mean_full_volume (frame_size : Z) (junk : nat -> Z)
  (inbuf : list Z) (rnd lcg : Z) :
  3 <= frame_size -> 0 <= rnd ->
  let k := stuffsamp_of frame_size rnd in
  let out := written (fst (stuff_buffer_basic frame_size 65536 junk inbuf 1 rnd lcg)) in
  rd out (2 * k) = shortmean (rd inbuf (2 * (k - 1))) (rd inbuf (2 * k)) /\
  rd out (2 * k + 1) = shortmean (rd inbuf (2 * (k - 1) + 1)) (rd inbuf (2 * k + 1)).
Proof.
  intros HF Hr k out.
  destruct (stuff_insert_layout frame_size 65536 junk inbuf rnd lcg HF Hr)
    as (head & tail & Hw & Hlen).
  subst out. fold k in Hw, Hlen. rewrite Hw.
  rewrite !dithered_vol_full_volume
    by (unfold shortmean, shortmean_dbg; cbn [fst]; apply to_short_range).
  apply rd_middle. exact Hlen.
Qed.

(** ** The rate limit on corrections *)

Section RateLimit.

Variables amount_to_stuff local_time_now first_packet_time_to_play : Z.
Hypothesis nonzero : amount_to_stuff <> 0.
Hypothesis now_range : is_uint64 local_time_now.
Hypothesis deadline_range : is_int64 first_packet_time_to_play.
Hypothesis deadline_set : first_packet_time_to_play <> 0.
Hypothesis deadline_reached : to_uint64 first_packet_time_to_play <= local_time_now.

Let tp := seconds_since first_packet_time_to_play local_time_now.

(** Under the hypotheses the code's [tp] is the number of whole
    seconds elapsed. *)
Lemma rate_limit_elapsed rnd :
  rate_limit amount_to_stuff local_time_now first_packet_time_to_play rnd =
  if tp <? 5 then 0
  else if tp <? 30 then if 352 <? Z.rem rnd 1000 then 0 else amount_to_stuff
  else amount_to_stuff.
Proof.
  unfold rate_limit.
  destruct (Z.eqb_spec amount_to_stuff 0) as [|_]; [contradiction|].
  destruct (Z.eqb_spec first_packet_time_to_play 0) as [|_]; [contradiction|].
  unfold is_uint64, is_int64 in *.
  assert (Hpos : 0 < to_uint64 first_packet_time_to_play < 18446744073709551616).
  { unfold to_uint64, wrap_u. change (2 ^ 64) with 18446744073709551616.
    Z.div_mod_to_equations; lia. }
  destruct (Z.eqb_spec local_time_now 0) as [|_]; [lia|].
  destruct (Z.leb_spec (to_uint64 first_packet_time_to_play) local_time_now) as [_|];
    [|lia].
  cbn [negb andb].
  assert (Ediff : to_uint64 (local_time_now - first_packet_time_to_play) =
                  local_time_now - to_uint64 first_packet_time_to_play).
  { revert deadline_reached Hpos. unfold to_uint64, wrap_u.
    change (2 ^ 64) with 18446744073709551616.
    intros; Z.div_mod_to_equations; lia. }
  rewrite Ediff, Z.shiftr_div_pow2 by lia.
  fold (seconds_since first_packet_time_to_play local_time_now). fold tp.
  assert (Htp : 0 <= tp < 4294967296).
  { subst tp. unfold seconds_since. change (2 ^ 32) with 4294967296.
    Z.div_mod_to_equations; lia. }
  rewrite to_int64_id by (unfold is_int64; lia).
  reflexivity.
Qed.

Lemma dropping_draws_count :
  5 <= tp < 30 ->
  length (dropping_draws amount_to_stuff local_time_now first_packet_time_to_play) = 647%nat.
Proof.
  intros Htp. unfold dropping_draws.
  rewrite (List.filter_ext _ (fun r => 352 <? Z.rem r 1000)).
  - vm_compute. reflexivity.
  - intros r. rewrite rate_limit_elapsed.
    destruct (Z.ltb_spec tp 5); [lia|]. destruct (Z.ltb_spec tp 30); [|lia].
    destruct (352 <? Z.rem r 1000); [reflexivity|].
    now apply Z.eqb_neq.
Qed.

End RateLimit.

(** C8 (as amended). For a non-zero correction that reaches the rate
    limit once [first_packet_time_to_play] is set and reached: in the
    first 5 seconds it is forced to 0; from 5 up to 30 seconds it is
    dropped exactly when the draw [random() % 1000] is greater than 352,
    that is for 647 of the 1000 possible draws (a fraction
    [1 - 353/1000]), and kept unchanged otherwise. *)
Theorem C8_rate_limit (amount_to_stuff local_time_now first_packet_time_to_play rnd : Z) :
  amount_to_stuff <> 0 ->
  is_uint64 local_time_now ->
  is_int64 first_packet_time_to_play ->
  first_packet_time_to_play <> 0 ->
  to_uint64 first_packet_time_to_play <= local_time_now ->
  let tp := seconds_since first_packet_time_to_play local_time_now in
  let out := rate_limit amount_to_stuff local_time_now first_packet_time_to_play rnd in
  (tp < 5 -> out = 0) /\
  (5 <= tp < 30 ->
     (out = 0 <-> 352 < Z.rem rnd 1000) /\
     (Z.rem rnd 1000 <= 352 -> out = amount_to_stuff) /\
     length (dropping_draws amount_to_stuff local_time_now first_packet_time_to_play)
       = 647%nat).
Proof.
  intros Hnz Hnow Hfp Hset Hreached tp out. subst out.
  rewrite rate_limit_elapsed by assumption. fold tp.
  split.
  - intros Hlt. destruct (Z.ltb_spec tp 5); [reflexivity|lia].
  - intros Hwin. destruct (Z.ltb_spec tp 5); [lia|]. destruct (Z.ltb_spec tp 30); [|lia].
    split; [|split].
    + destruct (Z.ltb_spec 352 (Z.rem rnd 1000)); split; intros; try lia; reflexivity.
    + intros Hle. destruct (Z.ltb_spec 352 (Z.rem rnd 1000)); [lia|reflexivity].
    + now apply dropping_draws_count.
Qed.

Lemma C8_rate_limit_witness :
  let tp := seconds_since (2 ^ 40) (2 ^ 40 + 11 * 2 ^ 32) in
  let out := rate_limit (-1) (2 ^ 40 + 11 * 2 ^ 32) (2 ^ 40) 352 in
  (tp < 5 -> out = 0) /\
  (5 <= tp < 30 ->
     (out = 0 <-> 352 < Z.rem 352 1000) /\
     (Z.rem 352 1000 <= 352 -> out = -1) /\
     length (dropping_draws (-1) (2 ^ 40 + 11 * 2 ^ 32) (2 ^ 40)) = 647%nat).
Proof.
  apply (C8_rate_limit (-1) (2 ^ 40 + 11 * 2 ^ 32) (2 ^ 40) 352);
    unfold is_uint64, is_int64; vm_compute; try split; congruence.
Defined.

(** C8, as stated, fails: eleven seconds after the start of play the
    draws that drop a correction are 647 of 1000, not the fraction
    [1 - 352/1000] (648 of 1000); the draw 352 keeps the correction. *)
Lemma C8_drop_fraction_counterexample :
  let now := 2 ^ 40 + 11 * 2 ^ 32 in
  let deadline := 2 ^ 40 in
  seconds_since deadline now = 11 /\
  Z.of_nat (length (dropping_draws 1 now deadline)) * 1000 <> 1000 * 1000 - 352 * 1000 /\
  rate_limit 1 now deadline 352 = 1.
Proof. vm_compute. repeat split; congruence. Qed.

(** Before [first_packet_time_to_play] is reached, or while it is not
    set, the rate limit lets every correction through. *)
Lemma rate_limit_before_start amount_to_stuff local_time_now first_packet_time_to_play rnd :
  first_packet_time_to_play = 0 \/ local_time_now < to_uint64 first_packet_time_to_play ->
  rate_limit amount_to_stuff local_time_now first_packet_time_to_play rnd = amount_to_stuff.
Proof.
  intros H. unfold rate_limit.
  destruct (amount_to_stuff =? 0); [reflexivity|]. cbn [negb].
  destruct H as [-> | H].
  - rewrite andb_false_r. reflexivity.
  - destruct (Z.leb_spec (to_uint64 first_packet_time_to_play) local_time_now); [lia|].
    rewrite andb_false_r. reflexivity.
Qed.

(** ** Filler frames in the sync loop *)

Lemma end_of_interval_statistics l :
  sync_statistics (end_of_interval l) = sync_statistics l /\
  sync_error_out_of_bounds (end_of_interval l) = sync_error_out_of_bounds l /\
  outbuf (end_of_interval l) = outbuf l.
Proof. unfold end_of_interval. destruct (_ =? 0); auto. Qed.

(** C3. A frame whose [timestamp] is 0 is played as it is: the loop hands
    [frame_size] samples of it to the device and nothing else, works out
    no sync error and no correction, leaves the running statistics and
    the session's correction count alone, leaves the out-of-sync counter
    where it was, requests no flush and runs no stuffing pass. *)
Theorem C3_filler_frame_no_sync (e : play_env) (cur : Z) (l : loop_t) (s : player) :
  timestamp (slot s cur) = 0 ->
  let '(s', l', evs, decision) := play_frame e cur l s in
  evs = [output_play (take (FRAME_SHORTS (frame_size s)) (data (slot s cur))) (frame_size s)] /\
  decision = None /\
  sync_statistics l' = sync_statistics l /\
  session_corrections s' = session_corrections s /\
  sync_error_out_of_bounds l' = sync_error_out_of_bounds l /\
  flush_requested s' = flush_requested s /\
  flush_rtp_timestamp s' = flush_rtp_timestamp s /\
  lcg_prev s' = lcg_prev s /\
  outbuf l' = outbuf l /\
  audio_buffer s' = audio_buffer s.
Proof.
  intros Hts. unfold play_frame. rewrite Hts. change (0 =? 0) with true. cbv iota.
  destruct (end_of_interval_statistics (l <| play_number ::= fun n => to_int32 (n + 1) |>))
    as (E1 & E2 & E3).
  rewrite E1, E2, E3. repeat split.
Qed.

Lemma C3_filler_frame_no_sync_witness :
  let '(s', l', evs, decision) := play_frame sample_play_env 0 (loop_start 4) sample_player in
  evs = [output_play (take (FRAME_SHORTS (frame_size sample_player))
                        (data (slot sample_player 0))) (frame_size sample_player)] /\
  decision = None /\
  sync_statistics l' = sync_statistics (loop_start 4) /\
  session_corrections s' = session_corrections sample_player /\
  sync_error_out_of_bounds l' = sync_error_out_of_bounds (loop_start 4) /\
  flush_requested s' = flush_requested sample_player /\
  flush_rtp_timestamp s' = flush_rtp_timestamp sample_player /\
  lcg_prev s' = lcg_prev sample_player /\
  outbuf l' = outbuf (loop_start 4) /\
  audio_buffer s' = audio_buffer sample_player.
Proof.
  apply (C3_filler_frame_no_sync sample_play_env 0 (loop_start 4) sample_player).
  reflexivity.
Defined.

(** ** The ring *)

(** Projections of updated records. *)
Ltac proj_simpl :=
  cbn [
    set set_audio_buffer set_ab_read set_ab_write set_ab_buffering set_ab_synced
    set_first_packet_timestamp set_flush_requested set_flush_rtp_timestamp
    set_time_of_last_audio_packet set_shutdown_requested set_first_packet_time_to_play
    set_time_since_play_started set_connection_state_to_output set_packet_count
    set_last_seqno_read set_missing_packets set_late_packets set_too_late_packets
    set_resend_requests set_lcg_prev set_play_segment_reference_frame
    set_play_segment_reference_frame_remote_time set_session_corrections set_buffer_occupancy
    audio_buffer ab_read ab_write ab_buffering ab_synced first_packet_timestamp
    flush_requested flush_rtp_timestamp time_of_last_audio_packet shutdown_requested
    first_packet_time_to_play time_since_play_started connection_state_to_output please_stop
    packet_count last_seqno_read missing_packets late_packets too_late_packets resend_requests
    fix_volume lcg_prev play_segment_reference_frame play_segment_reference_frame_remote_time
    session_corrections buffer_occupancy frame_size decoder_info config ready timestamp
    sequence_number data set_ready set_timestamp set_sequence_number set_data
  ] in *.

Section RingFacts.

Lemma slot_update_slot_eq i f s :
  0 <= i < Z.of_nat (length (audio_buffer s)) ->
  slot (update_slot i f s) i = f (slot s i).
Proof.
  intros Hi. unfold slot, update_slot. cbn.
  rewrite list_lookup_alter_eq.
  destruct (lookup_lt_is_Some_2 (audio_buffer s) (Z.to_nat i) ltac:(lia)) as [a Ha].
  rewrite Ha. reflexivity.
Qed.

Lemma slot_update_slot_ne i f s j :
  0 <= i -> 0 <= j -> i <> j ->
  slot (update_slot i f s) j = slot s j.
Proof.
  intros Hi Hj Hne. unfold slot, update_slot. cbn.
  rewrite list_lookup_alter_ne by lia. reflexivity.
Qed.

Lemma length_update_slot i f s :
  length (audio_buffer (update_slot i f s)) = length (audio_buffer s).
Proof. unfold update_slot. cbn. apply length_alter. Qed.

(** The gap loop only touches the ring. *)
Lemma zero_gap_frame n : forall i w s,
  zero_gap n i w s = s <| audio_buffer := audio_buffer (zero_gap n i w s) |>.
Proof.
  induction n as [|n IH]; intros i w s.
  - destruct s; reflexivity.
  - cbn [zero_gap]. rewrite IH at 1. destruct s; reflexivity.
Qed.

Lemma zero_gap_length n : forall i w s,
  length (audio_buffer (zero_gap n i w s)) = length (audio_buffer s).
Proof.
  induction n as [|n IH]; intros i w s; [reflexivity|].
  cbn [zero_gap]. rewrite IH. apply length_update_slot.
Qed.

Lemma clear_slot_idem a : clear_slot (clear_slot a) = clear_slot a.
Proof. reflexivity. Qed.

(** A slot after the gap loop: cleared if a turn hit it, as before if
    not. *)
Lemma zero_gap_slot n : forall i w s j,
  length (audio_buffer s) = Z.to_nat BUFFER_FRAMES -> 0 <= j ->
  slot (zero_gap n i w s) j =
  if gap_hits n i w j then clear_slot (slot s j) else slot s j.
Proof.
  induction n as [|n IH]; intros i w s j Hlen Hj; [reflexivity|].
  cbn [zero_gap gap_hits].
  pose proof (BUFIDX_range (seq_sum w (to_uint16 i))) as Hr.
  rewrite IH by (rewrite ?length_update_slot; assumption).
  destruct (Z.eqb_spec (BUFIDX (seq_sum w (to_uint16 i))) j) as [E|E]; cbn [orb].
  - subst j. rewrite slot_update_slot_eq
      by (rewrite Hlen; unfold BUFFER_FRAMES; lia).
    destruct (gap_hits n (i + 1) w _); reflexivity.
  - rewrite slot_update_slot_ne by lia. reflexivity.
Qed.

Lemma gap_hits_spec n : forall i w j,
  gap_hits n i w j = true <->
  exists i', i <= i' < i + Z.of_nat n /\ BUFIDX (seq_sum w (to_uint16 i')) = j.
Proof.
  induction n as [|n IH]; intros i w j.
  - cbn. split; [discriminate|]. intros (i' & H & _). lia.
  - cbn [gap_hits]. rewrite orb_true_iff, IH. split.
    + intros [E|(i' & Hi' & E)].
      * exists i. apply Z.eqb_eq in E. split; [lia|assumption].
      * exists i'. split; [lia|assumption].
    + intros (i' & Hi' & E). destruct (Z.eq_dec i' i) as [->|Hne].
      * left. now apply Z.eqb_eq.
      * right. exists i'. split; [lia|assumption].
Qed.

(** The slot the [i]-th turn of the gap loop clears. *)
Lemma gap_slot_index w i :
  is_uint16 w -> 0 <= i < 65536 ->
  BUFIDX (seq_sum w (to_uint16 i)) = BUFIDX (w + i).
Proof.
  intros Hw Hi. unfold is_uint16 in Hw.
  rewrite to_uint16_id by (unfold is_uint16; lia).
  rewrite seq_sum_mod by lia. rewrite !BUFIDX_mod.
  Z.div_mod_to_equations; lia.
Qed.

(** When [seqno] is after [w] in the ordinate order, the gap the code
    computes is the number of sequence numbers from [w] up to, not
    including, [seqno]. *)
Lemma gap_formula r w seqno :
  seq_order r w seqno = true ->
  seq_diff r w (PREDECESSOR seqno) + 1 = gap_between w seqno /\
  0 < gap_between w seqno < 65536.
Proof.
  unfold seq_order, seq_diff, gap_between. rewrite PREDECESSOR_mod, !ORDINATE_mod.
  intros H. apply Z.ltb_lt in H.
  replace (((seqno - 1) mod 65536 - r) mod 65536)
    with ((seqno - r - 1) mod 65536) by (Z.div_mod_to_equations; lia).
  revert H.
  destruct (Z.leb_spec 32767 ((seqno - r) mod 65536));
    destruct (Z.leb_spec 32767 ((w - r) mod 65536));
    destruct (Z.leb_spec 32767 ((seqno - r - 1) mod 65536));
    intros; Z.div_mod_to_equations; lia.
Qed.

End RingFacts.

(** ** The producer *)

Section Producer.

Variables (seqno : seq_t) (rtp_timestamp : Z) (payload : list Z) (now : Z).

Lemma store_packet_slot_eq i s :
  0 <= i < Z.of_nat (length (audio_buffer s)) ->
  slot (store_packet seqno rtp_timestamp payload i s) i =
  {| ready := true; timestamp := rtp_timestamp; sequence_number := seqno;
     data := alac_decode s (data (slot s i)) payload |}.
Proof. intros Hi. unfold store_packet. now rewrite slot_update_slot_eq. Qed.

Lemma store_packet_slot_ne i s j :
  0 <= i -> 0 <= j -> i <> j ->
  slot (store_packet seqno rtp_timestamp payload i s) j = slot s j.
Proof. intros. unfold store_packet. now rewrite slot_update_slot_ne. Qed.

(** The newer-than-expected branch of [place_packet]. *)
Lemma place_packet_ahead s :
  ab_synced s = true ->
  ab_write s <> seqno ->
  seq_order (ab_read s) (ab_write s) seqno = true ->
  place_packet seqno s =
  ((zero_gap (Z.to_nat (gap_between (ab_write s) seqno)) 0 (ab_write s) s)
     <| resend_requests ::= fun n => to_uint64 (n + 1) |>
     <| ab_write := SUCCESSOR seqno |>,
   Some (BUFIDX seqno),
   [rtp_request_resend (ab_write s) (gap_between (ab_write s) seqno)]).
Proof.
  intros Hs Hne Hord. unfold place_packet. rewrite Hs.
  destruct (Z.eqb_spec (ab_write s) seqno); [contradiction|].
  rewrite Hord. destruct (gap_formula _ _ _ Hord) as [-> _]. reflexivity.
Qed.

(** With the connection on and no flush filter, a packet goes straight
    to [place_packet]. *)
Lemma player_put_packet_unfiltered s :
  connection_state_to_output s <> 0 ->
  flush_rtp_timestamp s = 0 ->
  player_put_packet seqno rtp_timestamp payload now s =
  let s1 := s <| packet_count ::= fun n => to_uint64 (n + 1) |>
              <| time_of_last_audio_packet := now |> in
  let '(s2, abuf, evs) := place_packet seqno s1 in
  match abuf with
  | Some i => (store_packet seqno rtp_timestamp payload i s2, evs)
  | None => (s2, evs)
  end.
Proof.
  intros Hc Hf. unfold player_put_packet, flush_filtered. cbn.
  destruct (Z.eqb_spec (connection_state_to_output s) 0); [contradiction|].
  rewrite Hf. reflexivity.
Qed.

End Producer.

(** What a newer-than-expected packet does to the ring. *)
Lemma gap_packet_effect (seqno : seq_t) (rtp_timestamp : Z) (payload : list Z) (now : Z)
  (s : player) :
  length (audio_buffer s) = Z.to_nat BUFFER_FRAMES ->
  connection_state_to_output s <> 0 ->
  flush_rtp_timestamp s = 0 ->
  ab_synced s = true ->
  is_uint16 seqno -> is_uint16 (ab_write s) -> ab_write s <> seqno ->
  seq_order (ab_read s) (ab_write s) seqno = true ->
  let s' := fst (player_put_packet seqno rtp_timestamp payload now s) in
  let evs := snd (player_put_packet seqno rtp_timestamp payload now s) in
  let w := ab_write s in
  let gap := gap_between w seqno in
  evs = [rtp_request_resend w gap] /\
  0 < gap /\ PREDECESSOR seqno = (w + (gap - 1)) mod 65536 /\
  ab_write s' = SUCCESSOR seqno /\
  ab_read s' = ab_read s /\
  slot s' (BUFIDX seqno) =
    {| ready := true; timestamp := rtp_timestamp; sequence_number := seqno;
       data := alac_decode s (data (slot s (BUFIDX seqno))) payload |} /\
  (forall i, 0 <= i < gap -> BUFIDX (w + i) <> BUFIDX seqno ->
     slot s' (BUFIDX (w + i)) = clear_slot (slot s (BUFIDX (w + i)))) /\
  (forall j, 0 <= j < BUFFER_FRAMES -> j <> BUFIDX seqno ->
     (forall i, 0 <= i < gap -> BUFIDX (w + i) <> j) ->
     slot s' j = slot s j).
Proof.
  intros Hlen Hc Hf Hs Hseq Hw Hne Hord s' evs w gap.
  destruct (gap_formula _ _ _ Hord) as [_ Hgap]. fold w gap in Hgap.
  pose proof (BUFIDX_range seqno) as Hidx.
  subst s' evs. rewrite player_put_packet_unfiltered by assumption. cbv zeta.
  rewrite place_packet_ahead by (cbn; assumption). cbn [fst snd].
  set (s1 := s <| packet_count ::= fun n => to_uint64 (n + 1) |>
               <| time_of_last_audio_packet := now |>).
  change (ab_write s1) with w. fold gap.
  set (z := zero_gap (Z.to_nat gap) 0 w s1).
  assert (Hz : forall j, 0 <= j ->
             slot z j = if gap_hits (Z.to_nat gap) 0 w j
                        then clear_slot (slot s j) else slot s j).
  { intros j Hj. subst z. rewrite zero_gap_slot by (cbn; assumption). reflexivity. }
  assert (Hzlen : length (audio_buffer z) = Z.to_nat BUFFER_FRAMES).
  { subst z. rewrite zero_gap_length. exact Hlen. }
  assert (Hzf : ab_read z = ab_read s /\ decoder_info z = decoder_info s).
  { subst z. rewrite zero_gap_frame. split; reflexivity. }
  destruct Hzf as [Hzr Hzd].
  set (s2 := z <| resend_requests ::= fun n => to_uint64 (n + 1) |>
               <| ab_write := SUCCESSOR seqno |>).
  assert (Hs2 : forall j, slot s2 j = slot z j) by reflexivity.
  assert (Hs2len : length (audio_buffer s2) = Z.to_nat BUFFER_FRAMES) by exact Hzlen.
  split; [reflexivity|]. split; [lia|]. split.
  { rewrite PREDECESSOR_mod. subst gap. unfold gap_between.
    Z.div_mod_to_equations; lia. }
  split; [reflexivity|]. split; [exact Hzr|]. split.
  { rewrite store_packet_slot_eq by (rewrite Hs2len; unfold BUFFER_FRAMES; lia).
    unfold alac_decode. rewrite Hs2, Hz by lia.
    change (decoder_info s2) with (decoder_info z). rewrite Hzd.
    destruct (gap_hits _ _ _ _); reflexivity. }
  split.
  - intros i Hi Hneq. pose proof (BUFIDX_range (w + i)).
    rewrite store_packet_slot_ne by lia. rewrite Hs2, Hz by lia.
    assert (Hhit : gap_hits (Z.to_nat gap) 0 w (BUFIDX (w + i)) = true).
    { apply gap_hits_spec. exists i. split; [lia|].
      apply gap_slot_index; [assumption|lia]. }
    rewrite Hhit. reflexivity.
  - intros j Hj Hneq Hmiss. unfold BUFFER_FRAMES in Hj.
    rewrite store_packet_slot_ne by lia. rewrite Hs2, Hz by lia.
    destruct (gap_hits (Z.to_nat gap) 0 w j) eqn:Hhit; [|reflexivity].
    apply gap_hits_spec in Hhit. destruct Hhit as (i & Hi & E).
    rewrite gap_slot_index in E by (try assumption; lia).
    exfalso. apply (Hmiss i); [lia|exact E].
Qed.

(** C4. With the ring synced, the connection on and no flush filter, a
    packet whose sequence number is after [ab_write] in the ordinate
    order: issues the single resend request [(ab_write, gap)], where
    [gap] counts the sequence numbers from [ab_write] to
    [PREDECESSOR seqno]; leaves every slot of that range with [ready]
    false and [timestamp] and [sequence_number] 0, its PCM untouched; is
    decoded into slot [BUFIDX seqno]; leaves every other slot alone; and
    moves [ab_write] to [SUCCESSOR seqno]. In particular, with
    [ab_write = 102] (after 100 and 101) and [seqno = 103]: slot
    [BUFIDX 102] has [ready], [timestamp] and [sequence_number] zeroed,
    the request is [(102, 1)], and [ab_write] becomes 104. *)
Theorem C4_gap_packet (seqno : seq_t) (rtp_timestamp : Z) (payload : list Z) (now : Z)
  (s : player) :
  length (audio_buffer s) = Z.to_nat BUFFER_FRAMES ->
  connection_state_to_output s <> 0 ->
  flush_rtp_timestamp s = 0 ->
  ab_synced s = true ->
  let '(s', evs) := player_put_packet seqno rtp_timestamp payload now s in
  let w := ab_write s in
  let gap := gap_between w seqno in
  (is_uint16 seqno -> is_uint16 w -> w <> seqno ->
   seq_order (ab_read s) w seqno = true ->
     evs = [rtp_request_resend w gap] /\
     0 < gap /\ PREDECESSOR seqno = (w + (gap - 1)) mod 65536 /\
     ab_write s' = SUCCESSOR seqno /\
     ab_read s' = ab_read s /\
     slot s' (BUFIDX seqno) =
       {| ready := true; timestamp := rtp_timestamp; sequence_number := seqno;
          data := alac_decode s (data (slot s (BUFIDX seqno))) payload |} /\
     (forall i, 0 <= i < gap -> BUFIDX (w + i) <> BUFIDX seqno ->
        ready (slot s' (BUFIDX (w + i))) = false /\
        timestamp (slot s' (BUFIDX (w + i))) = 0 /\
        sequence_number (slot s' (BUFIDX (w + i))) = 0 /\
        data (slot s' (BUFIDX (w + i))) = data (slot s (BUFIDX (w + i)))) /\
     (forall j, 0 <= j < BUFFER_FRAMES -> j <> BUFIDX seqno ->
        (forall i, 0 <= i < gap -> BUFIDX (w + i) <> j) ->
        slot s' j = slot s j)) /\
  (100 <= ab_read s <= 102 -> w = 102 -> seqno = 103 ->
     evs = [rtp_request_resend 102 1] /\
     ready (slot s' (BUFIDX 102)) = false /\
     timestamp (slot s' (BUFIDX 102)) = 0 /\
     sequence_number (slot s' (BUFIDX 102)) = 0 /\
     slot s' (BUFIDX 103) =
       {| ready := true; timestamp := rtp_timestamp; sequence_number := 103;
          data := alac_decode s (data (slot s (BUFIDX 103))) payload |} /\
     ab_write s' = 104).
Proof.
  intros Hlen Hc Hf Hs.
  pose proof (gap_packet_effect seqno rtp_timestamp payload now s Hlen Hc Hf Hs) as G.
  destruct (player_put_packet seqno rtp_timestamp payload now s) as [s' evs].
  cbn [fst snd] in G. cbv zeta in G |- *. split.
  - intros Hseq Hw Hne Hord.
    destruct (G Hseq Hw Hne Hord) as (G1 & G2 & G3 & G4 & G5 & G6 & Hclr & G8).
    split; [exact G1|]. split; [exact G2|]. split; [exact G3|]. split; [exact G4|].
    split; [exact G5|]. split; [exact G6|]. split; [|exact G8].
    intros i Hi Hneq. rewrite (Hclr i Hi Hneq). unfold clear_slot.
    split; [reflexivity|]. split; [reflexivity|]. split; reflexivity.
  - intros Hr Hw102 Hseq103. rewrite Hw102, Hseq103 in *.
    assert (Hord : seq_order (ab_read s) 102 103 = true).
    { unfold seq_order. rewrite !ORDINATE_mod.
      rewrite !(Z.mod_small (_ - ab_read s)) by lia.
      destruct (Z.leb_spec 32767 (103 - ab_read s)); [lia|].
      destruct (Z.leb_spec 32767 (102 - ab_read s)); [lia|].
      apply Z.ltb_lt. lia. }
    destruct G as (Hev & _ & _ & Haw & _ & Hnew & Hclr & _);
      try assumption; try (unfold is_uint16; lia).
    change (gap_between 102 103) with 1 in *.
    assert (H102 : slot s' (BUFIDX 102) = clear_slot (slot s (BUFIDX 102))).
    { apply (Hclr 0); [lia|]. vm_compute. discriminate. }
    split; [exact Hev|]. rewrite H102. unfold clear_slot.
    split; [reflexivity|]. split; [reflexivity|]. split; [reflexivity|].
    split; [exact Hnew|]. rewrite Haw. reflexivity.
Qed.

Lemma C4_gap_packet_witness :
  slot stale_ring (BUFIDX 102) =
    {| ready := true; timestamp := 77; sequence_number := 614;
       data := replicate 14 0 |} /\
  let s := stale_ring in
  let '(s', evs) := player_put_packet 103 1012 (sample_payload 3) 9 s in
  let w := ab_write s in
  let gap := gap_between w 103 in
  (is_uint16 103 -> is_uint16 w -> w <> 103 ->
   seq_order (ab_read s) w 103 = true ->
     evs = [rtp_request_resend w gap] /\
     0 < gap /\ PREDECESSOR 103 = (w + (gap - 1)) mod 65536 /\
     ab_write s' = SUCCESSOR 103 /\
     ab_read s' = ab_read s /\
     slot s' (BUFIDX 103) =
       {| ready := true; timestamp := 1012; sequence_number := 103;
          data := alac_decode s (data (slot s (BUFIDX 103))) (sample_payload 3) |} /\
     (forall i, 0 <= i < gap -> BUFIDX (w + i) <> BUFIDX 103 ->
        ready (slot s' (BUFIDX (w + i))) = false /\
        timestamp (slot s' (BUFIDX (w + i))) = 0 /\
        sequence_number (slot s' (BUFIDX (w + i))) = 0 /\
        data (slot s' (BUFIDX (w + i))) = data (slot s (BUFIDX (w + i)))) /\
     (forall j, 0 <= j < BUFFER_FRAMES -> j <> BUFIDX 103 ->
        (forall i, 0 <= i < gap -> BUFIDX (w + i) <> j) ->
        slot s' j = slot s j)) /\
  (100 <= ab_read s <= 102 -> w = 102 -> 103 = 103 ->
     evs = [rtp_request_resend 102 1] /\
     ready (slot s' (BUFIDX 102)) = false /\
     timestamp (slot s' (BUFIDX 102)) = 0 /\
     sequence_number (slot s' (BUFIDX 102)) = 0 /\
     slot s' (BUFIDX 103) =
       {| ready := true; timestamp := 1012; sequence_number := 103;
          data := alac_decode s (data (slot s (BUFIDX 103))) (sample_payload 3) |} /\
     ab_write s' = 104).
Proof.
  split; [vm_compute; reflexivity|].
  apply (C4_gap_packet 103 1012 (sample_payload 3) 9 stale_ring);
    vm_compute; congruence.
Defined.

(** The scenario of C4 run from the start of a session: after 100 and
    101 the ring is synced with [ab_write = 102]; 103 then clears slot
    102, asks once for [(102, 1)], lands in slot 103 and leaves
    [ab_write] at 104. *)
Lemma gap_scenario_run :
  let s :=
    fst (player_put_packet 101 1004 (sample_payload 2) 8
           (fst (player_put_packet 100 1000 (sample_payload 1) 7 sample_player))) in
  let r := player_put_packet 103 1012 (sample_payload 3) 9 s in
  ab_synced s = true /\ ab_read s = 100 /\ ab_write s = 102 /\
  snd r = [rtp_request_resend 102 1] /\
  ab_write (fst r) = 104 /\
  slot (fst r) 102 =
    {| ready := false; timestamp := 0; sequence_number := 0;
       data := replicate 14 0 |} /\
  slot (fst r) 103 =
    {| ready := true; timestamp := 1012; sequence_number := 103;
       data := sample_payload 3 ++ replicate 6 0 |}.
Proof. vm_compute. repeat split. Qed.

(** ** The flush filter *)

Section FlushFilter.

Variables (seqno : seq_t) (rtp_timestamp : Z) (payload : list Z) (now : Z).

(** A filtered packet only counts. *)
Lemma player_put_packet_filtered s :
  connection_state_to_output s <> 0 ->
  flush_filtered s rtp_timestamp = true ->
  player_put_packet seqno rtp_timestamp payload now s =
  (s <| packet_count ::= fun n => to_uint64 (n + 1) |>
     <| time_of_last_audio_packet := now |>, []).
Proof.
  intros Hc Hf. unfold player_put_packet. cbn.
  destruct (Z.eqb_spec (connection_state_to_output s) 0); [contradiction|].
  unfold flush_filtered in *. cbn. rewrite Hf. reflexivity.
Qed.

(** A packet that passes leaves no filter behind. *)
Lemma player_put_packet_passed s :
  connection_state_to_output s <> 0 ->
  flush_filtered s rtp_timestamp = false ->
  player_put_packet seqno rtp_timestamp payload now s =
  let s1 := s <| packet_count ::= fun n => to_uint64 (n + 1) |>
              <| time_of_last_audio_packet := now |>
              <| flush_rtp_timestamp := 0 |> in
  let '(s2, abuf, evs) := place_packet seqno s1 in
  match abuf with
  | Some i => (store_packet seqno rtp_timestamp payload i s2, evs)
  | None => (s2, evs)
  end.
Proof.
  intros Hc Hf. unfold player_put_packet. cbn.
  destruct (Z.eqb_spec (connection_state_to_output s) 0); [contradiction|].
  unfold flush_filtered in *. cbn. rewrite Hf. cbv zeta.
  destruct (Z.eqb_spec (flush_rtp_timestamp s) 0) as [E|E]; cbn [negb andb] in *.
  - replace (s <| packet_count ::= fun n => to_uint64 (n + 1) |>
               <| time_of_last_audio_packet := now |>
               <| flush_rtp_timestamp := 0 |>)
      with (s <| packet_count ::= fun n => to_uint64 (n + 1) |>
              <| time_of_last_audio_packet := now |>); [reflexivity|].
    destruct s; cbn in *; subst; reflexivity.
  - apply orb_false_elim in Hf as [_ Hf]. rewrite Hf. reflexivity.
Qed.

(** How [place_packet] classifies, and what it leaves alone. *)
Lemma place_packet_cases s :
  length (audio_buffer s) = Z.to_nat BUFFER_FRAMES ->
  let '(s2, abuf, evs) := place_packet seqno s in
  length (audio_buffer s2) = Z.to_nat BUFFER_FRAMES /\
  decoder_info s2 = decoder_info s /\
  flush_rtp_timestamp s2 = flush_rtp_timestamp s /\
  (forall j, 0 <= j -> data (slot s2 j) = data (slot s j)) /\
  (too_late s seqno = false -> abuf = Some (BUFIDX seqno)) /\
  (too_late s seqno = true ->
     abuf = None /\ evs = [] /\
     s2 = s <| too_late_packets ::= fun n => to_uint64 (n + 1) |>).
Proof.
  intros Hlen. unfold place_packet, too_late.
  destruct (ab_synced s) eqn:Hs; cbn [andb].
  - destruct (Z.eqb_spec (ab_write s) seqno) as [E|E]; cbn [negb andb].
    + repeat split; try assumption; discriminate.
    + destruct (seq_order (ab_read s) (ab_write s) seqno) eqn:Ho; cbn [negb andb].
      * set (z := zero_gap _ 0 (ab_write s) s).
        assert (Hz : forall j, 0 <= j -> data (slot z j) = data (slot s j)).
        { intros j Hj. subst z. rewrite zero_gap_slot by assumption.
          destruct (gap_hits _ _ _ _); reflexivity. }
        assert (Hzl : length (audio_buffer z) = Z.to_nat BUFFER_FRAMES).
        { subst z. now rewrite zero_gap_length. }
        assert (Hzf : decoder_info z = decoder_info s /\
                      flush_rtp_timestamp z = flush_rtp_timestamp s).
        { subst z. rewrite zero_gap_frame. split; reflexivity. }
        destruct Hzf. repeat split; try assumption; discriminate.
      * destruct (seq_order (ab_read s) (ab_read s) seqno) eqn:Ho'; cbn [negb].
        -- repeat split; try assumption; discriminate.
        -- repeat split; try assumption; discriminate.
  - cbn. rewrite Z.eqb_refl. repeat split; try assumption; discriminate.
Qed.

End FlushFilter.

(** C2 (as amended). With the connection on and a flush filter active, a
    packet whose timestamp is [flush_rtp_timestamp] or before it in
    32-bit wrap order is dropped: only the packet count and the arrival
    time change, no slot, cursor or the filter itself. A packet whose
    timestamp is strictly after [flush_rtp_timestamp] clears the filter;
    it is then stored in slot [BUFIDX seqno] unless its sequence number
    is classified too late, in which case no slot or cursor changes and
    [too_late_packets] is incremented. *)
Theorem C2_flush_filter (seqno : seq_t) (rtp_timestamp : Z) (payload : list Z) (now : Z)
  (s : player) :
  length (audio_buffer s) = Z.to_nat BUFFER_FRAMES ->
  connection_state_to_output s <> 0 ->
  flush_rtp_timestamp s <> 0 ->
  is_uint32 rtp_timestamp -> is_uint32 (flush_rtp_timestamp s) ->
  let '(s', evs) := player_put_packet seqno rtp_timestamp payload now s in
  (rtp_timestamp = flush_rtp_timestamp s \/
   seq32_order rtp_timestamp (flush_rtp_timestamp s) = true ->
     evs = [] /\
     s' = s <| packet_count ::= fun n => to_uint64 (n + 1) |>
            <| time_of_last_audio_packet := now |> /\
     audio_buffer s' = audio_buffer s /\
     ab_read s' = ab_read s /\ ab_write s' = ab_write s /\
     ab_synced s' = ab_synced s /\
     flush_rtp_timestamp s' = flush_rtp_timestamp s) /\
  (seq32_order (flush_rtp_timestamp s) rtp_timestamp = true ->
     flush_rtp_timestamp s' = 0 /\
     (too_late s seqno = false ->
        slot s' (BUFIDX seqno) =
          {| ready := true; timestamp := rtp_timestamp; sequence_number := seqno;
             data := alac_decode s (data (slot s (BUFIDX seqno))) payload |}) /\
     (too_late s seqno = true ->
        evs = [] /\ audio_buffer s' = audio_buffer s /\
        ab_read s' = ab_read s /\ ab_write s' = ab_write s /\
        too_late_packets s' = to_uint64 (too_late_packets s + 1))).
Proof.
  intros Hlen Hc Hf Hts Hfl.
  destruct (player_put_packet seqno rtp_timestamp payload now s) as [s' evs] eqn:E.
  split.
  - intros Hdrop.
    assert (Hfilt : flush_filtered s rtp_timestamp = true).
    { unfold flush_filtered. destruct (Z.eqb_spec (flush_rtp_timestamp s) 0); [contradiction|].
      cbn [negb andb]. destruct Hdrop as [-> | ->]; [now rewrite Z.eqb_refl|apply orb_true_r]. }
    rewrite player_put_packet_filtered in E by assumption.
    injection E as <- <-. repeat split.
  - intros Hafter.
    assert (Hfilt : flush_filtered s rtp_timestamp = false).
    { unfold flush_filtered.
      rewrite (seq32_order_asym _ _ Hfl Hts Hafter), orb_false_r.
      destruct (Z.eqb_spec rtp_timestamp (flush_rtp_timestamp s)) as [Eq|]; [|apply andb_false_r].
      rewrite Eq in Hafter. unfold seq32_order in Hafter.
      rewrite Z.eqb_refl in Hafter. discriminate. }
    rewrite player_put_packet_passed in E by assumption. cbv zeta in E.
    set (s1 := s <| packet_count ::= fun n => to_uint64 (n + 1) |>
                 <| time_of_last_audio_packet := now |>
                 <| flush_rtp_timestamp := 0 |>) in E.
    pose proof (place_packet_cases seqno s1 Hlen) as P.
    destruct (place_packet seqno s1) as [[s2 abuf] evs2].
    destruct P as (Hl2 & Hd2 & Hf2 & Hdata & Hin & Hlate).
    change (too_late s1 seqno) with (too_late s seqno) in Hin, Hlate.
    pose proof (BUFIDX_range seqno) as Hidx.
    split; [|split].
    + destruct abuf; injection E as <- <-; exact Hf2.
    + intros Hnl. rewrite (Hin Hnl) in E. injection E as <- <-.
      rewrite store_packet_slot_eq by (rewrite Hl2; unfold BUFFER_FRAMES; lia).
      unfold alac_decode. rewrite Hd2, Hdata by lia. reflexivity.
    + intros Hl. destruct (Hlate Hl) as (-> & -> & ->). injection E as <- <-.
      repeat split.
Qed.

Lemma C2_flush_filter_witness :
  let s := player_flush 1004 (fst (player_put_packet 100 1000 (sample_payload 1) 7 sample_player)) in
  let '(s', evs) := player_put_packet 101 1004 (sample_payload 2) 8 s in
  (1004 = flush_rtp_timestamp s \/ seq32_order 1004 (flush_rtp_timestamp s) = true ->
     evs = [] /\
     s' = s <| packet_count ::= fun n => to_uint64 (n + 1) |>
            <| time_of_last_audio_packet := 8 |> /\
     audio_buffer s' = audio_buffer s /\
     ab_read s' = ab_read s /\ ab_write s' = ab_write s /\
     ab_synced s' = ab_synced s /\
     flush_rtp_timestamp s' = flush_rtp_timestamp s) /\
  (seq32_order (flush_rtp_timestamp s) 1004 = true ->
     flush_rtp_timestamp s' = 0 /\
     (too_late s 101 = false ->
        slot s' (BUFIDX 101) =
          {| ready := true; timestamp := 1004; sequence_number := 101;
             data := alac_decode s (data (slot s (BUFIDX 101))) (sample_payload 2) |}) /\
     (too_late s 101 = true ->
        evs = [] /\ audio_buffer s' = audio_buffer s /\
        ab_read s' = ab_read s /\ ab_write s' = ab_write s /\
        too_late_packets s' = to_uint64 (too_late_packets s + 1))).
Proof.
  apply (C2_flush_filter 101 1004 (sample_payload 2) 8
           (player_flush 1004
              (fst (player_put_packet 100 1000 (sample_payload 1) 7 sample_player))));
    unfold is_uint32; vm_compute; try split; congruence.
Defined.

(** C2, as stated, fails: a packet strictly after the flush boundary is
    not always taken into the ring. The ring is synced at 100, a flush
    to timestamp 5 is requested, and packet 50 arrives with timestamp 6:
    the filter is cleared, but the packet is too late for the ring: no
    slot is written and [too_late_packets] counts it. *)
Lemma C2_flush_filter_counterexample :
  let s := player_flush 5 (fst (player_put_packet 100 1000 (sample_payload 1) 7 sample_player)) in
  let s' := fst (player_put_packet 50 6 (sample_payload 2) 8 s) in
  connection_state_to_output s <> 0 /\
  flush_rtp_timestamp s = 5 /\
  seq32_order (flush_rtp_timestamp s) 6 = true /\
  flush_rtp_timestamp s' = 0 /\
  audio_buffer s' = audio_buffer s /\
  ready (slot s' (BUFIDX 50)) = false /\
  too_late_packets s' = 1.
Proof. vm_compute. repeat split; congruence. Qed.

(** The boundary case of the spec: with the filter at [flush_ts], the
    packet at [flush_ts] is dropped and the one at [flush_ts + 1] is
    stored and clears the filter. *)
Lemma flush_boundary_run :
  let s := player_flush 1004 (fst (player_put_packet 100 1000 (sample_payload 1) 7 sample_player)) in
  let s1 := fst (player_put_packet 101 1004 (sample_payload 2) 8 s) in
  let s2 := fst (player_put_packet 102 1005 (sample_payload 3) 9 s1) in
  audio_buffer s1 = audio_buffer s /\ flush_rtp_timestamp s1 = 1004 /\
  flush_rtp_timestamp s2 = 0 /\
  slot s2 102 =
    {| ready := true; timestamp := 1005; sequence_number := 102;
       data := sample_payload 3 ++ replicate 6 0 |}.
Proof. vm_compute. repeat split. Qed.

(** ** The ring invariant *)

Section RingInvariant.

Lemma ORDINATE_small r x :
  (x - r) mod 65536 < 32767 -> ORDINATE r x = (x - r) mod 65536.
Proof.
  intros H. rewrite ORDINATE_mod.
  destruct (Z.leb_spec 32767 ((x - r) mod 65536)); [lia|reflexivity].
Qed.

Lemma ORDINATE_nonneg r x :
  0 <= ORDINATE r x -> ORDINATE r x = (x - r) mod 65536 /\ (x - r) mod 65536 < 32767.
Proof.
  rewrite ORDINATE_mod. pose proof (Z.mod_pos_bound (x - r) 65536 ltac:(lia)).
  destruct (Z.leb_spec 32767 ((x - r) mod 65536)); lia.
Qed.

Lemma ORDINATE_neg r x :
  ORDINATE r x < 0 -> 32767 <= (x - r) mod 65536.
Proof.
  rewrite ORDINATE_mod. pose proof (Z.mod_pos_bound (x - r) 65536 ltac:(lia)).
  destruct (Z.leb_spec 32767 ((x - r) mod 65536)); lia.
Qed.

(** Moving the anchor forward by one. *)
Lemma mod_diff_succ r x :
  0 < (x - r) mod 65536 ->
  (x - SUCCESSOR r) mod 65536 = (x - r) mod 65536 - 1.
Proof.
  intros H. rewrite SUCCESSOR_mod. Z.div_mod_to_equations; lia.
Qed.

Lemma mod_diff_succ_l r x :
  (x - r) mod 65536 < 65535 ->
  (SUCCESSOR x - r) mod 65536 = (x - r) mod 65536 + 1.
Proof.
  intros H. rewrite SUCCESSOR_mod. Z.div_mod_to_equations; lia.
Qed.

Lemma SUCCESSOR_range x : is_uint16 (SUCCESSOR x).
Proof.
  rewrite SUCCESSOR_mod. unfold is_uint16. apply Z.mod_pos_bound. lia.
Qed.

(** Two sequence numbers at the same slot and the same distance below
    [BUFFER_FRAMES] from the anchor are the same. *)
Lemma same_slot_same_seq r x :
  is_uint16 r -> is_uint16 x ->
  BUFIDX x = BUFIDX r -> (x - r) mod 65536 < 512 -> x = r.
Proof.
  unfold is_uint16. rewrite !BUFIDX_mod. intros Hr Hx Hidx Hd.
  Z.div_mod_to_equations; lia.
Qed.

Lemma mod_diff_zero r x :
  is_uint16 r -> is_uint16 x -> (x - r) mod 65536 = 0 -> x = r.
Proof. unfold is_uint16. intros Hr Hx Hd. Z.div_mod_to_equations; lia. Qed.

Lemma ring_inv_view s s' :
  ring_view s' = ring_view s -> ring_inv s -> ring_inv s'.
Proof.
  unfold ring_view. intros E [H1 H2 H3 H4 H5].
  injection E as Eb Er Ew Es.
  constructor; unfold slot in *; rewrite ?Eb, ?Er, ?Ew, ?Es; assumption.
Qed.

Lemma slot_ab_resync s j : ready (slot (ab_resync s) j) = false.
Proof.
  unfold slot, ab_resync. cbn. rewrite list_lookup_fmap.
  destruct (audio_buffer s !! Z.to_nat j); reflexivity.
Qed.

Lemma ring_inv_ab_resync s : ring_inv s -> ring_inv (ab_resync s).
Proof.
  intros [H1 H2 H3 H4 H5]. constructor; try assumption.
  - unfold ab_resync. cbn. now rewrite length_fmap.
  - intros j Hj Hr. rewrite slot_ab_resync in Hr. discriminate.
Qed.

Lemma ring_inv_player_play fs dec cfg conn : ring_inv (player_play fs dec cfg conn).
Proof.
  constructor.
  - apply length_replicate.
  - unfold is_uint16; cbn; lia.
  - unfold is_uint16; cbn; lia.
  - vm_compute. discriminate.
  - intros j Hj Hr. exfalso. unfold slot in Hr. cbn in Hr.
    destruct (replicate _ _ !! Z.to_nat j) as [a|] eqn:E; cbn in Hr; [|discriminate].
    apply lookup_replicate in E as [-> _]. discriminate.
Qed.

Lemma player_inv_player_play fs dec cfg conn : player_inv (player_play fs dec cfg conn).
Proof.
  split; [apply ring_inv_player_play|]. intros H. cbn in H. contradiction.
Qed.

Lemma player_inv_player_flush ts s : player_inv s -> player_inv (player_flush ts s).
Proof.
  intros [Hr _]. split.
  - eapply ring_inv_view; [|exact Hr]. reflexivity.
  - intros _. left. reflexivity.
Qed.

End RingInvariant.

(** ** The producer keeps the ring invariant *)

Section ProducerInvariant.

Lemma ring_inv_sync seqno s :
  ring_inv s -> ab_synced s = false -> is_uint16 seqno ->
  ring_inv (s <| ab_write := seqno |> <| ab_read := seqno |> <| ab_synced := true |>).
Proof.
  intros [H1 H2 H3 H4 H5] Hs Hseq. constructor; unfold slot in *; proj_simpl;
    try assumption.
  - rewrite Z.sub_diag. vm_compute. discriminate.
  - intros j Hj Hr. destruct (H5 j Hj Hr) as [Hsync _]. congruence.
Qed.

(** Moving [ab_write] forward, within the ring, keeps the invariant. *)
Lemma ring_inv_advance w' s :
  ring_inv s -> is_uint16 w' ->
  (ab_write s - ab_read s) mod 65536 <= (w' - ab_read s) mod 65536 <= BUFFER_FRAMES ->
  ring_inv (s <| ab_write := w' |>).
Proof.
  intros [H1 H2 H3 H4 H5] Hw Hd. constructor; unfold slot in *; proj_simpl;
    try assumption; try lia.
  intros j Hj Hr. destruct (H5 j Hj Hr) as (? & ? & ? & ?).
  split; [assumption|]. split; [assumption|]. split; [assumption|lia].
Qed.

Lemma ring_inv_zero_gap n i w s : ring_inv s -> ring_inv (zero_gap n i w s).
Proof.
  intros [H1 H2 H3 H4 H5].
  assert (Hf : ab_read (zero_gap n i w s) = ab_read s /\
               ab_write (zero_gap n i w s) = ab_write s /\
               ab_synced (zero_gap n i w s) = ab_synced s).
  { rewrite zero_gap_frame. repeat split. }
  destruct Hf as (Er & Ew & Es).
  constructor; rewrite ?Er, ?Ew, ?Es; try assumption.
  - now rewrite zero_gap_length.
  - intros j Hj. rewrite zero_gap_slot by (try assumption; lia).
    destruct (gap_hits n i w j); [discriminate|]. apply H5. exact Hj.
Qed.

(** Decoding a frame of the window into its slot keeps the invariant. *)
Lemma ring_inv_store seqno ts payload s :
  ring_inv s -> ab_synced s = true -> is_uint16 seqno ->
  (seqno - ab_read s) mod 65536 < (ab_write s - ab_read s) mod 65536 ->
  ring_inv (store_packet seqno ts payload (BUFIDX seqno) s).
Proof.
  intros [H1 H2 H3 H4 H5] Hs Hseq Hd.
  pose proof (BUFIDX_range seqno) as Hidx.
  constructor; try assumption.
  - unfold store_packet. now rewrite length_update_slot.
  - intros j Hj. change (ab_read (store_packet _ _ _ _ s)) with (ab_read s).
    change (ab_write (store_packet _ _ _ _ s)) with (ab_write s).
    change (ab_synced (store_packet _ _ _ _ s)) with (ab_synced s).
    destruct (Z.eq_dec (BUFIDX seqno) j) as [<-|Hne].
    + rewrite store_packet_slot_eq by (rewrite H1; unfold BUFFER_FRAMES; lia).
      cbn [ready sequence_number]. intros _.
      split; [assumption|]. split; [assumption|]. split; [reflexivity|assumption].
    + rewrite store_packet_slot_ne by lia. apply H5. exact Hj.
Qed.

Lemma mod_diff_inj r x y :
  is_uint16 x -> is_uint16 y ->
  (x - r) mod 65536 = (y - r) mod 65536 -> x = y.
Proof. unfold is_uint16. intros Hx Hy E. Z.div_mod_to_equations; lia. Qed.

(** Classifying and storing a paced packet keeps the ring invariant and
    does not touch the flush state. *)
Lemma ring_inv_place seqno ts payload s :
  ring_inv s -> is_uint16 seqno ->
  (ab_synced s = true -> ORDINATE (ab_read s) seqno < BUFFER_FRAMES) ->
  let '(s2, abuf, evs) := place_packet seqno s in
  let s3 := match abuf with
            | Some i => store_packet seqno ts payload i s2
            | None => s2
            end in
  ring_inv s3 /\
  flush_rtp_timestamp s3 = flush_rtp_timestamp s /\
  flush_requested s3 = flush_requested s.
Proof.
  intros Hinv Hseq Hpace. unfold place_packet.
  pose proof (inv_distance s Hinv) as Hdist. unfold BUFFER_FRAMES in Hdist, Hpace.
  pose proof (Z.mod_pos_bound (ab_write s - ab_read s) 65536 ltac:(lia)) as Hd0.
  destruct (ab_synced s) eqn:Hs.
  - specialize (Hpace eq_refl).
    pose proof (ORDINATE_small (ab_read s) (ab_write s) ltac:(lia)) as Hw.
    destruct (Z.eqb_spec (ab_write s) seqno) as [E|E].
    + (* expected *)
      subst seqno. rewrite Hw in Hpace.
      pose proof (mod_diff_succ_l (ab_read s) (ab_write s) ltac:(lia)) as Hsucc.
      split; [|split; reflexivity].
      apply ring_inv_store; try assumption.
      * apply ring_inv_advance; [assumption|apply SUCCESSOR_range|].
        unfold BUFFER_FRAMES. lia.
      * proj_simpl. lia.
    + destruct (seq_order (ab_read s) (ab_write s) seqno) eqn:Ho.
      * (* newer than expected *)
        unfold seq_order in Ho. apply Z.ltb_lt in Ho. rewrite Hw in Ho.
        destruct (ORDINATE_nonneg (ab_read s) seqno ltac:(lia)) as [Hq _].
        rewrite Hq in Ho, Hpace.
        pose proof (mod_diff_succ_l (ab_read s) seqno ltac:(lia)) as Hsucc.
        set (z := zero_gap _ 0 (ab_write s) s).
        assert (Hz : ring_inv z) by (apply ring_inv_zero_gap; assumption).
        assert (Hf : ab_read z = ab_read s /\ ab_write z = ab_write s /\
                     ab_synced z = true /\
                     flush_rtp_timestamp z = flush_rtp_timestamp s /\
                     flush_requested z = flush_requested s).
        { subst z. rewrite zero_gap_frame. proj_simpl. rewrite Hs. repeat split. }
        destruct Hf as (Er & Ew & Es & Eft & Efr).
        split; [|split; assumption].
        apply ring_inv_store; try assumption.
        -- apply ring_inv_advance; [|apply SUCCESSOR_range|].
           ++ eapply ring_inv_view; [|exact Hz]. reflexivity.
           ++ proj_simpl. rewrite Er, Ew. unfold BUFFER_FRAMES. lia.
        -- proj_simpl. rewrite Er. lia.
      * destruct (seq_order (ab_read s) (ab_read s) seqno) eqn:Ho'.
        -- (* late *)
           unfold seq_order in Ho, Ho'. apply Z.ltb_lt in Ho'. apply Z.ltb_ge in Ho.
           rewrite ORDINATE_anchor in Ho'. rewrite Hw in Ho.
           destruct (ORDINATE_nonneg (ab_read s) seqno ltac:(lia)) as [Hq _].
           rewrite Hq in Ho, Ho'.
           assert ((seqno - ab_read s) mod 65536 <> (ab_write s - ab_read s) mod 65536).
           { intros Eq. apply E. symmetry.
             eapply mod_diff_inj; [assumption|apply (inv_write s Hinv)|exact Eq]. }
           split; [|split; reflexivity].
           apply ring_inv_store; try assumption.
           ++ eapply ring_inv_view; [|exact Hinv]. reflexivity.
           ++ proj_simpl. lia.
        -- (* too late *)
           split; [|split; reflexivity].
           eapply ring_inv_view; [|exact Hinv]. reflexivity.
  - (* the ring syncs to this packet *)
    proj_simpl. rewrite Z.eqb_refl.
    pose proof (mod_diff_succ_l seqno seqno) as Hsucc.
    rewrite Z.sub_diag in Hsucc. change (0 mod 65536) with 0 in Hsucc.
    specialize (Hsucc ltac:(lia)).
    split; [|split; reflexivity].
    apply ring_inv_store; try assumption; try reflexivity.
    + apply ring_inv_advance; [|apply SUCCESSOR_range|].
      * apply ring_inv_sync; assumption.
      * proj_simpl. rewrite Hsucc, Z.sub_diag. vm_compute. split; discriminate.
    + proj_simpl. rewrite Hsucc, Z.sub_diag. reflexivity.
Qed.

(** [player_put_packet] keeps the invariant for a paced packet. *)
Lemma player_inv_put seqno ts payload now s :
  player_inv s -> is_uint16 seqno ->
  (admitted s ts = true -> ab_synced s = true ->
   ORDINATE (ab_read s) seqno < BUFFER_FRAMES) ->
  player_inv (fst (player_put_packet seqno ts payload now s)).
Proof.
  intros [Hr Hf] Hseq Hp.
  set (s1 := s <| packet_count ::= fun n => to_uint64 (n + 1) |>
               <| time_of_last_audio_packet := now |>).
  assert (H1 : player_inv s1).
  { split; [eapply ring_inv_view; [|exact Hr]; reflexivity|exact Hf]. }
  destruct (Z.eq_dec (connection_state_to_output s) 0) as [Hc|Hc].
  - unfold player_put_packet. proj_simpl. rewrite Hc. exact H1.
  - destruct (flush_filtered s ts) eqn:Hfilt.
    + rewrite player_put_packet_filtered by assumption. exact H1.
    + rewrite player_put_packet_passed by assumption. cbv zeta.
      set (s1f := s <| packet_count ::= fun n => to_uint64 (n + 1) |>
                    <| time_of_last_audio_packet := now |>
                    <| flush_rtp_timestamp := 0 |>).
      assert (Hr1 : ring_inv s1f) by (eapply ring_inv_view; [|exact Hr]; reflexivity).
      assert (Hp1 : ab_synced s1f = true -> ORDINATE (ab_read s1f) seqno < BUFFER_FRAMES).
      { apply Hp. unfold admitted. rewrite Hfilt.
        destruct (Z.eqb_spec (connection_state_to_output s) 0); [contradiction|reflexivity]. }
      pose proof (ring_inv_place seqno ts payload s1f Hr1 Hseq Hp1) as P.
      destruct (place_packet seqno s1f) as [[s2 abuf] evs]. cbv zeta in P.
      destruct P as (P1 & P2 & P3).
      assert (Hfin : player_inv
                       match abuf with
                       | Some i => store_packet seqno ts payload i s2
                       | None => s2
                       end).
      { split; [exact P1|]. intros Hne. rewrite P2 in Hne. contradiction. }
      destruct abuf; exact Hfin.
Qed.

End ProducerInvariant.

(** ** The consumer keeps the ring invariant *)

Section ConsumerInvariant.

Lemma player_inv_same s s' : same_ring s s' -> player_inv s -> player_inv s'.
Proof.
  intros (Ev & Et & Er) [Hr Hf]. split.
  - eapply ring_inv_view; eassumption.
  - unfold filter_inv, ring_view in *. injection Ev as _ _ _ Es.
    rewrite Et, Er, Es. exact Hf.
Qed.

Lemma same_ring_refl s : same_ring s s.
Proof. repeat split. Qed.

Lemma same_ring_trans s1 s2 s3 : same_ring s1 s2 -> same_ring s2 s3 -> same_ring s1 s3.
Proof.
  intros (A1 & A2 & A3) (B1 & B2 & B3). repeat split; congruence.
Qed.

Lemma timeout_check_same e s : same_ring s (fst (timeout_check e s)).
Proof.
  unfold timeout_check.
  destruct (_ && _ && _); [|apply same_ring_refl].
  destruct (_ && _); [|apply same_ring_refl]. repeat split.
Qed.

Lemma track_connection_inv e s : player_inv s -> player_inv (track_connection e s).
Proof.
  intros [Hr Hf]. unfold track_connection.
  destruct (connection_state_to_output s =? rco e); [split; assumption|].
  proj_simpl. destruct (rco e =? 0).
  - split; [eapply ring_inv_view; [|exact Hr]; reflexivity|].
    intros _. left. reflexivity.
  - split; [eapply ring_inv_view; [|exact Hr]; reflexivity|exact Hf].
Qed.

Lemma player_inv_ab_resync s : player_inv s -> ring_inv (ab_resync s).
Proof. intros [Hr _]. now apply ring_inv_ab_resync. Qed.

(** Once a requested flush has been applied, an active filter means an
    unsynced ring. *)
Lemma apply_flush_inv s :
  player_inv s ->
  player_inv (fst (apply_flush s)) /\
  (flush_rtp_timestamp (fst (apply_flush s)) <> 0 -> ab_synced (fst (apply_flush s)) = false).
Proof.
  intros Hinv. unfold apply_flush. destruct (flush_requested s) eqn:Hfr; cbn [fst].
  - assert (Hs : ab_synced (ab_resync s) = false) by reflexivity.
    split.
    + split.
      * eapply ring_inv_view; [|apply (player_inv_ab_resync s Hinv)]. reflexivity.
      * intros _. right. reflexivity.
    + intros _. reflexivity.
  - split; [exact Hinv|]. intros Hne. destruct Hinv as [_ Hf].
    destruct (Hf Hne) as [H|H]; [congruence|exact H].
Qed.

(** The frame at the head of a ring that satisfies the invariant, if
    ready, is the one [ab_read] names. *)
Lemma head_frame s :
  ring_inv s -> ready (slot s (BUFIDX (ab_read s))) = true ->
  sequence_number (slot s (BUFIDX (ab_read s))) = ab_read s /\
  ab_synced s = true /\
  0 < (ab_write s - ab_read s) mod 65536.
Proof.
  intros Hinv Hr. pose proof (BUFIDX_range (ab_read s)) as Hidx.
  destruct (inv_slots s Hinv (BUFIDX (ab_read s)) ltac:(unfold BUFFER_FRAMES; lia) Hr)
    as (Hs & Hu & Hi & Hd).
  pose proof (inv_distance s Hinv) as Hdist. unfold BUFFER_FRAMES in Hdist.
  assert (E : sequence_number (slot s (BUFIDX (ab_read s))) = ab_read s).
  { apply same_slot_same_seq; [apply (inv_read s Hinv)|assumption|assumption|lia]. }
  split; [exact E|]. split; [exact Hs|].
  rewrite E, Z.sub_diag in Hd. exact Hd.
Qed.

(** With no filter active the inner loop does nothing and ends after one
    turn. *)
Lemma flush_drain_idle fuel flush_limit s :
  ring_inv s -> flush_rtp_timestamp s = 0 ->
  flush_drain (S fuel) flush_limit s = Some (s, flush_limit).
Proof.
  intros Hinv Hf. cbn [flush_drain]. unfold flush_drain_body.
  destruct (ready (slot s (BUFIDX (ab_read s)))) eqn:Hr.
  - destruct (head_frame s Hinv Hr) as (E & _ & _). rewrite E, Z.eqb_refl.
    cbn [negb].
    do 3 (rewrite ?Hf; change (0 =? 0) with true; cbn [negb andb]).
    reflexivity.
  - rewrite Hf. reflexivity.
Qed.

Lemma first_packet_inv e cf s : player_inv s -> player_inv (first_packet e cf s).
Proof.
  intros Hinv. unfold first_packet.
  destruct (first_packet_timestamp s =? 0); [|exact Hinv].
  destruct (negb _); [|exact Hinv].
  match goal with |- context [if ?c then _ else _] => destruct c end.
  - apply player_inv_player_flush. eapply player_inv_same; [|exact Hinv]. repeat split.
  - eapply player_inv_same; [|exact Hinv]. repeat split.
Qed.

Lemma abandon_start_inv b s : player_inv s -> player_inv (fst (abandon_start b s)).
Proof.
  intros Hinv. unfold abandon_start. cbn [fst]. split.
  - eapply ring_inv_view; [|apply (player_inv_ab_resync s Hinv)].
    destruct b; reflexivity.
  - intros _. right. destruct b; reflexivity.
Qed.

Lemma lead_in_inv e s : player_inv s -> player_inv (fst (lead_in e s)).
Proof.
  intros Hinv. unfold lead_in.
  destruct (negb _); [|exact Hinv].
  destruct (_ <=? local_time_now e); [apply abandon_start_inv; exact Hinv|].
  cbv zeta.
  match goal with |- context [if ?c then abandon_start false s else _] => destruct c end;
    [apply abandon_start_inv; exact Hinv|].
  match goal with |- context [if ?c || ?d then _ else _] => destruct (c || d) end;
    cbn [fst]; proj_simpl.
  - eapply player_inv_same; [|exact Hinv]. repeat split.
  - destruct (ab_buffering s); cbn [fst];
      (eapply player_inv_same; [|exact Hinv]); repeat split.
Qed.

Lemma buffering_inv e s : player_inv s -> player_inv (fst (buffering e s)).
Proof.
  intros Hinv. unfold buffering.
  destruct (_ && _); [|exact Hinv].
  apply lead_in_inv, first_packet_inv, Hinv.
Qed.

(** A frame is only due on a synced ring whose head slot is ready. *)
Lemma do_wait_false e s :
  do_wait e s = false ->
  ab_synced s = true /\ ready (slot s (BUFIDX (ab_read s))) = true.
Proof.
  unfold do_wait. destruct (ab_synced s); [|discriminate].
  destruct (ready _); [|discriminate]. auto.
Qed.

(** The resend scan only counts its requests. *)
Lemma resend_scan_frame fuel : forall i s,
  fst (resend_scan fuel i s) =
  s <| resend_requests := resend_requests (fst (resend_scan fuel i s)) |>.
Proof.
  induction fuel as [|fuel IH]; intros i s.
  - destruct s; reflexivity.
  - cbn [resend_scan]. destruct (_ <? _); [|destruct s; reflexivity].
    destruct (ready _).
    + specialize (IH (to_int32 (i * 2)) s).
      destruct (resend_scan fuel (to_int32 (i * 2)) s). exact IH.
    + match goal with |- context [resend_scan fuel ?i' ?s'] =>
        specialize (IH i' s'); destruct (resend_scan fuel i' s') end.
      cbn [fst] in *. rewrite IH at 1. reflexivity.
Qed.

Lemma resend_scan_same fuel i s : same_ring s (fst (resend_scan fuel i s)).
Proof. rewrite resend_scan_frame. repeat split. Qed.

(** Handing over a ready head frame keeps the invariant. *)
Lemma ring_inv_consume s :
  ring_inv s -> ready (slot s (BUFIDX (ab_read s))) = true ->
  ring_inv ((update_slot (BUFIDX (ab_read s)) (fun a => a <| ready := false |>) s)
              <| ab_read := SUCCESSOR (ab_read s) |>).
Proof.
  intros Hinv Hr. destruct (head_frame s Hinv Hr) as (Eseq & Hs & Hpos).
  pose proof (BUFIDX_range (ab_read s)) as Hidx.
  pose proof (inv_distance s Hinv) as Hdist.
  pose proof (mod_diff_succ (ab_read s) (ab_write s) Hpos) as Hw.
  set (u := update_slot (BUFIDX (ab_read s)) (fun a => a <| ready := false |>) s).
  assert (Hu : forall j, slot (u <| ab_read := SUCCESSOR (ab_read s) |>) j = slot u j)
    by reflexivity.
  constructor.
  - subst u. change (length (audio_buffer (update_slot (BUFIDX (ab_read s))
                                     (fun a => a <| ready := false |>) s))
             = Z.to_nat BUFFER_FRAMES).
    rewrite length_update_slot. apply (inv_length s Hinv).
  - apply SUCCESSOR_range.
  - apply (inv_write s Hinv).
  - change ((ab_write s - SUCCESSOR (ab_read s)) mod 65536 <= BUFFER_FRAMES).
    rewrite Hw. lia.
  - intros j Hj. rewrite Hu. subst u.
    change ((ready (slot (update_slot (BUFIDX (ab_read s))
                            (fun a => a <| ready := false |>) s) j) = true) ->
            ab_synced s = true /\
            is_uint16 (sequence_number
                         (slot (update_slot (BUFIDX (ab_read s))
                                  (fun a => a <| ready := false |>) s) j)) /\
            BUFIDX (sequence_number
                      (slot (update_slot (BUFIDX (ab_read s))
                               (fun a => a <| ready := false |>) s) j)) = j /\
            (sequence_number
               (slot (update_slot (BUFIDX (ab_read s))
                        (fun a => a <| ready := false |>) s) j)
             - SUCCESSOR (ab_read s)) mod 65536
              < (ab_write s - SUCCESSOR (ab_read s)) mod 65536).
    destruct (Z.eq_dec (BUFIDX (ab_read s)) j) as [<-|Hne].
    + rewrite slot_update_slot_eq
        by (rewrite (inv_length s Hinv); unfold BUFFER_FRAMES; lia).
      cbn. discriminate.
    + rewrite slot_update_slot_ne by lia. intros Hrj.
      destruct (inv_slots s Hinv j Hj Hrj) as (_ & Hu16 & Hi & Hd).
      split; [exact Hs|]. split; [exact Hu16|]. split; [exact Hi|].
      assert (Hnz : (sequence_number (slot s j) - ab_read s) mod 65536 <> 0).
      { intros Ez. apply Hne. rewrite <- Hi. f_equal. symmetry.
        apply mod_diff_zero; [apply (inv_read s Hinv)|exact Hu16|exact Ez]. }
      pose proof (Z.mod_pos_bound (sequence_number (slot s j) - ab_read s) 65536
                    ltac:(lia)).
      rewrite Hw, mod_diff_succ by lia. lia.
Qed.

Lemma release_frame_inv s :
  player_inv s -> ready (slot s (BUFIDX (ab_read s))) = true ->
  player_inv (fst (fst (release_frame s))).
Proof.
  intros Hinv Hr. unfold release_frame.
  assert (Hscan : exists s1 evs,
             (if ab_buffering s then (s, [])
              else resend_scan resend_scan_fuel 8 s) = (s1, evs) /\ same_ring s s1).
  { destruct (ab_buffering s).
    - exists s, []. split; [reflexivity|apply same_ring_refl].
    - pose proof (resend_scan_same resend_scan_fuel 8 s) as H.
      destruct (resend_scan resend_scan_fuel 8 s) as [s1 evs].
      exists s1, evs. split; [reflexivity|exact H]. }
  destruct Hscan as (s1 & evs & -> & Hsame).
  pose proof (player_inv_same _ _ Hsame Hinv) as [Hr1 Hf1].
  destruct Hsame as (Ev & Eft & Efr). unfold ring_view in Ev.
  injection Ev as Eb Er Ew Es.
  assert (Hslot : forall j, slot s1 j = slot s j).
  { intros j. unfold slot. now rewrite Eb. }
  assert (Hr' : ready (slot s1 (BUFIDX (ab_read s1))) = true)
    by (rewrite Hslot, Er; exact Hr).
  rewrite Hslot, Hr. cbn [fst]. rewrite <- Er.
  split.
  - exact (ring_inv_consume s1 Hr1 Hr').
  - exact Hf1.
Qed.

(** A turn of [buffer_get_frame] keeps the invariant. *)
Lemma player_inv_turn e s s' evs r :
  player_inv s -> buffer_get_frame_turn e s = Some (s', evs, r) -> player_inv s'.
Proof.
  intros Hinv. unfold buffer_get_frame_turn.
  pose proof (player_inv_same _ _ (timeout_check_same e s) Hinv) as H1.
  destruct (timeout_check e s) as [s1 evs1]. cbn [fst] in H1.
  pose proof (track_connection_inv e s1 H1) as H2.
  destruct (apply_flush_inv _ H2) as [H3 Hfilt].
  destruct (apply_flush (track_connection e s1)) as [s3 evs2]. cbn [fst] in H3, Hfilt.
  assert (Hdrain : exists s4 evs3,
            (if ab_synced s3
             then match flush_drain flush_drain_fuel 0 s3 with
                  | Some (s, _) => Some (buffering e s)
                  | None => None
                  end
             else Some (s3, [])) = Some (s4, evs3) /\ player_inv s4).
  { destruct (ab_synced s3) eqn:Hs3.
    - assert (Hf0 : flush_rtp_timestamp s3 = 0).
      { destruct (Z.eq_dec (flush_rtp_timestamp s3) 0) as [|Hne]; [assumption|].
        specialize (Hfilt Hne). congruence. }
      change flush_drain_fuel with (Z.to_nat (Z.succ 8822)).
      rewrite Z2Nat.inj_succ by lia.
      rewrite flush_drain_idle by (try apply H3; assumption).
      pose proof (buffering_inv e s3 H3) as H4.
      destruct (buffering e s3) as [s4 evs3]. exists s4, evs3. split; [reflexivity|exact H4].
    - exists s3, []. split; [reflexivity|exact H3]. }
  destruct Hdrain as (s4 & evs3 & -> & H4).
  destruct ((ab_buffering s4 || do_wait e s4 || negb (ab_synced s4)) && negb (please_stop s4))
    eqn:Hwait.
  - intros E. injection E as <- _ _. exact H4.
  - destruct (please_stop s4) eqn:Hstop.
    + intros E. injection E as <- _ _. exact H4.
    + rewrite andb_true_r in Hwait.
      apply orb_false_elim in Hwait as [Hwait _].
      apply orb_false_elim in Hwait as [_ Hdw].
      destruct (do_wait_false e s4 Hdw) as [_ Hready].
      pose proof (release_frame_inv s4 H4 Hready) as H5.
      destruct (release_frame s4) as [[s5 evs4] cur]. cbn [fst] in H5.
      intros E. injection E as <- _ _. exact H5.
Qed.

(** On a state that satisfies the invariant a turn always ends. *)
Lemma buffer_get_frame_turn_total e s :
  player_inv s -> exists res, buffer_get_frame_turn e s = Some res.
Proof.
  intros Hinv. unfold buffer_get_frame_turn.
  pose proof (player_inv_same _ _ (timeout_check_same e s) Hinv) as H1.
  destruct (timeout_check e s) as [s1 evs1]. cbn [fst] in H1.
  pose proof (track_connection_inv e s1 H1) as H2.
  destruct (apply_flush_inv _ H2) as [H3 Hfilt].
  destruct (apply_flush (track_connection e s1)) as [s3 evs2]. cbn [fst] in H3, Hfilt.
  destruct (ab_synced s3) eqn:Hs3.
  - assert (Hf0 : flush_rtp_timestamp s3 = 0).
    { destruct (Z.eq_dec (flush_rtp_timestamp s3) 0) as [|Hne]; [assumption|].
      specialize (Hfilt Hne). congruence. }
    change flush_drain_fuel with (Z.to_nat (Z.succ 8822)).
    rewrite Z2Nat.inj_succ by lia.
    rewrite flush_drain_idle by (try apply H3; assumption).
    destruct (buffering e s3) as [s4 evs3].
    destruct (_ && _); [eauto|]. destruct (please_stop s4); [eauto|].
    destruct (release_frame s4) as [[s5 evs4] cur]. eauto.
  - destruct (_ && _); [eauto|]. destruct (please_stop s3); [eauto|].
    destruct (release_frame s3) as [[s5 evs4] cur]. eauto.
Qed.

End ConsumerInvariant.

(** ** The ring distance and the frames handed over *)

(** Under the invariant the ordinate distance of the cursors is the
    wrapped difference. *)
Lemma ring_distance_inv s :
  ring_inv s -> ring_distance s = (ab_write s - ab_read s) mod 65536.
Proof.
  intros Hinv. pose proof (inv_distance s Hinv) as Hd. unfold BUFFER_FRAMES in Hd.
  unfold ring_distance, seq_diff. rewrite ORDINATE_anchor, ORDINATE_small; lia.
Qed.

(** In-order packets alone also pass the bound when nothing is consumed:
    the expected branch moves [ab_write] whatever the distance. *)
Lemma expected_packet_unbounded s seqno ts payload now :
  ring_inv s -> ab_synced s = true ->
  connection_state_to_output s <> 0 -> flush_rtp_timestamp s = 0 ->
  ab_write s = seqno -> ring_distance s = BUFFER_FRAMES ->
  ring_distance (fst (player_put_packet seqno ts payload now s)) = BUFFER_FRAMES + 1.
Proof.
  intros Hinv Hs Hc Hf Hw Hd. subst seqno.
  rewrite (ring_distance_inv s Hinv) in Hd. unfold BUFFER_FRAMES in *.
  rewrite player_put_packet_unfiltered by assumption. cbv zeta.
  unfold place_packet. proj_simpl. rewrite Hs, Z.eqb_refl. cbn [fst].
  unfold ring_distance, seq_diff, store_packet, update_slot. proj_simpl.
  rewrite ORDINATE_anchor.
  pose proof (mod_diff_succ_l (ab_read s) (ab_write s) ltac:(lia)) as Hsucc.
  rewrite ORDINATE_small; rewrite Hsucc; lia.
Qed.

(** The filler of [buffer_get_frame]: a head slot that is not ready when
    the frame is released is counted as missing, its PCM is zeroed and
    its [timestamp] is set to 0. *)
Lemma release_frame_filler s :
  length (audio_buffer s) = Z.to_nat BUFFER_FRAMES ->
  ready (slot s (BUFIDX (ab_read s))) = false ->
  let '(s', evs, cur) := release_frame s in
  cur = BUFIDX (ab_read s) /\
  missing_packets s' = to_uint64 (missing_packets s + 1) /\
  timestamp (slot s' cur) = 0 /\
  ready (slot s' cur) = false /\
  data (slot s' cur) =
    overwrite (data (slot s cur)) (replicate (FRAME_SHORTS (frame_size s)) 0) /\
  ab_read s' = SUCCESSOR (ab_read s).
Proof.
  intros Hlen Hr. unfold release_frame.
  assert (Hscan : exists n evs,
             (if ab_buffering s then (s, [])
              else resend_scan resend_scan_fuel 8 s) =
             (s <| resend_requests := n |>, evs)).
  { destruct (ab_buffering s).
    - exists (resend_requests s), []. destruct s; reflexivity.
    - pose proof (resend_scan_frame resend_scan_fuel 8 s) as H.
      destruct (resend_scan resend_scan_fuel 8 s) as [s1 evs]. cbn [fst] in H.
      rewrite H. eauto. }
  destruct Hscan as (n & evs & ->).
  change (slot (s <| resend_requests := n |>) (BUFIDX (ab_read s)))
    with (slot s (BUFIDX (ab_read s))).
  rewrite Hr.
  pose proof (BUFIDX_range (ab_read s)) as Hidx.
  assert (Hin : (Z.to_nat (BUFIDX (ab_read s)) < length (audio_buffer s))%nat)
    by (rewrite Hlen; unfold BUFFER_FRAMES; lia).
  split; [reflexivity|]. split; [reflexivity|].
  set (cur := BUFIDX (ab_read s)) in *.
  match goal with |- context [slot ?t cur] =>
    assert (E : slot t cur =
                (slot s cur)
                  <| data ::= fun d => overwrite d (replicate (FRAME_SHORTS (frame_size s)) 0) |>
                  <| timestamp := 0 |> <| ready := false |>) end.
  { unfold slot at 1. proj_simpl. unfold update_slot. proj_simpl.
    rewrite !list_lookup_alter_eq. unfold slot.
    destruct (lookup_lt_is_Some_2 (audio_buffer s) (Z.to_nat cur) Hin) as [a ->].
    reflexivity. }
  rewrite E. repeat split.
Qed.

(** A frame is only released when its slot is ready with a non-zero
    [timestamp]: within one turn the filler branch is not taken. *)
Lemma released_frame_ready e s s' evs cur :
  buffer_get_frame_turn e s = Some (s', evs, Frame cur) ->
  exists s4, ab_synced s4 = true /\ ab_buffering s4 = false /\
             ready (slot s4 (BUFIDX (ab_read s4))) = true /\
             timestamp (slot s4 (BUFIDX (ab_read s4))) <> 0 /\
             release_frame s4 = (s', snd (fst (release_frame s4)), cur).
Proof.
  unfold buffer_get_frame_turn.
  destruct (timeout_check e s) as [s1 evs1].
  destruct (apply_flush (track_connection e s1)) as [s3 evs2].
  match goal with |- context [match ?x with Some _ => _ | None => _ end = _] =>
    destruct x as [[s4 evs3]|] end; [|discriminate].
  destruct (ab_buffering s4) eqn:Hb; cbn [orb andb].
  - destruct (please_stop s4); cbn [negb]; discriminate.
  - destruct (do_wait e s4) eqn:Hdw; cbn [orb andb].
    + destruct (please_stop s4); cbn [negb]; discriminate.
    + destruct (ab_synced s4) eqn:Hs; cbn [negb andb];
        destruct (please_stop s4); cbn [negb]; try discriminate.
      destruct (release_frame s4) as [[s5 evs4] cur'] eqn:Hrel.
      intros E. injection E as <- _ <-.
      exists s4. unfold do_wait in Hdw. rewrite Hs in Hdw. cbn [andb] in Hdw.
      destruct (ready (slot s4 (BUFIDX (ab_read s4)))) eqn:Hr; [|discriminate].
      cbn [andb] in Hdw.
      destruct (Z.eqb_spec (timestamp (slot s4 (BUFIDX (ab_read s4)))) 0) as [|Hne];
        [discriminate|].
      repeat split; try assumption. now rewrite Hrel.
Qed.

(** ** The sync loop and the ring *)

Lemma play_stuffed_view e inbuf stuff b l s :
  ring_view (fst (fst (play_stuffed e inbuf stuff b l s))) = ring_view s.
Proof.
  unfold play_stuffed. destruct (stuff_buffer_basic _ _ _ _ _ _ _). reflexivity.
Qed.

Lemma check_resync_view nt sync_err cur l s :
  ring_view (fst (check_resync nt sync_err cur l s)) = ring_view s.
Proof.
  unfold check_resync. destruct (_ && _); [|reflexivity].
  destruct (3 <? _); reflexivity.
Qed.

Lemma play_synced_view e cur inbuf td rt nt l s :
  ring_view (fst (fst (fst (fst (play_synced e cur inbuf td rt nt l s))))) = ring_view s.
Proof.
  unfold play_synced. cbv zeta.
  match goal with |- context [if ?c && ?d then (s, ?l', ?p) else ?q] =>
    assert (E : ring_view (fst (fst (if c && d then (s, l', p) else q))) = ring_view s)
      by (destruct (c && d); [reflexivity|apply play_stuffed_view]);
    destruct (if c && d then (s, l', p) else q) as [[s1 l1] evs1] end.
  cbn [fst] in E.
  pose proof (check_resync_view nt
                (to_int64
                   (to_int64
                      (to_int64 (td + rt) -
                       to_int64 (nt - (if pe_current_delay e =? -1 then 0
                                       else pe_current_delay e))) -
                    latency (config s))) cur l1 s1) as E2.
  destruct (check_resync _ _ cur l1 s1) as [s2 l2]. cbn [fst] in *. congruence.
Qed.

Lemma play_unsynced_view e inbuf l s :
  ring_view (fst (fst (fst (fst (play_unsynced e inbuf l s))))) = ring_view s.
Proof.
  unfold play_unsynced.
  pose proof (play_stuffed_view e inbuf 0 false l s) as E.
  destruct (fix_volume s =? 65536); [reflexivity|].
  destruct (play_stuffed e inbuf 0 false l s) as [[s1 l1] evs1]. exact E.
Qed.

(** Playing a frame only touches the ring through the slot it was
    handed, whose [ready] flag it leaves as it is. *)
Lemma play_frame_ring e cur l s :
  let s' := fst (fst (fst (play_frame e cur l s))) in
  ab_read s' = ab_read s /\ ab_write s' = ab_write s /\ ab_synced s' = ab_synced s /\
  length (audio_buffer s') = length (audio_buffer s) /\
  (forall j, 0 <= j -> 0 <= cur -> j <> cur -> slot s' j = slot s j) /\
  ready (slot s' cur) = ready (slot s cur).
Proof.
  cbv zeta. unfold play_frame.
  destruct (timestamp (slot s cur) =? 0).
  { cbn [fst]. repeat split. }
  match goal with |- context [if output_has_delay ?c then ?a else ?b] =>
    assert (E : ring_view (fst (fst (fst (fst (if output_has_delay c then a else b)))))
                = ring_view s)
      by (destruct (output_has_delay c);
          [rewrite play_synced_view|rewrite play_unsynced_view]; reflexivity);
    destruct (if output_has_delay c then a else b) as [[[[s1 l1] evs1] se] am] end.
  cbn [fst] in *. unfold ring_view in E. injection E as Eb Er Ew Es.
  split; [exact Er|]. split; [exact Ew|]. split; [exact Es|].
  unfold slot, update_slot. proj_simpl. rewrite length_alter, Eb.
  split; [reflexivity|]. split.
  - intros j Hj Hc Hne. rewrite list_lookup_alter_ne by lia. reflexivity.
  - rewrite list_lookup_alter_eq. destruct (audio_buffer s !! Z.to_nat cur); reflexivity.
Qed.

(** So the sync loop keeps the ring invariant as long as the slot of the
    frame it plays has not been filled again. *)
Lemma play_frame_ring_inv e cur l s :
  0 <= cur -> ready (slot s cur) = false ->
  ring_inv s -> ring_inv (fst (fst (fst (play_frame e cur l s)))).
Proof.
  intros Hc Hnr Hinv.
  destruct (play_frame_ring e cur l s) as (Er & Ew & Es & El & Hj & Hcur).
  cbv zeta in *. set (s' := fst (fst (fst (play_frame e cur l s)))) in *.
  constructor; rewrite ?Er, ?Ew, ?Es, ?El; try apply Hinv.
  intros j Hjr. destruct (Z.eq_dec j cur) as [->|Hne].
  - rewrite Hcur, Hnr. discriminate.
  - rewrite Hj by lia. apply (inv_slots s Hinv j Hjr).
Qed.

(** A frame with a non-zero [timestamp] does go through the sync
    computation and enters the statistics. *)
Lemma play_frame_real_frame e cur l s :
  timestamp (slot s cur) <> 0 ->
  exists d, snd (play_frame e cur l s) = Some d.
Proof.
  intros Hts. unfold play_frame.
  destruct (Z.eqb_spec (timestamp (slot s cur)) 0); [contradiction|].
  match goal with |- context [if output_has_delay ?c then ?a else ?b] =>
    destruct (if output_has_delay c then a else b) as [[[[s1 l1] evs1] se] am] end.
  cbn [snd]. eauto.
Qed.

(** ** Reachable states *)

Section RingOnly.

Lemma admitted_split s ts :
  admitted s ts = true ->
  connection_state_to_output s <> 0 /\ flush_filtered s ts = false.
Proof.
  unfold admitted. intros H. apply andb_true_iff in H as [H1 H2].
  split.
  - intros E. rewrite E in H1. discriminate.
  - now apply negb_true_iff.
Qed.

Lemma player_put_packet_admitted seqno ts payload now s :
  admitted s ts = true ->
  player_put_packet seqno ts payload now s =
  let '(s2, abuf, evs) := place_packet seqno (admitted_state now s) in
  match abuf with
  | Some i => (store_packet seqno ts payload i s2, evs)
  | None => (s2, evs)
  end.
Proof.
  intros H. destruct (admitted_split s ts H) as [Hc Hf].
  now rewrite player_put_packet_passed.
Qed.


(** The ring invariant does not depend on the flush state: every part of
    a turn keeps it whatever [flush_requested] and [flush_rtp_timestamp]
    hold. *)

Lemma ring_view_track_connection e s :
  ring_view (track_connection e s) = ring_view s.
Proof.
  unfold track_connection. destruct (_ =? _); [reflexivity|].
  proj_simpl. destruct (_ =? _); reflexivity.
Qed.

Lemma ring_inv_apply_flush s : ring_inv s -> ring_inv (fst (apply_flush s)).
Proof.
  intros H. unfold apply_flush. destruct (flush_requested s); cbn [fst]; [|exact H].
  eapply ring_inv_view; [|apply ring_inv_ab_resync; exact H]. reflexivity.
Qed.

Lemma ring_inv_turn_head e s : ring_inv s -> ring_inv (fst (turn_head e s)).
Proof.
  intros H. unfold turn_head.
  pose proof (timeout_check_same e s) as (Ev & _ & _).
  destruct (timeout_check e s) as [s1 evs1]. cbn [fst] in Ev.
  assert (H2 : ring_inv (track_connection e s1)).
  { eapply ring_inv_view; [|exact H]. rewrite ring_view_track_connection. exact Ev. }
  apply ring_inv_apply_flush in H2.
  destruct (apply_flush (track_connection e s1)) as [s3 evs2]. exact H2.
Qed.

Lemma ring_inv_player_flush ts s : ring_inv s -> ring_inv (player_flush ts s).
Proof. apply ring_inv_view. reflexivity. Qed.

(** One turn of the inner loop: on a ring that satisfies the invariant
    the head frame, if ready, is the one [ab_read] names, so the only
    change is that it may be dropped. *)
Lemma ring_inv_flush_drain_body fl s :
  ring_inv s -> ring_inv (fst (flush_drain_body (BUFIDX (ab_read s)) fl s)).
Proof.
  intros H. unfold flush_drain_body.
  destruct (ready (slot s (BUFIDX (ab_read s)))) eqn:Hr; [|exact H].
  destruct (head_frame s H Hr) as (E & _ & _). rewrite E, Z.eqb_refl. cbn [negb].
  pose proof (ring_inv_consume s H Hr) as Hc.
  destruct (negb (flush_rtp_timestamp s =? 0) &&
            ((timestamp (slot s (BUFIDX (ab_read s))) =? flush_rtp_timestamp s)
             || seq32_order (timestamp (slot s (BUFIDX (ab_read s))))
                  (flush_rtp_timestamp s))).
  - match goal with |- context [if ?c then _ else _] => destruct c end; cbn [fst].
    + eapply ring_inv_view; [|exact Hc]. reflexivity.
    + exact Hc.
  - match goal with |- context [if ?c then _ else _] => destruct c end; cbn [fst].
    + eapply ring_inv_view; [|exact H]. reflexivity.
    + exact H.
Qed.

Lemma ring_inv_flush_drain fuel : forall fl s s' fl',
  ring_inv s -> flush_drain fuel fl s = Some (s', fl') -> ring_inv s'.
Proof.
  induction fuel as [|fuel IH]; intros fl s s' fl' H; [discriminate|].
  cbn [flush_drain].
  pose proof (ring_inv_flush_drain_body fl s H) as Hb.
  destruct (flush_drain_body (BUFIDX (ab_read s)) fl s) as [s1 fl1]. cbn [fst] in Hb.
  destruct (_ && _ && _).
  - intros E. eapply IH; eassumption.
  - intros E. injection E as <- _. exact Hb.
Qed.

Lemma ring_view_first_packet e cf s : ring_view (first_packet e cf s) = ring_view s.
Proof.
  unfold first_packet. destruct (_ =? _); [|reflexivity].
  destruct (negb _); [|reflexivity]. proj_simpl.
  destruct (_ <=? _); reflexivity.
Qed.

Lemma ring_inv_abandon_start b s : ring_inv s -> ring_inv (fst (abandon_start b s)).
Proof.
  intros H. unfold abandon_start. cbn [fst].
  eapply ring_inv_view; [|apply ring_inv_ab_resync; exact H].
  destruct b; reflexivity.
Qed.

Lemma ring_inv_lead_in e s : ring_inv s -> ring_inv (fst (lead_in e s)).
Proof.
  intros H. unfold lead_in.
  destruct (negb _); [|exact H].
  destruct (_ <=? local_time_now e); [apply ring_inv_abandon_start; exact H|].
  cbv zeta.
  match goal with |- context [if ?c then abandon_start false s else _] => destruct c end;
    [apply ring_inv_abandon_start; exact H|].
  match goal with |- context [if ?c || ?d then _ else _] => destruct (c || d) end;
    cbn [fst]; proj_simpl.
  - eapply ring_inv_view; [|exact H]. reflexivity.
  - destruct (ab_buffering s); cbn [fst];
      (eapply ring_inv_view; [|exact H]); reflexivity.
Qed.

Lemma ring_inv_buffering e s : ring_inv s -> ring_inv (fst (buffering e s)).
Proof.
  intros H. unfold buffering.
  destruct (_ && _); [|exact H].
  apply ring_inv_lead_in. eapply ring_inv_view; [|exact H].
  apply ring_view_first_packet.
Qed.

(** Handing over a head frame that is ready. *)
Lemma release_frame_ready s :
  length (audio_buffer s) = Z.to_nat BUFFER_FRAMES ->
  ready (slot s (BUFIDX (ab_read s))) = true ->
  let '(s', evs, cur) := release_frame s in
  cur = BUFIDX (ab_read s) /\
  slot s' cur = (slot s cur) <| ready := false |> /\
  (forall j, 0 <= j -> j <> cur -> slot s' j = slot s j) /\
  ab_read s' = SUCCESSOR (ab_read s) /\
  missing_packets s' = missing_packets s.
Proof.
  intros Hlen Hr. unfold release_frame.
  assert (Hscan : exists s1 evs,
             (if ab_buffering s then (s, [])
              else resend_scan resend_scan_fuel 8 s) = (s1, evs) /\
             s1 = s <| resend_requests := resend_requests s1 |>).
  { destruct (ab_buffering s).
    - exists s, []. split; [reflexivity|]. destruct s; reflexivity.
    - pose proof (resend_scan_frame resend_scan_fuel 8 s) as H.
      destruct (resend_scan resend_scan_fuel 8 s) as [s1 evs].
      exists s1, evs. split; [reflexivity|exact H]. }
  destruct Hscan as (s1 & evs & -> & E1).
  assert (Hslot : forall j, slot s1 j = slot s j) by (intros j; rewrite E1; reflexivity).
  assert (Hlen1 : length (audio_buffer s1) = Z.to_nat BUFFER_FRAMES)
    by (rewrite E1; exact Hlen).
  assert (Hrd : ab_read s1 = ab_read s) by (rewrite E1; reflexivity).
  assert (Hmp : missing_packets s1 = missing_packets s) by (rewrite E1; reflexivity).
  rewrite Hslot, Hr.
  pose proof (BUFIDX_range (ab_read s)) as Hidx.
  split; [reflexivity|]. split.
  { change (slot (?t <| ab_read := ?x |>) ?j) with (slot t j).
    rewrite slot_update_slot_eq by (rewrite Hlen1; unfold BUFFER_FRAMES; lia).
    now rewrite Hslot. }
  split.
  { intros j Hj Hne. change (slot (?t <| ab_read := ?x |>) ?k) with (slot t k).
    rewrite slot_update_slot_ne by lia. apply Hslot. }
  split.
  { proj_simpl. unfold update_slot. proj_simpl. now rewrite Hrd. }
  unfold update_slot. proj_simpl. exact Hmp.
Qed.


Lemma ring_inv_release_frame s :
  ring_inv s -> ready (slot s (BUFIDX (ab_read s))) = true ->
  ring_inv (fst (fst (release_frame s))).
Proof.
  intros Hinv Hr. unfold release_frame.
  assert (Hscan : exists s1 evs,
             (if ab_buffering s then (s, [])
              else resend_scan resend_scan_fuel 8 s) = (s1, evs) /\ same_ring s s1).
  { destruct (ab_buffering s).
    - exists s, []. split; [reflexivity|apply same_ring_refl].
    - pose proof (resend_scan_same resend_scan_fuel 8 s) as H.
      destruct (resend_scan resend_scan_fuel 8 s) as [s1 evs].
      exists s1, evs. split; [reflexivity|exact H]. }
  destruct Hscan as (s1 & evs & -> & Hsame).
  destruct Hsame as (Ev & _ & _).
  pose proof (ring_inv_view _ _ Ev Hinv) as Hr1.
  unfold ring_view in Ev. injection Ev as Eb Er Ew Es.
  assert (Hslot : forall j, slot s1 j = slot s j).
  { intros j. unfold slot. now rewrite Eb. }
  assert (Hr' : ready (slot s1 (BUFIDX (ab_read s1))) = true)
    by (rewrite Hslot, Er; exact Hr).
  rewrite Hslot, Hr. cbn [fst]. rewrite <- Er.
  exact (ring_inv_consume s1 Hr1 Hr').
Qed.

(** The rest of a turn keeps the ring invariant, and the slot it hands
    over is not ready. *)
Lemma ring_inv_turn_tail e s s' evs r :
  ring_inv s -> turn_tail e s = Some (s', evs, r) ->
  ring_inv s' /\ held_inv s' (held_after r).
Proof.
  intros H. unfold turn_tail.
  assert (Hd : forall s4 evs3,
            (if ab_synced s
             then match flush_drain flush_drain_fuel 0 s with
                  | Some (s, _) => Some (buffering e s)
                  | None => None
                  end
             else Some (s, [])) = Some (s4, evs3) -> ring_inv s4).
  { intros s4 evs3. destruct (ab_synced s).
    - destruct (flush_drain flush_drain_fuel 0 s) as [[sd fl]|] eqn:Ed; [|discriminate].
      pose proof (ring_inv_flush_drain _ _ _ _ _ H Ed) as H4.
      pose proof (ring_inv_buffering e sd H4) as H5.
      destruct (buffering e sd) as [sb evb]. cbn [fst] in H5.
      intros E. injection E as <- _. exact H5.
    - intros E. injection E as <- _. exact H. }
  match goal with |- context [match ?x with Some _ => _ | None => _ end = _] =>
    destruct x as [[s4 evs3]|] end; [|discriminate].
  specialize (Hd s4 evs3 eq_refl).
  destruct ((ab_buffering s4 || do_wait e s4 || negb (ab_synced s4)) && negb (please_stop s4))
    eqn:Hwait.
  - intros E. injection E as <- _ <-. split; [exact Hd|]. intros cur Hc. discriminate Hc.
  - destruct (please_stop s4) eqn:Hstop.
    + intros E. injection E as <- _ <-. split; [exact Hd|]. intros cur Hc. discriminate Hc.
    + rewrite andb_true_r in Hwait.
      apply orb_false_elim in Hwait as [Hwait _].
      apply orb_false_elim in Hwait as [_ Hdw].
      destruct (do_wait_false e s4 Hdw) as [_ Hready].
      pose proof (ring_inv_release_frame s4 Hd Hready) as H5.
      pose proof (release_frame_ready s4 (inv_length _ Hd) Hready) as H6.
      destruct (release_frame s4) as [[s5 evs4] cur]. cbn [fst] in H5.
      intros E. injection E as <- _ <-. split; [exact H5|].
      intros c Hc. injection Hc as <-.
      destruct H6 as (-> & Hslot & _).
      pose proof (BUFIDX_range (ab_read s4)). split; [lia|].
      rewrite Hslot. reflexivity.
Qed.

Lemma ring_inv_turn_flushed e mid s s' evs r :
  ring_inv s -> buffer_get_frame_turn_flushed e mid s = Some (s', evs, r) ->
  ring_inv s' /\ held_inv s' (held_after r).
Proof.
  intros H. unfold buffer_get_frame_turn_flushed.
  pose proof (ring_inv_turn_head e s H) as H1.
  destruct (turn_head e s) as [s1 evs1]. cbn [fst] in H1.
  assert (H2 : ring_inv match mid with Some ts => player_flush ts s1 | None => s1 end).
  { destruct mid; [apply ring_inv_player_flush|]; exact H1. }
  destruct (turn_tail e _) as [[[s2 evs2] r2]|] eqn:Et; [|discriminate].
  intros E. injection E as <- _ <-.
  eapply ring_inv_turn_tail; eassumption.
Qed.

(** A turn into which no flush lands is [buffer_get_frame_turn]. *)
Lemma buffer_get_frame_turn_flushed_none e s :
  buffer_get_frame_turn_flushed e None s = buffer_get_frame_turn e s.
Proof.
  unfold buffer_get_frame_turn_flushed, buffer_get_frame_turn, turn_head, turn_tail.
  destruct (timeout_check e s) as [s1 evs1].
  destruct (apply_flush (track_connection e s1)) as [s3 evs2].
  match goal with |- context [if ab_synced s3 then ?a else ?b] =>
    destruct (if ab_synced s3 then a else b) as [[s4 evs3]|] end; [|reflexivity].
  destruct (_ && _); [now rewrite <- app_assoc|].
  destruct (please_stop s4); [now rewrite <- app_assoc|].
  destruct (release_frame s4) as [[s5 evs4] cur]. now rewrite <- !app_assoc.
Qed.

(** [player_put_packet] keeps the ring invariant for a packet that is
    not too far ahead, whatever the flush state. *)
Lemma ring_inv_put seqno ts payload now s :
  ring_inv s -> is_uint16 seqno ->
  (admitted s ts = true -> ab_synced s = true ->
   ORDINATE (ab_read s) seqno < BUFFER_FRAMES) ->
  ring_inv (fst (player_put_packet seqno ts payload now s)).
Proof.
  intros Hr Hseq Hp.
  set (s1 := s <| packet_count ::= fun n => to_uint64 (n + 1) |>
               <| time_of_last_audio_packet := now |>).
  assert (H1 : ring_inv s1) by (eapply ring_inv_view; [|exact Hr]; reflexivity).
  destruct (Z.eq_dec (connection_state_to_output s) 0) as [Hc|Hc].
  - unfold player_put_packet. proj_simpl. rewrite Hc. exact H1.
  - destruct (flush_filtered s ts) eqn:Hfilt.
    + rewrite player_put_packet_filtered by assumption. exact H1.
    + rewrite player_put_packet_passed by assumption. cbv zeta.
      set (s1f := s <| packet_count ::= fun n => to_uint64 (n + 1) |>
                    <| time_of_last_audio_packet := now |>
                    <| flush_rtp_timestamp := 0 |>).
      assert (Hr1 : ring_inv s1f) by (eapply ring_inv_view; [|exact Hr]; reflexivity).
      assert (Hp1 : ab_synced s1f = true -> ORDINATE (ab_read s1f) seqno < BUFFER_FRAMES).
      { apply Hp. unfold admitted. rewrite Hfilt.
        destruct (Z.eqb_spec (connection_state_to_output s) 0); [contradiction|reflexivity]. }
      pose proof (ring_inv_place seqno ts payload s1f Hr1 Hseq Hp1) as P.
      destruct (place_packet seqno s1f) as [[s2 abuf] evs]. cbv zeta in P.
      destruct P as (P1 & _ & _). destruct abuf; exact P1.
Qed.

(** [player_put_packet] makes no slot ready but the one of its packet. *)
Lemma put_ready_slot seqno ts payload now s j :
  length (audio_buffer s) = Z.to_nat BUFFER_FRAMES -> 0 <= j ->
  ready (slot (fst (player_put_packet seqno ts payload now s)) j) = true ->
  ready (slot s j) = true \/ (admitted s ts = true /\ j = BUFIDX seqno).
Proof.
  intros Hlen Hj.
  destruct (admitted s ts) eqn:Hadm.
  - destruct (Z.eq_dec j (BUFIDX seqno)) as [->|Hne]; [intros _; right; split; reflexivity|].
    rewrite player_put_packet_admitted by assumption.
    pose proof (BUFIDX_range seqno) as Hidx.
    unfold place_packet, admitted_state. proj_simpl.
    set (t := if ab_synced s then _ else _).
    assert (Ht : forall k, slot t k = slot s k).
    { intros k. subst t. destruct (ab_synced s); reflexivity. }
    assert (Hlt : length (audio_buffer t) = Z.to_nat BUFFER_FRAMES).
    { subst t. destruct (ab_synced s); exact Hlen. }
    destruct (ab_write t =? seqno).
    { cbn [fst]. rewrite store_packet_slot_ne by lia.
      change (slot (t <| ab_write := SUCCESSOR seqno |>) j) with (slot t j).
      rewrite Ht. intros H; left; exact H. }
    destruct (seq_order (ab_read t) (ab_write t) seqno).
    { cbn [fst]. rewrite store_packet_slot_ne by lia.
      match goal with |- context [zero_gap ?gn ?gi ?gw t] =>
        change (slot ((zero_gap gn gi gw t)
                        <| resend_requests ::= fun c => to_uint64 (c + 1) |>
                        <| ab_write := SUCCESSOR seqno |>) j)
          with (slot (zero_gap gn gi gw t) j);
        rewrite (zero_gap_slot gn gi gw t j Hlt Hj);
        destruct (gap_hits gn gi gw j)
      end.
      - unfold clear_slot. cbn. discriminate.
      - rewrite Ht. intros H; left; exact H. }
    destruct (seq_order (ab_read t) (ab_read t) seqno).
    { cbn [fst]. rewrite store_packet_slot_ne by lia.
      change (slot (t <| late_packets ::= fun n => to_uint64 (n + 1) |>) j) with (slot t j).
      rewrite Ht. intros H; left; exact H. }
    cbn [fst].
    change (slot (t <| too_late_packets ::= fun n => to_uint64 (n + 1) |>) j) with (slot t j).
    rewrite Ht. intros H; left; exact H.
  - assert (E : forall k, slot (fst (player_put_packet seqno ts payload now s)) k = slot s k).
    { intros k. unfold admitted in Hadm. unfold player_put_packet. proj_simpl.
      destruct (Z.eqb_spec (connection_state_to_output s) 0); [reflexivity|].
      cbn [negb andb] in Hadm. apply negb_false_iff in Hadm.
      unfold flush_filtered in Hadm |- *. proj_simpl. rewrite Hadm. reflexivity. }
    rewrite E. intros H; left; exact H.
Qed.

End RingOnly.

(** Every state reached with paced packets satisfies the ring invariant,
    and the slot the player loop holds is not ready. *)
Lemma reachable_ring_inv fs dec cfg conn s h :
  reachable paced (player_play fs dec cfg conn) s h -> ring_inv s /\ held_inv s h.
Proof.
  induction 1 as [|s h seqno ts payload now _ [IH IHh] Hseq Hp
                  |s h ts _ [IH IHh]
                  |s e mid s' evs r _ [IH _] Hturn
                  |s cur e l _ [IH IHh]].
  - split; [apply ring_inv_player_play|]. intros cur Hc. discriminate Hc.
  - split.
    + apply ring_inv_put; [assumption|assumption|]. intros Hadm. apply (Hp Hadm).
    + intros cur Hc. destruct (IHh cur Hc) as [Hcur Hnr]. split; [exact Hcur|].
      destruct (ready (slot (fst (player_put_packet seqno ts payload now s)) cur)) eqn:Hr;
        [|reflexivity].
      apply put_ready_slot in Hr; [|apply (inv_length _ IH)|exact Hcur].
      destruct Hr as [Hr|[Hadm ->]]; [congruence|].
      destruct (Hp Hadm) as [_ Hne]. contradiction.
  - split; [apply ring_inv_player_flush; exact IH|].
    intros cur Hc. exact (IHh cur Hc).
  - eapply ring_inv_turn_flushed; eassumption.
  - destruct (IHh cur eq_refl) as [Hcur Hnr].
    split; [apply play_frame_ring_inv; assumption|].
    intros c Hc. discriminate Hc.
Qed.

(** C1 (as amended). In every state reached after [player_play] by
    calls of [player_put_packet], calls of [player_flush], turns of
    [buffer_get_frame] (into which a flush may land) and the player
    loop's processing of each frame handed over, provided each admitted
    packet is fewer than [BUFFER_FRAMES] slots ahead of [ab_read] on a
    synced ring and does not map to the slot the player loop holds, the
    cursor distance [ab_write - ab_read] in the ordinate order is
    between 0 and [BUFFER_FRAMES]. *)
Theorem C1_ring_distance_bound (fs : Z) (dec : list Z -> list Z) (cfg : config_t)
  (conn : Z) (s : player) (held : option Z) :
  reachable paced (player_play fs dec cfg conn) s held ->
  0 <= ring_distance s <= BUFFER_FRAMES.
Proof.
  intros Hreach. destruct (reachable_ring_inv _ _ _ _ _ _ Hreach) as [Hinv _].
  rewrite (ring_distance_inv s Hinv).
  pose proof (inv_distance s Hinv).
  pose proof (Z.mod_pos_bound (ab_write s - ab_read s) 65536 ltac:(lia)). lia.
Qed.

Lemma reach_turn_state guard s0 s e mid :
  reachable guard s0 s None ->
  reachable guard s0 (turn_state e mid s) (turn_held e mid s).
Proof.
  intros R. unfold turn_state, turn_held.
  destruct (buffer_get_frame_turn_flushed e mid s) as [[[s' evs] r]|] eqn:E; [|exact R].
  exact (reach_turn _ _ _ _ _ _ _ _ R E).
Qed.

Lemma reachable_two_packets : reachable paced sample_player two_packets None.
Proof.
  apply reach_put; [apply reach_put; [apply reach_start| |]| |].
  - vm_compute. split; congruence.
  - intros _. split; [intros H; vm_compute in H; discriminate H|discriminate].
  - vm_compute. split; congruence.
  - intros _. split; [intros _; vm_compute; reflexivity|discriminate].
Qed.

Lemma C1_ring_distance_bound_witness :
  turn_held due_tick None two_packets = Some 100 /\
  0 <= ring_distance played_state <= BUFFER_FRAMES.
Proof.
  assert (E : turn_held due_tick None two_packets = Some 100)
    by (vm_compute; reflexivity).
  split; [exact E|].
  apply (C1_ring_distance_bound 4 (fun p => p) sample_config 1 played_state None).
  unfold played_state. apply reach_play. rewrite <- E.
  apply reach_put; [apply reach_turn_state; exact reachable_two_packets| |].
  - vm_compute. split; congruence.
  - intros _. split; [intros _; vm_compute; reflexivity|].
    rewrite E. vm_compute. discriminate.
Defined.

(** C1, as stated, fails: nothing in [player_put_packet] bounds how far
    a newer packet moves [ab_write]. The ring syncs at 0; packet 1000
    then leaves the cursors 1001 apart. *)
Lemma C1_ring_distance_counterexample :
  ~ (forall s held, reachable unpaced sample_player s held ->
                    ring_distance s <= BUFFER_FRAMES).
Proof.
  intros H.
  specialize (H (fst (player_put_packet 1000 353000 (sample_payload 2) 8
                   (fst (player_put_packet 0 1000 (sample_payload 1) 7 sample_player))))
                None).
  assert (R : reachable unpaced sample_player
                (fst (player_put_packet 1000 353000 (sample_payload 2) 8
                   (fst (player_put_packet 0 1000 (sample_payload 1) 7 sample_player))))
                None).
  { apply reach_put; [apply reach_put; [apply reach_start| |]| |];
      try exact I; vm_compute; split; congruence. }
  specialize (H R). vm_compute in H. apply H. reflexivity.
Qed.

(** ** Pacing alone *)

Lemma paced_aheadb_spec s h seqno ts :
  paced_aheadb s seqno ts = true -> paced_ahead s h seqno ts.
Proof.
  unfold paced_aheadb, paced_ahead. intros H Hadm Hs. rewrite Hadm, Hs in H.
  cbn [negb orb] in H. now apply Z.ltb_lt.
Qed.

Lemma run_op_reachable s0 o s h l s' h' l' :
  reachable paced_ahead s0 s h ->
  run_op o (s, h, l) = Some (s', h', l') ->
  reachable paced_ahead s0 s' h'.
Proof.
  intros R. destruct o as [seqno ts payload now|ts|e mid|e]; cbn [run_op].
  - destruct (Z.leb_spec 0 seqno); [|discriminate].
    destruct (Z.ltb_spec seqno 65536); [|discriminate]. cbn [andb].
    destruct (paced_aheadb s seqno ts) eqn:Hp; [|discriminate].
    intros E. injection E as <- <- _.
    apply reach_put; [exact R|unfold is_uint16; lia|].
    now apply paced_aheadb_spec.
  - intros E. injection E as <- <- _. now apply reach_flush.
  - destruct h; [discriminate|].
    destruct (buffer_get_frame_turn_flushed e mid s) as [[[s1 evs] r]|] eqn:Et;
      [|discriminate].
    intros E. injection E as <- <- _. eapply reach_turn; eassumption.
  - destruct h as [cur|]; [|discriminate].
    pose proof (reach_play _ _ _ cur e l R) as R'.
    destruct (play_frame e cur l s) as [[[s1 l1] evs] d]. cbn [fst] in R'.
    intros E. injection E as <- <- _. exact R'.
Qed.

Lemma run_reachable s0 ops : forall s h l,
  reachable paced_ahead s0 s h ->
  reachable paced_ahead s0 (run_state ops (s, h, l)) (run_held ops (s, h, l)).
Proof.
  unfold run_state, run_held.
  induction ops as [|o ops IH]; intros s h l R; [exact R|].
  cbn [run]. destruct (run_op o (s, h, l)) as [[[s1 h1] l1]|] eqn:E; [|exact R].
  specialize (IH s1 h1 l1 (run_op_reachable _ _ _ _ _ _ _ _ R E)).
  destruct (run ops (s1, h1, l1)) as [[[s2 h2] l2]|]; [exact IH|exact R].
Qed.

(** Keeping every packet fewer than [BUFFER_FRAMES] slots ahead of
    [ab_read] does not keep the bound by itself. The run of
    [overrun_script] is paced in that sense; the packet that lands in
    the slot the loop holds has its sequence number zeroed by the loop
    (lines 1099-1100), the inner loop of a later turn takes the slot for
    an aliased frame and moves [ab_read] to 0, and the cursors end up
    65025 apart. *)
Lemma pacing_alone_overruns :
  let st := (sample_player, None, loop_start 4) in
  reachable paced_ahead sample_player
    (run_state overrun_script st) (run_held overrun_script st) /\
  ab_read (run_state overrun_script st) = 0 /\
  ab_write (run_state overrun_script st) = 65025 /\
  ring_distance (run_state overrun_script st) = -511.
Proof.
  split; [apply run_reachable, reach_start|].
  vm_compute. repeat split.
Qed.

(** * Part III: further properties of the code *)

(** ** Sequence arithmetic *)

(** X1. On 16-bit sequence numbers [PREDECESSOR] and [SUCCESSOR] undo
    each other, wrap-around included, and both stay 16-bit. *)
Theorem successor_predecessor_round_trip (x : Z) :
  is_uint16 x ->
  PREDECESSOR (SUCCESSOR x) = x /\ SUCCESSOR (PREDECESSOR x) = x /\
  is_uint16 (SUCCESSOR x) /\ is_uint16 (PREDECESSOR x) /\
  (x = 65535 -> SUCCESSOR x = 0) /\ (x = 0 -> PREDECESSOR x = 65535).
Proof.
  unfold is_uint16. intros Hx. rewrite !PREDECESSOR_mod, !SUCCESSOR_mod.
  repeat split; try (intros ->; reflexivity); Z.div_mod_to_equations; lia.
Qed.

Lemma successor_predecessor_round_trip_witness :
  PREDECESSOR (SUCCESSOR 65535) = 65535 /\ SUCCESSOR (PREDECESSOR 65535) = 65535 /\
  is_uint16 (SUCCESSOR 65535) /\ is_uint16 (PREDECESSOR 65535) /\
  (65535 = 65535 -> SUCCESSOR 65535 = 0) /\ (65535 = 0 -> PREDECESSOR 65535 = 65535).
Proof. apply (successor_predecessor_round_trip 65535). unfold is_uint16. lia. Defined.

Lemma ORDINATE_inj r a b :
  is_uint16 a -> is_uint16 b -> ORDINATE r a = ORDINATE r b -> a = b.
Proof.
  intros Ha Hb. rewrite !ORDINATE_mod. intros E.
  apply (mod_diff_inj r); try assumption.
  pose proof (Z.mod_pos_bound (a - r) 65536 ltac:(lia)).
  pose proof (Z.mod_pos_bound (b - r) 65536 ltac:(lia)).
  destruct (Z.leb_spec 32767 ((a - r) mod 65536));
    destruct (Z.leb_spec 32767 ((b - r) mod 65536)); lia.
Qed.

(** X2. For a fixed anchor [ab_read], [seq_order] is a strict total
    order on 16-bit sequence numbers: irreflexive, asymmetric,
    transitive, and any two distinct sequence numbers are ordered one
    way or the other. *)
Theorem seq_order_strict_total (ab_read a b c : Z) :
  is_uint16 a -> is_uint16 b -> is_uint16 c ->
  seq_order ab_read a a = false /\
  (seq_order ab_read a b = true -> seq_order ab_read b a = false) /\
  (seq_order ab_read a b = true -> seq_order ab_read b c = true ->
   seq_order ab_read a c = true) /\
  (a <> b -> seq_order ab_read a b = true \/ seq_order ab_read b a = true).
Proof.
  intros Ha Hb Hc. unfold seq_order. split; [|split; [|split]].
  - rewrite Z.sub_diag. reflexivity.
  - intros H. apply Z.ltb_lt in H. apply Z.ltb_ge. lia.
  - intros H1 H2. apply Z.ltb_lt in H1, H2. apply Z.ltb_lt. lia.
  - intros Hne.
    assert (ORDINATE ab_read a <> ORDINATE ab_read b)
      by (intros E; apply Hne; eapply ORDINATE_inj; eassumption).
    destruct (Z.lt_total (ORDINATE ab_read a) (ORDINATE ab_read b)) as [L|[E|G]].
    + left. apply Z.ltb_lt. lia.
    + contradiction.
    + right. apply Z.ltb_lt. lia.
Qed.

Lemma seq_order_strict_total_witness :
  seq_order 65000 65530 65530 = false /\
  (seq_order 65000 65530 4 = true -> seq_order 65000 4 65530 = false) /\
  (seq_order 65000 65530 4 = true -> seq_order 65000 4 9 = true ->
   seq_order 65000 65530 9 = true) /\
  (65530 <> 4 -> seq_order 65000 65530 4 = true \/ seq_order 65000 4 65530 = true).
Proof. apply (seq_order_strict_total 65000 65530 4 9); unfold is_uint16; lia. Defined.

(** X3. [seq32_order] on 32-bit timestamps is irreflexive and
    asymmetric; of two distinct timestamps exactly one is after the
    other, except when they are exactly 2^31 apart, where neither is. *)
Theorem seq32_order_trichotomy (a b : Z) :
  is_uint32 a -> is_uint32 b ->
  seq32_order a a = false /\
  (seq32_order a b = true -> seq32_order b a = false) /\
  (a <> b -> (b - a) mod 4294967296 <> 2147483648 ->
   xorb (seq32_order a b) (seq32_order b a) = true) /\
  ((b - a) mod 4294967296 = 2147483648 ->
   seq32_order a b = false /\ seq32_order b a = false).
Proof.
  intros Ha Hb. split; [|split; [|split]].
  - unfold seq32_order. now rewrite Z.eqb_refl.
  - apply seq32_order_asym; assumption.
  - intros Hne Hhalf. rewrite !seq32_order_spec by assumption.
    unfold is_uint32 in *.
    destruct (Z.eqb_spec a b); [contradiction|].
    destruct (Z.eqb_spec b a); [congruence|]. cbn [negb andb].
    destruct (Z.ltb_spec ((b - a) mod 4294967296) 2147483648);
      destruct (Z.ltb_spec ((a - b) mod 4294967296) 2147483648);
      try reflexivity; exfalso; Z.div_mod_to_equations; lia.
  - intros Hhalf. rewrite !seq32_order_spec by assumption.
    unfold is_uint32 in *.
    destruct (Z.ltb_spec ((b - a) mod 4294967296) 2147483648); [lia|].
    destruct (Z.ltb_spec ((a - b) mod 4294967296) 2147483648);
      [exfalso; Z.div_mod_to_equations; lia|].
    rewrite !andb_false_r. split; reflexivity.
Qed.

Lemma seq32_order_trichotomy_witness :
  seq32_order 4294967290 4294967290 = false /\
  (seq32_order 4294967290 5 = true -> seq32_order 5 4294967290 = false) /\
  (4294967290 <> 5 -> (5 - 4294967290) mod 4294967296 <> 2147483648 ->
   xorb (seq32_order 4294967290 5) (seq32_order 5 4294967290) = true) /\
  ((5 - 4294967290) mod 4294967296 = 2147483648 ->
   seq32_order 4294967290 5 = false /\ seq32_order 5 4294967290 = false).
Proof. apply (seq32_order_trichotomy 4294967290 5); unfold is_uint32; lia. Defined.

(** X4. [seq_sum] from the anchor and [ORDINATE] are inverse: the
    sequence number [i] steps after [ab_read] has ordinate [i] for
    [i < 32767], and [i - 65536] beyond; one step is [SUCCESSOR]. *)
Theorem ordinate_seq_sum_round_trip (ab_read i : Z) :
  is_uint16 ab_read -> is_uint16 i ->
  ORDINATE ab_read (seq_sum ab_read i) = (if i <? 32767 then i else i - 65536) /\
  seq_sum ab_read 1 = SUCCESSOR ab_read /\
  is_uint16 (seq_sum ab_read i).
Proof.
  unfold is_uint16. intros Hr Hi.
  rewrite !seq_sum_mod by lia. rewrite ORDINATE_mod, SUCCESSOR_mod.
  replace (((ab_read + i) mod 65536 - ab_read) mod 65536) with i
    by (Z.div_mod_to_equations; lia).
  split; [|split].
  - destruct (Z.leb_spec 32767 i); destruct (Z.ltb_spec i 32767); lia.
  - reflexivity.
  - apply Z.mod_pos_bound. lia.
Qed.

Lemma ordinate_seq_sum_round_trip_witness :
  ORDINATE 65530 (seq_sum 65530 511) = (if 511 <? 32767 then 511 else 511 - 65536) /\
  seq_sum 65530 1 = SUCCESSOR 65530 /\
  is_uint16 (seq_sum 65530 511).
Proof. apply (ordinate_seq_sum_round_trip 65530 511); unfold is_uint16; lia. Defined.

(** X5. The slot mapping: two sequence numbers fewer than
    [BUFFER_FRAMES] apart never share a slot, and a sequence number
    shares its slot with the one [BUFFER_FRAMES] later. *)
Theorem bufidx_window_injective (x y : Z) :
  is_uint16 x -> is_uint16 y ->
  0 <= BUFIDX x < BUFFER_FRAMES /\
  (0 < (y - x) mod 65536 < BUFFER_FRAMES -> BUFIDX x <> BUFIDX y) /\
  BUFIDX (seq_sum x BUFFER_FRAMES) = BUFIDX x.
Proof.
  unfold is_uint16, BUFFER_FRAMES. intros Hx Hy.
  rewrite seq_sum_mod by lia. rewrite !BUFIDX_mod.
  split; [apply Z.mod_pos_bound; lia|]. split.
  - intros Hd E. revert Hd E. Z.div_mod_to_equations. lia.
  - Z.div_mod_to_equations; lia.
Qed.

Lemma bufidx_window_injective_witness :
  0 <= BUFIDX 65300 < BUFFER_FRAMES /\
  (0 < (200 - 65300) mod 65536 < BUFFER_FRAMES -> BUFIDX 65300 <> BUFIDX 200) /\
  BUFIDX (seq_sum 65300 BUFFER_FRAMES) = BUFIDX 65300.
Proof. apply (bufidx_window_injective 65300 200); unfold is_uint16; lia. Defined.

(** ** The producer, branch by branch *)

Section ProducerBranches.

Variables (seqno : seq_t) (rtp_timestamp : Z) (payload : list Z) (now : Z).

(** [place_packet] and [store_packet] write the ring, the cursors and
    three counters, and nothing else. *)
Lemma place_store_frame s :
  let '(s2, abuf, evs) := place_packet seqno s in
  let s3 := match abuf with
            | Some i => store_packet seqno rtp_timestamp payload i s2
            | None => s2
            end in
  s3 = s <| audio_buffer := audio_buffer s3 |> <| ab_read := ab_read s3 |>
         <| ab_write := ab_write s3 |> <| ab_synced := ab_synced s3 |>
         <| resend_requests := resend_requests s3 |>
         <| late_packets := late_packets s3 |>
         <| too_late_packets := too_late_packets s3 |>.
Proof.
  unfold place_packet, store_packet, update_slot.
  destruct (ab_synced s) eqn:Hs.
  - destruct (ab_write s =? seqno); [destruct s; reflexivity|].
    destruct (seq_order (ab_read s) (ab_write s) seqno).
    + cbv zeta. rewrite zero_gap_frame. destruct s; reflexivity.
    + destruct (seq_order (ab_read s) (ab_read s) seqno); destruct s; reflexivity.
  - proj_simpl. rewrite Z.eqb_refl. destruct s; reflexivity.
Qed.

End ProducerBranches.

(** X6. Whatever becomes of a packet, [player_put_packet] counts it and
    records its arrival time; beyond that it writes only the ring, the
    two cursors, the synced flag, the flush boundary and the three
    packet counters. With the connection off it stops there: no event,
    and the ring, the cursors and the counters are as before. *)
Theorem put_packet_footprint (seqno : seq_t) (ts : Z) (payload : list Z) (now : Z)
  (s : player) :
  let '(s', evs) := player_put_packet seqno ts payload now s in
  time_of_last_audio_packet s' = now /\
  packet_count s' = to_uint64 (packet_count s + 1) /\
  s' = s <| audio_buffer := audio_buffer s' |> <| ab_read := ab_read s' |>
         <| ab_write := ab_write s' |> <| ab_synced := ab_synced s' |>
         <| resend_requests := resend_requests s' |>
         <| late_packets := late_packets s' |>
         <| too_late_packets := too_late_packets s' |>
         <| flush_rtp_timestamp := flush_rtp_timestamp s' |>
         <| packet_count := packet_count s' |>
         <| time_of_last_audio_packet := now |> /\
  (connection_state_to_output s = 0 ->
     evs = [] /\
     s' = s <| packet_count := to_uint64 (packet_count s + 1) |>
            <| time_of_last_audio_packet := now |>).
Proof.
  unfold player_put_packet. proj_simpl.
  destruct (Z.eqb_spec (connection_state_to_output s) 0) as [Hc|Hc].
  { split; [|split; [|split]]; try (destruct s; reflexivity).
    intros _. split; reflexivity. }
  destruct (flush_filtered _ ts).
  { split; [|split; [|split]]; try (destruct s; reflexivity).
    intros; contradiction. }
  match goal with |- context [place_packet seqno ?t] =>
    pose proof (place_store_frame seqno ts payload t) as F; set (s1 := t) in * end.
  destruct (place_packet seqno s1) as [[s2 abuf] evs]. cbv zeta in F.
  assert (G : forall s3 : player,
            s3 = s1 <| audio_buffer := audio_buffer s3 |> <| ab_read := ab_read s3 |>
                    <| ab_write := ab_write s3 |> <| ab_synced := ab_synced s3 |>
                    <| resend_requests := resend_requests s3 |>
                    <| late_packets := late_packets s3 |>
                    <| too_late_packets := too_late_packets s3 |> ->
            time_of_last_audio_packet s3 = now /\
            packet_count s3 = to_uint64 (packet_count s + 1) /\
            s3 = s <| audio_buffer := audio_buffer s3 |> <| ab_read := ab_read s3 |>
                   <| ab_write := ab_write s3 |> <| ab_synced := ab_synced s3 |>
                   <| resend_requests := resend_requests s3 |>
                   <| late_packets := late_packets s3 |>
                   <| too_late_packets := too_late_packets s3 |>
                   <| flush_rtp_timestamp := flush_rtp_timestamp s3 |>
                   <| packet_count := packet_count s3 |>
                   <| time_of_last_audio_packet := now |> /\
            (connection_state_to_output s = 0 -> evs = [] /\
               s3 = s <| packet_count := to_uint64 (packet_count s + 1) |>
                      <| time_of_last_audio_packet := now |>)).
  { intros s3 E.
    split; [rewrite E; subst s1; destruct (_ && _); reflexivity|].
    split; [rewrite E; subst s1; destruct (_ && _); reflexivity|].
    split; [|intros; contradiction].
    assert (Ef : flush_rtp_timestamp s3 = flush_rtp_timestamp s1) by (rewrite E; reflexivity).
    assert (Ep : packet_count s3 = packet_count s1) by (rewrite E; reflexivity).
    rewrite Ef, Ep. rewrite E at 1. subst s1.
    destruct (_ && _); destruct s; reflexivity. }
  destruct abuf; apply G; exact F.
Qed.

(** X7. The first packet admitted to an unsynced ring syncs it: both
    cursors are set from the packet, whatever they were, the packet is
    stored, nothing is asked again, and the flush boundary is cleared. *)
Theorem first_packet_syncs_ring (seqno : seq_t) (ts : Z) (payload : list Z) (now : Z)
  (s : player) :
  length (audio_buffer s) = Z.to_nat BUFFER_FRAMES ->
  admitted s ts = true -> ab_synced s = false -> is_uint16 seqno ->
  let '(s', evs) := player_put_packet seqno ts payload now s in
  evs = [] /\
  ab_synced s' = true /\ ab_read s' = seqno /\ ab_write s' = SUCCESSOR seqno /\
  ring_distance s' = 1 /\
  flush_rtp_timestamp s' = 0 /\
  slot s' (BUFIDX seqno) = stored_frame s seqno ts payload /\
  (forall j, 0 <= j -> j <> BUFIDX seqno -> slot s' j = slot s j).
Proof.
  intros Hlen Hadm Hs Hseq. rewrite player_put_packet_admitted by assumption.
  unfold place_packet, admitted_state. proj_simpl. rewrite Hs, Z.eqb_refl.
  pose proof (BUFIDX_range seqno) as Hidx.
  split; [reflexivity|]. split; [reflexivity|]. split; [reflexivity|].
  split; [reflexivity|]. split.
  { unfold ring_distance, store_packet, update_slot. proj_simpl.
    unfold seq_diff. rewrite ORDINATE_anchor.
    pose proof (mod_diff_succ_l seqno seqno) as Hsucc.
    rewrite Z.sub_diag in Hsucc. change (0 mod 65536) with 0 in Hsucc.
    specialize (Hsucc ltac:(lia)).
    rewrite ORDINATE_small; rewrite Hsucc; lia. }
  split; [reflexivity|]. split.
  - rewrite store_packet_slot_eq by (proj_simpl; rewrite Hlen; unfold BUFFER_FRAMES; lia).
    reflexivity.
  - intros j Hj Hne. rewrite store_packet_slot_ne by lia. reflexivity.
Qed.

Lemma first_packet_syncs_ring_witness :
  let '(s', evs) := player_put_packet 65535 1000 (sample_payload 1) 7 sample_player in
  evs = [] /\
  ab_synced s' = true /\ ab_read s' = 65535 /\ ab_write s' = SUCCESSOR 65535 /\
  ring_distance s' = 1 /\
  flush_rtp_timestamp s' = 0 /\
  slot s' (BUFIDX 65535) = stored_frame sample_player 65535 1000 (sample_payload 1) /\
  (forall j, 0 <= j -> j <> BUFIDX 65535 -> slot s' j = slot sample_player j).
Proof.
  apply (first_packet_syncs_ring 65535 1000 (sample_payload 1) 7 sample_player);
    try reflexivity. unfold is_uint16. lia.
Defined.

(** X8. The expected packet ([seqno = ab_write] on a synced ring) is
    stored in its slot and moves [ab_write] one on; it asks for no
    resend, leaves [ab_read] and every other slot alone, and counts as
    neither late nor too late. *)
Theorem expected_packet_stored (seqno : seq_t) (ts : Z) (payload : list Z) (now : Z)
  (s : player) :
  length (audio_buffer s) = Z.to_nat BUFFER_FRAMES ->
  admitted s ts = true -> ab_synced s = true -> ab_write s = seqno ->
  let '(s', evs) := player_put_packet seqno ts payload now s in
  evs = [] /\
  ab_read s' = ab_read s /\ ab_write s' = SUCCESSOR seqno /\
  slot s' (BUFIDX seqno) = stored_frame s seqno ts payload /\
  (forall j, 0 <= j -> j <> BUFIDX seqno -> slot s' j = slot s j) /\
  late_packets s' = late_packets s /\ too_late_packets s' = too_late_packets s /\
  resend_requests s' = resend_requests s.
Proof.
  intros Hlen Hadm Hs Hw. rewrite player_put_packet_admitted by assumption.
  unfold place_packet, admitted_state. proj_simpl. rewrite Hs. proj_simpl. rewrite Hw, Z.eqb_refl.
  pose proof (BUFIDX_range seqno) as Hidx.
  split; [reflexivity|]. split; [reflexivity|]. split; [reflexivity|]. split.
  - rewrite store_packet_slot_eq by (proj_simpl; rewrite Hlen; unfold BUFFER_FRAMES; lia).
    reflexivity.
  - split; [|repeat split].
    intros j Hj Hne. rewrite store_packet_slot_ne by lia. reflexivity.
Qed.

Lemma expected_packet_stored_witness :
  let '(s', evs) := player_put_packet 102 1008 (sample_payload 3) 9 two_packets in
  evs = [] /\
  ab_read s' = ab_read two_packets /\ ab_write s' = SUCCESSOR 102 /\
  slot s' (BUFIDX 102) = stored_frame two_packets 102 1008 (sample_payload 3) /\
  (forall j, 0 <= j -> j <> BUFIDX 102 -> slot s' j = slot two_packets j) /\
  late_packets s' = late_packets two_packets /\
  too_late_packets s' = too_late_packets two_packets /\
  resend_requests s' = resend_requests two_packets.
Proof.
  apply (expected_packet_stored 102 1008 (sample_payload 3) 9 two_packets); reflexivity.
Defined.

(** X9. A packet that fills a hole (its ordinate lies strictly between
    those of [ab_read] and [ab_write]) is stored in its slot and counted
    in [late_packets]; the cursors do not move, no other slot changes
    and no resend is asked. *)
Theorem late_packet_fills_hole (seqno : seq_t) (ts : Z) (payload : list Z) (now : Z)
  (s : player) :
  length (audio_buffer s) = Z.to_nat BUFFER_FRAMES ->
  admitted s ts = true -> ab_synced s = true ->
  0 < ORDINATE (ab_read s) seqno < ORDINATE (ab_read s) (ab_write s) ->
  let '(s', evs) := player_put_packet seqno ts payload now s in
  evs = [] /\
  ab_read s' = ab_read s /\ ab_write s' = ab_write s /\
  slot s' (BUFIDX seqno) = stored_frame s seqno ts payload /\
  (forall j, 0 <= j -> j <> BUFIDX seqno -> slot s' j = slot s j) /\
  late_packets s' = to_uint64 (late_packets s + 1) /\
  too_late_packets s' = too_late_packets s /\
  resend_requests s' = resend_requests s.
Proof.
  intros Hlen Hadm Hs Hord. rewrite player_put_packet_admitted by assumption.
  unfold place_packet, admitted_state. proj_simpl. rewrite Hs. proj_simpl.
  destruct (Z.eqb_spec (ab_write s) seqno) as [E|_]; [rewrite E in Hord; lia|].
  unfold seq_order. rewrite ORDINATE_anchor.
  destruct (Z.ltb_spec 0 (ORDINATE (ab_read s) seqno - ORDINATE (ab_read s) (ab_write s)));
    [lia|].
  destruct (Z.ltb_spec 0 (ORDINATE (ab_read s) seqno - 0)); [|lia].
  pose proof (BUFIDX_range seqno) as Hidx.
  split; [reflexivity|]. split; [reflexivity|]. split; [reflexivity|]. split.
  - rewrite store_packet_slot_eq by (proj_simpl; rewrite Hlen; unfold BUFFER_FRAMES; lia).
    reflexivity.
  - split; [|repeat split].
    intros j Hj Hne. rewrite store_packet_slot_ne by lia. reflexivity.
Qed.

Lemma late_packet_fills_hole_witness :
  let '(s', evs) := player_put_packet 102 1008 (sample_payload 4) 10 gap_at_102 in
  evs = [] /\
  ab_read s' = ab_read gap_at_102 /\ ab_write s' = ab_write gap_at_102 /\
  slot s' (BUFIDX 102) = stored_frame gap_at_102 102 1008 (sample_payload 4) /\
  (forall j, 0 <= j -> j <> BUFIDX 102 -> slot s' j = slot gap_at_102 j) /\
  late_packets s' = to_uint64 (late_packets gap_at_102 + 1) /\
  too_late_packets s' = too_late_packets gap_at_102 /\
  resend_requests s' = resend_requests gap_at_102.
Proof.
  apply (late_packet_fills_hole 102 1008 (sample_payload 4) 10 gap_at_102);
    try reflexivity. vm_compute. split; reflexivity.
Defined.

(** X10. On a synced ring whose [ab_write] is not behind [ab_read], a
    packet that is not the expected one and whose ordinate is not
    positive is dropped as too late: it is only counted. This includes
    a second copy of the head frame [ab_read] itself, which has not been
    played yet. *)
Theorem too_late_packet_dropped (seqno : seq_t) (ts : Z) (payload : list Z) (now : Z)
  (s : player) :
  admitted s ts = true -> ab_synced s = true ->
  seqno <> ab_write s ->
  ORDINATE (ab_read s) seqno <= 0 <= ORDINATE (ab_read s) (ab_write s) ->
  let '(s', evs) := player_put_packet seqno ts payload now s in
  evs = [] /\
  audio_buffer s' = audio_buffer s /\
  ab_read s' = ab_read s /\ ab_write s' = ab_write s /\
  too_late_packets s' = to_uint64 (too_late_packets s + 1) /\
  late_packets s' = late_packets s /\
  resend_requests s' = resend_requests s.
Proof.
  intros Hadm Hs Hne Hord. rewrite player_put_packet_admitted by assumption.
  unfold place_packet, admitted_state. proj_simpl. rewrite Hs. proj_simpl.
  destruct (Z.eqb_spec (ab_write s) seqno) as [E|_]; [congruence|].
  unfold seq_order. rewrite ORDINATE_anchor.
  destruct (Z.ltb_spec 0 (ORDINATE (ab_read s) seqno - ORDINATE (ab_read s) (ab_write s)));
    [lia|].
  destruct (Z.ltb_spec 0 (ORDINATE (ab_read s) seqno - 0)); [lia|].
  repeat split.
Qed.

Lemma too_late_packet_dropped_witness :
  let '(s', evs) := player_put_packet 100 1000 (sample_payload 5) 10 two_packets in
  evs = [] /\
  audio_buffer s' = audio_buffer two_packets /\
  ab_read s' = ab_read two_packets /\ ab_write s' = ab_write two_packets /\
  too_late_packets s' = to_uint64 (too_late_packets two_packets + 1) /\
  late_packets s' = late_packets two_packets /\
  resend_requests s' = resend_requests two_packets.
Proof.
  apply (too_late_packet_dropped 100 1000 (sample_payload 5) 10 two_packets);
    try reflexivity.
  - vm_compute. discriminate.
  - vm_compute. split; discriminate.
Defined.

(** ** A run of packets *)

Lemma put_all_snoc l p s :
  put_all (l ++ [p]) s =
  let '(s1, e1) := put_all l s in
  let '(seqno, ts, payload, now) := p in
  let '(s2, e2) := player_put_packet seqno ts payload now s1 in
  (s2, e1 ++ e2).
Proof.
  unfold put_all. rewrite fold_left_app. reflexivity.
Qed.

Lemma in_order_snoc seq0 l x :
  in_order seq0 (l ++ [x]) =
  in_order seq0 l ++
  [let '(ts, payload, now) := x in
   (to_uint16 (seq0 + Z.of_nat (length l)), ts, payload, now)].
Proof.
  unfold in_order. rewrite imap_app. cbn. rewrite Nat.add_0_r. reflexivity.
Qed.

Lemma put_first seqno ts payload now s :
  admitted s ts = true -> ab_synced s = false ->
  player_put_packet seqno ts payload now s =
  (store_packet seqno ts payload (BUFIDX seqno)
     ((admitted_state now s) <| ab_write := seqno |> <| ab_read := seqno |>
        <| ab_synced := true |> <| ab_write := SUCCESSOR seqno |>), []).
Proof.
  intros Hadm Hs. rewrite player_put_packet_admitted by assumption.
  unfold place_packet, admitted_state. proj_simpl. rewrite Hs. proj_simpl.
  rewrite Z.eqb_refl. reflexivity.
Qed.

Lemma put_expected seqno ts payload now s :
  admitted s ts = true -> ab_synced s = true -> ab_write s = seqno ->
  player_put_packet seqno ts payload now s =
  (store_packet seqno ts payload (BUFIDX seqno)
     ((admitted_state now s) <| ab_write := SUCCESSOR seqno |>), []).
Proof.
  intros Hadm Hs Hw. rewrite player_put_packet_admitted by assumption.
  unfold place_packet, admitted_state. proj_simpl. rewrite Hs. proj_simpl.
  rewrite Hw, Z.eqb_refl. reflexivity.
Qed.

Lemma admitted_open s ts :
  connection_state_to_output s <> 0 -> flush_rtp_timestamp s = 0 ->
  admitted s ts = true.
Proof.
  intros Hc Hf. unfold admitted, flush_filtered. rewrite Hf.
  destruct (Z.eqb_spec (connection_state_to_output s) 0); [contradiction|reflexivity].
Qed.

Lemma BUFIDX_window_ne x k m :
  0 <= k < m -> m < 512 -> BUFIDX (to_uint16 (x + m)) <> BUFIDX (to_uint16 (x + k)).
Proof.
  intros Hk Hm. rewrite !BUFIDX_mod. unfold to_uint16, wrap_u.
  change (2 ^ 16) with 65536. intros E. revert E. Z.div_mod_to_equations. lia.
Qed.

Lemma run_stored_step seq0 l x s s1 :
  is_uint16 seq0 ->
  length (audio_buffer s) = Z.to_nat BUFFER_FRAMES ->
  connection_state_to_output s <> 0 ->
  l <> [] -> (length l < 512)%nat ->
  run_stored seq0 l s s1 ->
  let '(ts, payload, now) := x in
  let '(s2, e2) :=
    player_put_packet (to_uint16 (seq0 + Z.of_nat (length l))) ts payload now s1 in
  e2 = [] /\ run_stored seq0 (l ++ [x]) s s2.
Proof.
  intros Hseq Hlen Hc Hne Hn
    (Hl1 & Hc1 & Hf1 & Hd1 & Hs1 & Hr1 & Hw1 & Hslots & Hrest & Hq1 & Hla1 & Htl1 & Hpc1).
  destruct x as [[ts payload] now].
  set (m := length l) in *. set (seqno := to_uint16 (seq0 + Z.of_nat m)).
  assert (Hadm : admitted s1 ts = true).
  { apply admitted_open; [rewrite Hc1; exact Hc | exact Hf1]. }
  rewrite (put_expected seqno ts payload now s1 Hadm Hs1 Hw1).
  split; [reflexivity|].
  pose proof (BUFIDX_range seqno) as Hidx.
  set (s1' := (admitted_state now s1) <| ab_write := SUCCESSOR seqno |>).
  assert (Hl1' : length (audio_buffer s1') = Z.to_nat BUFFER_FRAMES) by exact Hl1.
  assert (Hsl : forall j, slot s1' j = slot s1 j) by reflexivity.
  unfold run_stored. rewrite length_app. cbn [length].
  split. { unfold store_packet. rewrite length_update_slot. exact Hl1. }
  split. { exact Hc1. }
  split. { reflexivity. }
  split. { exact Hd1. }
  split. { exact Hs1. }
  split. { exact Hr1. }
  split.
  { unfold store_packet, update_slot, s1'. proj_simpl. rewrite SUCCESSOR_mod.
    subst seqno. unfold to_uint16, wrap_u. change (2 ^ 16) with 65536.
    fold m. replace (Z.of_nat (m + 1)) with (Z.of_nat m + 1) by lia.
    Z.div_mod_to_equations; lia. }
  split.
  { intros k ts' payload' now' Hk.
    destruct (Nat.eq_dec k m) as [->|Hkm].
    - rewrite lookup_app_r in Hk by (fold m; lia). fold m in Hk.
      rewrite Nat.sub_diag in Hk. cbn in Hk. injection Hk as <- <- <-.
      fold seqno.
      rewrite store_packet_slot_eq by (rewrite Hl1'; unfold BUFFER_FRAMES; lia).
      unfold stored_frame. f_equal. rewrite Hsl.
      rewrite Hrest; [|lia|].
      + unfold alac_decode. cbn. unfold admitted_state. proj_simpl.
        rewrite Hd1. reflexivity.
      + intros k Hk. subst seqno. apply BUFIDX_window_ne; lia.
    - assert (Hk' : (k < m)%nat).
      { apply lookup_lt_Some in Hk. rewrite length_app in Hk. cbn in Hk. fold m in Hk. lia. }
      rewrite lookup_app_l in Hk by (fold m; lia).
      pose proof (BUFIDX_range (to_uint16 (seq0 + Z.of_nat k))).
      rewrite store_packet_slot_ne; [| lia | lia |].
      + rewrite Hsl. eapply Hslots; eassumption.
      + subst seqno. apply BUFIDX_window_ne; lia. }
  split.
  { intros j Hj Hmiss.
    rewrite store_packet_slot_ne; [| lia | lia |].
    - rewrite Hsl. apply Hrest; [assumption|]. intros k Hk. apply Hmiss. fold m. lia.
    - intros E. apply (Hmiss m); [fold m; lia|]. fold seqno. congruence. }
  split. { exact Hq1. }
  split. { exact Hla1. }
  split. { exact Htl1. }
  unfold store_packet, update_slot, s1', admitted_state. proj_simpl.
  rewrite Hpc1. fold m. unfold to_uint64, wrap_u.
  replace (Z.of_nat (m + 1)) with (Z.of_nat m + 1) by lia.
  Z.div_mod_to_equations; lia.
Qed.

Lemma run_stored_first seq0 x s :
  is_uint16 seq0 ->
  length (audio_buffer s) = Z.to_nat BUFFER_FRAMES ->
  connection_state_to_output s <> 0 -> flush_rtp_timestamp s = 0 ->
  ab_synced s = false ->
  let '(ts, payload, now) := x in
  let '(s2, e2) := player_put_packet seq0 ts payload now s in
  e2 = [] /\ run_stored seq0 [x] s s2.
Proof.
  intros Hseq Hlen Hc Hf Hs. destruct x as [[ts payload] now].
  assert (Hadm : admitted s ts = true) by now apply admitted_open.
  rewrite (put_first seq0 ts payload now s Hadm Hs).
  split; [reflexivity|].
  pose proof (BUFIDX_range seq0) as Hidx.
  assert (E0 : to_uint16 (seq0 + Z.of_nat 0) = seq0).
  { rewrite Z.add_0_r. now apply to_uint16_id. }
  unfold run_stored. cbn [length].
  split. { unfold store_packet. rewrite length_update_slot. exact Hlen. }
  split. { reflexivity. }
  split. { reflexivity. }
  split. { reflexivity. }
  split. { reflexivity. }
  split. { reflexivity. }
  split.
  { unfold store_packet, update_slot. proj_simpl. rewrite SUCCESSOR_mod.
    unfold to_uint16, wrap_u. reflexivity. }
  split.
  { intros k ts' payload' now' Hk. destruct k as [|k]; [|discriminate].
    cbn in Hk. injection Hk as <- <- <-. rewrite E0.
    rewrite store_packet_slot_eq
      by (unfold admitted_state; proj_simpl; rewrite Hlen; unfold BUFFER_FRAMES; lia).
    reflexivity. }
  split.
  { intros j Hj Hmiss. specialize (Hmiss 0%nat ltac:(lia)). rewrite E0 in Hmiss.
    rewrite store_packet_slot_ne by lia. reflexivity. }
  split. { reflexivity. }
  split. { reflexivity. }
  split. { reflexivity. }
  unfold store_packet, update_slot, admitted_state. proj_simpl. reflexivity.
Qed.

(** X11. An in-order run of up to [BUFFER_FRAMES] packets put into an
    unsynced ring with the connection on and no flush boundary is stored
    whole: no resend is asked, nothing is counted late or too late,
    [ab_read] stays at the first packet, [ab_write] is one past the last,
    and the [k]-th packet sits ready in the slot of its sequence number
    with its own timestamp and decoded payload. *)
Theorem in_order_run_stored (seq0 : seq_t) (l : list (Z * list Z * Z)) (s : player) :
  is_uint16 seq0 ->
  length (audio_buffer s) = Z.to_nat BUFFER_FRAMES ->
  connection_state_to_output s <> 0 -> flush_rtp_timestamp s = 0 ->
  ab_synced s = false ->
  l <> [] -> (length l <= 512)%nat ->
  let '(s', evs) := put_all (in_order seq0 l) s in
  evs = [] /\
  ab_synced s' = true /\ ab_read s' = seq0 /\
  ab_write s' = to_uint16 (seq0 + Z.of_nat (length l)) /\
  (forall k ts payload now, l !! k = Some (ts, payload, now) ->
     slot s' (BUFIDX (to_uint16 (seq0 + Z.of_nat k))) =
     stored_frame s (to_uint16 (seq0 + Z.of_nat k)) ts payload) /\
  resend_requests s' = resend_requests s /\
  late_packets s' = late_packets s /\
  too_late_packets s' = too_late_packets s.
Proof.
  intros Hseq Hlen Hc Hf Hs.
  assert (G : l <> [] -> (length l <= 512)%nat ->
              let '(s', evs) := put_all (in_order seq0 l) s in
              evs = [] /\ run_stored seq0 l s s').
  { induction l as [|x l IH] using rev_ind; [congruence|].
    intros _ Hn. rewrite length_app in Hn. cbn in Hn.
    rewrite in_order_snoc, put_all_snoc.
    destruct l as [|y l'].
    - cbn [put_all fold_left in_order imap length]. change (put_all [] s) with (s, @nil event).
      cbn [length]. rewrite Z.add_0_r. rewrite to_uint16_id by assumption.
      pose proof (run_stored_first seq0 x s Hseq Hlen Hc Hf Hs) as H1.
      destruct x as [[ts payload] now].
      destruct (player_put_packet seq0 ts payload now s) as [s2 e2].
      destruct H1 as [-> H1]. split; [reflexivity|exact H1].
    - specialize (IH ltac:(discriminate) ltac:(lia)).
      destruct (put_all (in_order seq0 (y :: l')) s) as [s1 e1].
      destruct IH as [-> IH].
      pose proof (run_stored_step seq0 (y :: l') x s s1 Hseq Hlen Hc
                    ltac:(discriminate) ltac:(lia) IH) as H1.
      destruct x as [[ts payload] now].
      destruct (player_put_packet _ ts payload now s1) as [s2 e2].
      destruct H1 as [-> H1]. split; [reflexivity|exact H1]. }
  intros Hne Hn. specialize (G Hne Hn).
  destruct (put_all (in_order seq0 l) s) as [s' evs].
  destruct G as (-> & _ & _ & _ & _ & Hs' & Hr & Hw & Hslots & _ & Hq & Hla & Htl & _).
  repeat (split; [assumption || reflexivity|]). assumption.
Qed.

Lemma in_order_run_stored_witness :
  let l := [(1000, sample_payload 1, 7); (1004, sample_payload 2, 8);
            (1008, sample_payload 3, 9)] in
  let '(s', evs) := put_all (in_order 65535 l) sample_player in
  evs = [] /\
  ab_synced s' = true /\ ab_read s' = 65535 /\
  ab_write s' = to_uint16 (65535 + Z.of_nat (length l)) /\
  (forall k ts payload now, l !! k = Some (ts, payload, now) ->
     slot s' (BUFIDX (to_uint16 (65535 + Z.of_nat k))) =
     stored_frame sample_player (to_uint16 (65535 + Z.of_nat k)) ts payload) /\
  resend_requests s' = resend_requests sample_player /\
  late_packets s' = late_packets sample_player /\
  too_late_packets s' = too_late_packets sample_player.
Proof.
  apply (in_order_run_stored 65535
           [(1000, sample_payload 1, 7); (1004, sample_payload 2, 8);
            (1008, sample_payload 3, 9)] sample_player);
    try reflexivity.
  - unfold is_uint16. lia.
  - vm_compute. discriminate.
  - discriminate.
  - cbn. lia.
Defined.

(** ** The consumer *)

Section ConsumerFootprint.

Lemma producer_view_timeout_check e s :
  producer_view (fst (timeout_check e s)) = producer_view s.
Proof.
  unfold timeout_check.
  destruct (_ && _ && _); [|reflexivity]. destruct (_ && _); reflexivity.
Qed.

Lemma producer_view_track_connection e s :
  producer_view (track_connection e s) = producer_view s.
Proof.
  unfold track_connection. destruct (_ =? _); [reflexivity|].
  proj_simpl. destruct (_ =? _); reflexivity.
Qed.

Lemma producer_view_ab_resync s : producer_view (ab_resync s) = producer_view s.
Proof.
  unfold producer_view, ab_resync. proj_simpl. now rewrite length_fmap.
Qed.

Lemma producer_view_apply_flush s :
  producer_view (fst (apply_flush s)) = producer_view s.
Proof.
  unfold apply_flush. destruct (flush_requested s); [|reflexivity].
  cbn [fst]. rewrite <- (producer_view_ab_resync s). reflexivity.
Qed.

Lemma producer_view_update_slot i f s :
  producer_view (update_slot i f s) = producer_view s.
Proof.
  unfold producer_view, update_slot. proj_simpl. now rewrite length_alter.
Qed.

Lemma producer_view_flush_drain_body cur fl s :
  producer_view (fst (flush_drain_body cur fl s)) = producer_view s.
Proof.
  unfold flush_drain_body. destruct (ready (slot s cur)); [|reflexivity].
  set (s1 := if negb _ then _ else s).
  assert (H1 : producer_view s1 = producer_view s).
  { subst s1. destruct (negb _); [|reflexivity]. destruct (_ =? _); [|reflexivity].
    destruct (seq_order _ _ _); reflexivity. }
  destruct (negb (flush_rtp_timestamp s1 =? 0) && _).
  - rewrite <- H1, <- (producer_view_update_slot cur (fun a => a <| ready := false |>) s1).
    destruct (_ && _); reflexivity.
  - rewrite <- H1. destruct (_ && _); reflexivity.
Qed.

Lemma producer_view_flush_drain fuel : forall fl s s' fl',
  flush_drain fuel fl s = Some (s', fl') -> producer_view s' = producer_view s.
Proof.
  induction fuel as [|fuel IH]; intros fl s s' fl'; [discriminate|].
  cbn [flush_drain].
  pose proof (producer_view_flush_drain_body (BUFIDX (ab_read s)) fl s) as Hb.
  destruct (flush_drain_body (BUFIDX (ab_read s)) fl s) as [s1 fl1]. cbn [fst] in Hb.
  destruct (_ && _ && _).
  - intros H. rewrite (IH _ _ _ _ H). exact Hb.
  - intros H. injection H as <- <-. exact Hb.
Qed.

Lemma producer_view_first_packet e cf s :
  producer_view (first_packet e cf s) = producer_view s.
Proof.
  unfold first_packet. destruct (_ =? _); [|reflexivity].
  destruct (negb _); [|reflexivity]. proj_simpl.
  destruct (_ <=? _); reflexivity.
Qed.

Lemma producer_view_abandon_start b s :
  producer_view (fst (abandon_start b s)) = producer_view s.
Proof.
  unfold abandon_start. cbn [fst]. rewrite <- (producer_view_ab_resync s).
  destruct b; reflexivity.
Qed.

Lemma producer_view_lead_in e s :
  producer_view (fst (lead_in e s)) = producer_view s.
Proof.
  unfold lead_in. destruct (negb _); [|reflexivity].
  destruct (_ <=? _); [apply producer_view_abandon_start|].
  destruct (_ <=? 0); [apply producer_view_abandon_start|].
  destruct (_ || _); cbn [fst]; proj_simpl.
  - reflexivity.
  - destruct (ab_buffering s); reflexivity.
Qed.

Lemma producer_view_buffering e s :
  producer_view (fst (buffering e s)) = producer_view s.
Proof.
  unfold buffering. destruct (_ && _); [|reflexivity].
  rewrite producer_view_lead_in. apply producer_view_first_packet.
Qed.

Lemma producer_view_resend_scan fuel i s :
  producer_view (fst (resend_scan fuel i s)) = producer_view s.
Proof. rewrite resend_scan_frame. reflexivity. Qed.

Lemma producer_view_release_frame s :
  producer_view (fst (fst (release_frame s))) = producer_view s.
Proof.
  unfold release_frame.
  assert (H : exists s1 evs, (if ab_buffering s then (s, [])
                              else resend_scan resend_scan_fuel 8 s) = (s1, evs) /\
                             producer_view s1 = producer_view s).
  { destruct (ab_buffering s); [eauto|].
    pose proof (producer_view_resend_scan resend_scan_fuel 8 s) as H.
    destruct (resend_scan _ _ _) as [s1 evs]. eauto. }
  destruct H as (s1 & evs & -> & H1). cbn [fst].
  rewrite <- H1.
  assert (Hr : forall f t, producer_view (t <| ab_read ::= f |>) = producer_view t)
    by reflexivity.
  assert (Hm : forall f t, producer_view (t <| missing_packets ::= f |>) = producer_view t)
    by reflexivity.
  destruct (ready (slot s1 (BUFIDX (ab_read s))));
    now rewrite Hr, ?producer_view_update_slot, ?Hm.
Qed.

End ConsumerFootprint.

(** X12. [buffer_get_frame] only reads what the producer owns: a turn
    that ends leaves [ab_write], the packet counters, the time of the
    last packet and the size of the ring as they were. *)
Theorem consumer_keeps_producer_fields (e : tick_env) (s s' : player)
  (evs : list event) (r : turn_result) :
  buffer_get_frame_turn e s = Some (s', evs, r) ->
  ab_write s' = ab_write s /\
  packet_count s' = packet_count s /\
  late_packets s' = late_packets s /\
  too_late_packets s' = too_late_packets s /\
  time_of_last_audio_packet s' = time_of_last_audio_packet s /\
  length (audio_buffer s') = length (audio_buffer s).
Proof.
  intros H.
  assert (G : producer_view s' = producer_view s).
  { revert H. unfold buffer_get_frame_turn.
    pose proof (producer_view_timeout_check e s) as H1.
    destruct (timeout_check e s) as [s1 evs1]. cbn [fst] in H1.
    pose proof (producer_view_track_connection e s1) as H2.
    pose proof (producer_view_apply_flush (track_connection e s1)) as H3.
    destruct (apply_flush (track_connection e s1)) as [s3 evs2]. cbn [fst] in H3.
    assert (H03 : producer_view s3 = producer_view s) by congruence.
    clear H1 H2 H3.
    assert (Hd : forall s4 evs3,
              (if ab_synced s3
               then match flush_drain flush_drain_fuel 0 s3 with
                    | Some (s, _) => Some (buffering e s)
                    | None => None
                    end
               else Some (s3, [])) = Some (s4, evs3) ->
              producer_view s4 = producer_view s).
    { intros s4 evs3. destruct (ab_synced s3).
      - destruct (flush_drain flush_drain_fuel 0 s3) as [[sd fl]|] eqn:Ed; [|discriminate].
        pose proof (producer_view_flush_drain _ _ _ _ _ Ed) as H4.
        pose proof (producer_view_buffering e sd) as H5.
        destruct (buffering e sd) as [sb evb]. cbn [fst] in H5.
        intros E. injection E as <- _. congruence.
      - intros E. injection E as <- _. exact H03. }
    match goal with |- context [match ?x with Some _ => _ | None => _ end = _] =>
      destruct x as [[s4 evs3]|] end; [|discriminate].
    specialize (Hd s4 evs3 eq_refl).
    destruct (_ && _).
    - intros E. injection E as <- _ _. exact Hd.
    - destruct (please_stop s4).
      + intros E. injection E as <- _ _. exact Hd.
      + pose proof (producer_view_release_frame s4) as H5.
        destruct (release_frame s4) as [[s5 evs4] cur]. cbn [fst] in H5.
        intros E. injection E as <- _ _. congruence. }
  unfold producer_view in G. injection G as -> -> -> -> -> ->.
  repeat split.
Qed.

Lemma consumer_keeps_producer_fields_witness :
  exists s' evs r,
    buffer_get_frame_turn sample_tick two_packets = Some (s', evs, r) /\
    ab_write s' = ab_write two_packets /\
    packet_count s' = packet_count two_packets /\
    late_packets s' = late_packets two_packets /\
    too_late_packets s' = too_late_packets two_packets /\
    time_of_last_audio_packet s' = time_of_last_audio_packet two_packets /\
    length (audio_buffer s') = length (audio_buffer two_packets).
Proof.
  do 3 eexists. split.
  - vm_compute. reflexivity.
  - eapply (consumer_keeps_producer_fields sample_tick two_packets).
    vm_compute. reflexivity.
Defined.

Section KeptFields.

Lemma kept_view_track_connection e s :
  kept_view (track_connection e s) = kept_view s.
Proof.
  unfold track_connection. destruct (_ =? _); [reflexivity|].
  proj_simpl. destruct (_ =? _); reflexivity.
Qed.

Lemma kept_view_apply_flush s : kept_view (fst (apply_flush s)) = kept_view s.
Proof. unfold apply_flush. destruct (flush_requested s); reflexivity. Qed.

Lemma kept_view_update_slot i f s : kept_view (update_slot i f s) = kept_view s.
Proof. reflexivity. Qed.

Lemma kept_view_flush_drain_body cur fl s :
  kept_view (fst (flush_drain_body cur fl s)) = kept_view s.
Proof.
  unfold flush_drain_body. destruct (ready (slot s cur)); [|reflexivity].
  set (s1 := if negb _ then _ else s).
  assert (H1 : kept_view s1 = kept_view s).
  { subst s1. destruct (negb _); [|reflexivity]. destruct (_ =? _); [|reflexivity].
    destruct (seq_order _ _ _); reflexivity. }
  destruct (negb (flush_rtp_timestamp s1 =? 0) && _).
  - rewrite <- H1. destruct (_ && _); reflexivity.
  - rewrite <- H1. destruct (_ && _); reflexivity.
Qed.

Lemma kept_view_flush_drain fuel : forall fl s s' fl',
  flush_drain fuel fl s = Some (s', fl') -> kept_view s' = kept_view s.
Proof.
  induction fuel as [|fuel IH]; intros fl s s' fl'; [discriminate|].
  cbn [flush_drain].
  pose proof (kept_view_flush_drain_body (BUFIDX (ab_read s)) fl s) as Hb.
  destruct (flush_drain_body (BUFIDX (ab_read s)) fl s) as [s1 fl1]. cbn [fst] in Hb.
  destruct (_ && _ && _).
  - intros H. rewrite (IH _ _ _ _ H). exact Hb.
  - intros H. injection H as <- <-. exact Hb.
Qed.

Lemma kept_view_first_packet e cf s :
  kept_view (first_packet e cf s) = kept_view s.
Proof.
  unfold first_packet. destruct (_ =? _); [|reflexivity].
  destruct (negb _); [|reflexivity]. proj_simpl.
  destruct (_ <=? _); reflexivity.
Qed.

Lemma kept_view_abandon_start b s :
  kept_view (fst (abandon_start b s)) = kept_view s.
Proof. unfold abandon_start. cbn [fst]. destruct b; reflexivity. Qed.

Lemma kept_view_lead_in e s :
  kept_view (fst (lead_in e s)) = kept_view s.
Proof.
  unfold lead_in. destruct (negb _); [|reflexivity].
  destruct (_ <=? _); [apply kept_view_abandon_start|].
  destruct (_ <=? 0); [apply kept_view_abandon_start|].
  destruct (_ || _); cbn [fst]; proj_simpl.
  - reflexivity.
  - destruct (ab_buffering s); reflexivity.
Qed.

Lemma kept_view_buffering e s :
  kept_view (fst (buffering e s)) = kept_view s.
Proof.
  unfold buffering. destruct (_ && _); [|reflexivity].
  rewrite kept_view_lead_in. apply kept_view_first_packet.
Qed.

Lemma timeout_check_kept e s :
  missing_packets (fst (timeout_check e s)) = missing_packets s /\
  please_stop (fst (timeout_check e s)) = please_stop s.
Proof.
  unfold timeout_check. destruct (_ && _ && _); [|split; reflexivity].
  match goal with |- context [if ?c then _ else _] => destruct c end; split; reflexivity.
Qed.

Lemma before_release_kept e s s1 evs1 s3 evs2 s4 evs3 :
  timeout_check e s = (s1, evs1) ->
  apply_flush (track_connection e s1) = (s3, evs2) ->
  (if ab_synced s3 then buffering e s3 else (s3, [])) = (s4, evs3) ->
  missing_packets s4 = missing_packets s /\ please_stop s4 = please_stop s.
Proof.
  intros E1 E2 E4.
  pose proof (timeout_check_kept e s) as H1. rewrite E1 in H1. cbn [fst] in H1.
  pose proof (kept_view_apply_flush (track_connection e s1)) as H3.
  rewrite E2, kept_view_track_connection in H3. cbn [fst] in H3.
  assert (H4 : kept_view s4 = kept_view s3).
  { destruct (ab_synced s3).
    - pose proof (kept_view_buffering e s3) as H. rewrite E4 in H. exact H.
    - injection E4 as <- _. reflexivity. }
  unfold kept_view in H3, H4. injection H3 as M3 P3 _. injection H4 as M4 P4 _.
  destruct H1. split; congruence.
Qed.

End KeptFields.

(** On a state that satisfies the invariant the inner loop has nothing
    to do, and a turn is the sequence of its other parts. *)
Lemma turn_anatomy e s :
  player_inv s ->
  exists s1 evs1 s3 evs2 s4 evs3,
    timeout_check e s = (s1, evs1) /\
    apply_flush (track_connection e s1) = (s3, evs2) /\
    player_inv s3 /\
    (if ab_synced s3 then buffering e s3 else (s3, [])) = (s4, evs3) /\
    player_inv s4 /\
    buffer_get_frame_turn e s =
    Some
      (if (ab_buffering s4 || do_wait e s4 || negb (ab_synced s4)) && negb (please_stop s4)
       then (s4, evs1 ++ evs2 ++ evs3, Waiting)
       else if please_stop s4 then (s4, evs1 ++ evs2 ++ evs3, Stopped)
       else let '(s5, evs4, cur) := release_frame s4 in
            (s5, evs1 ++ evs2 ++ evs3 ++ evs4, Frame cur)).
Proof.
  intros Hinv. unfold buffer_get_frame_turn.
  pose proof (player_inv_same _ _ (timeout_check_same e s) Hinv) as H1.
  destruct (timeout_check e s) as [s1 evs1]. cbn [fst] in H1.
  pose proof (track_connection_inv e s1 H1) as H2.
  destruct (apply_flush_inv _ H2) as [H3 Hfilt].
  destruct (apply_flush (track_connection e s1)) as [s3 evs2] eqn:E2.
  cbn [fst] in H3, Hfilt.
  exists s1, evs1, s3, evs2.
  destruct (ab_synced s3) eqn:Hs3.
  - assert (Hf0 : flush_rtp_timestamp s3 = 0).
    { destruct (Z.eq_dec (flush_rtp_timestamp s3) 0) as [|Hne]; [assumption|].
      specialize (Hfilt Hne). congruence. }
    change flush_drain_fuel with (Z.to_nat (Z.succ 8822)).
    rewrite Z2Nat.inj_succ by lia.
    rewrite flush_drain_idle by (try apply H3; assumption).
    pose proof (buffering_inv e s3 H3) as H4.
    destruct (buffering e s3) as [s4 evs3]. cbn [fst] in H4.
    exists s4, evs3. do 5 (split; [reflexivity || assumption|]).
    destruct (_ && _); [reflexivity|]. destruct (please_stop s4); [reflexivity|].
    destruct (release_frame s4) as [[s5 evs4] cur]. reflexivity.
  - exists s3, []. do 5 (split; [reflexivity || assumption|]).
    destruct (_ && _); [reflexivity|]. destruct (please_stop s3); [reflexivity|].
    destruct (release_frame s3) as [[s5 evs4] cur]. reflexivity.
Qed.

Lemma ab_read_lead_in e t : ab_read (fst (lead_in e t)) = ab_read t.
Proof.
  unfold lead_in, abandon_start.
  destruct (negb _); [|reflexivity].
  destruct (_ <=? local_time_now e); [reflexivity|].
  cbv zeta.
  match goal with |- context [if ?c then (_, call_output_flush t) else _] =>
    destruct c end; [reflexivity|].
  match goal with |- context [if ?c || ?d then _ else _] => destruct (c || d) end;
    cbn [fst]; proj_simpl; [reflexivity|].
  destruct (ab_buffering t); reflexivity.
Qed.

Lemma ab_read_buffering e s : ab_read (fst (buffering e s)) = ab_read s.
Proof.
  unfold buffering. destruct (_ && _); [|reflexivity].
  rewrite ab_read_lead_in.
  pose proof (ring_view_first_packet e (slot s (BUFIDX (ab_read s))) s) as Ev.
  unfold ring_view in Ev. injection Ev as _ Er _ _. exact Er.
Qed.

Lemma ab_read_before_release e s s1 evs1 s3 evs2 s4 evs3 :
  timeout_check e s = (s1, evs1) ->
  apply_flush (track_connection e s1) = (s3, evs2) ->
  (if ab_synced s3 then buffering e s3 else (s3, [])) = (s4, evs3) ->
  ab_read s4 = ab_read s.
Proof.
  intros E1 E2 E4.
  assert (H1 : ab_read s1 = ab_read s).
  { pose proof (timeout_check_same e s) as (Ev & _ & _). rewrite E1 in Ev.
    unfold ring_view in Ev. cbn [fst] in Ev. injection Ev as _ Er _ _. exact Er. }
  assert (H2 : ab_read (track_connection e s1) = ab_read s1).
  { pose proof (ring_view_track_connection e s1) as Ev. unfold ring_view in Ev.
    injection Ev as _ Er _ _. exact Er. }
  assert (H3 : ab_read s3 = ab_read (track_connection e s1)).
  { revert E2. unfold apply_flush. destruct (flush_requested _);
      intros E; injection E as <- _; reflexivity. }
  assert (H4 : ab_read s4 = ab_read s3).
  { revert E4. destruct (ab_synced s3); [|intros E; injection E as <- _; reflexivity].
    intros E. pose proof (ab_read_buffering e s3) as H. rewrite E in H. exact H. }
  congruence.
Qed.

(** X13. On a state that satisfies the ring invariant and on which a
    flush boundary, if one is set, is still to be applied or finds the
    ring unsynced, a turn of [buffer_get_frame] that no flush interrupts
    and that hands a frame over hands over the frame [ab_read] stands
    at: the slot returned is [BUFIDX (ab_read s)], it holds sequence
    number [ab_read s] with a non-zero timestamp, it is marked not
    ready, [ab_read] moves to the successor, and no filler is counted. *)
Theorem released_frame_in_order (e : tick_env) (s s' : player) (evs : list event)
  (cur : Z) :
  ring_inv s -> filter_inv s ->
  buffer_get_frame_turn e s = Some (s', evs, Frame cur) ->
  cur = BUFIDX (ab_read s) /\
  sequence_number (slot s' cur) = ab_read s /\
  ab_read s' = SUCCESSOR (ab_read s) /\
  ready (slot s' cur) = false /\ timestamp (slot s' cur) <> 0 /\
  missing_packets s' = missing_packets s.
Proof.
  intros Hring Hfilt Hturn.
  destruct (turn_anatomy e s (conj Hring Hfilt))
    as (s1 & evs1 & s3 & evs2 & s4 & evs3 & E1 & E2 & H3 & E4 & H4 & Et).
  rewrite Et in Hturn. clear Et.
  destruct (before_release_kept _ _ _ _ _ _ _ _ E1 E2 E4) as [Hmiss _].
  pose proof (ab_read_before_release _ _ _ _ _ _ _ _ E1 E2 E4) as Hrd4.
  destruct ((ab_buffering s4 || do_wait e s4 || negb (ab_synced s4)) && negb (please_stop s4))
    eqn:Hwait; [discriminate|].
  destruct (please_stop s4) eqn:Hstop; [discriminate|].
  rewrite andb_true_r in Hwait.
  apply orb_false_elim in Hwait as [Hwait _].
  apply orb_false_elim in Hwait as [_ Hdw].
  assert (Hts : timestamp (slot s4 (BUFIDX (ab_read s4))) <> 0).
  { unfold do_wait in Hdw. destruct (ab_synced s4); [|discriminate].
    destruct (ready _); [|discriminate]. cbn [andb] in Hdw.
    destruct (Z.eqb_spec (timestamp (slot s4 (BUFIDX (ab_read s4)))) 0); [discriminate|].
    assumption. }
  destruct (do_wait_false e s4 Hdw) as [Hsync Hready].
  destruct H4 as [Hr4 _].
  destruct (head_frame s4 Hr4 Hready) as (Hseq & _ & _).
  pose proof (release_frame_ready s4 (inv_length _ Hr4) Hready) as Hrel.
  destruct (release_frame s4) as [[s5 evs4] cur'].
  injection Hturn as <- _ <-.
  destruct Hrel as (-> & Hslot & _ & Hrd & Hmp).
  rewrite Hslot. proj_simpl. rewrite Hseq, Hrd, Hrd4.
  split; [reflexivity|]. split; [reflexivity|]. split; [reflexivity|].
  split; [reflexivity|]. split; [rewrite <- Hrd4; exact Hts|]. congruence.
Qed.

Lemma player_inv_two_packets : ring_inv two_packets /\ filter_inv two_packets.
Proof.
  split.
  - exact (proj1 (reachable_ring_inv 4 (fun p => p) sample_config 1 _ _
                    reachable_two_packets)).
  - intros H. exfalso. apply H. vm_compute. reflexivity.
Qed.

Lemma released_frame_in_order_witness :
  exists s' evs,
    buffer_get_frame_turn due_tick two_packets = Some (s', evs, Frame 100) /\
    ab_read two_packets = 100 /\
    100 = BUFIDX (ab_read two_packets) /\
    sequence_number (slot s' 100) = ab_read two_packets /\
    ab_read s' = SUCCESSOR (ab_read two_packets) /\
    ready (slot s' 100) = false /\ timestamp (slot s' 100) <> 0 /\
    missing_packets s' = missing_packets two_packets.
Proof.
  do 2 eexists. split; [vm_compute; reflexivity|]. split; [vm_compute; reflexivity|].
  eapply (released_frame_in_order due_tick two_packets).
  - exact (proj1 player_inv_two_packets).
  - exact (proj2 player_inv_two_packets).
  - vm_compute. reflexivity.
Defined.

Section StopAndShutdown.

Lemma player_inv_player_stop s : player_inv s -> player_inv (player_stop s).
Proof.
  apply player_inv_same. repeat split.
Qed.

End StopAndShutdown.

Lemma kept_view_turn_tail_stopped e s s' evs r :
  please_stop s = true ->
  turn_tail e s = Some (s', evs, r) ->
  r = Stopped /\ kept_view s' = kept_view s.
Proof.
  intros Hstop. unfold turn_tail.
  assert (Hd : forall s4 evs3,
            (if ab_synced s
             then match flush_drain flush_drain_fuel 0 s with
                  | Some (s, _) => Some (buffering e s)
                  | None => None
                  end
             else Some (s, [])) = Some (s4, evs3) -> kept_view s4 = kept_view s).
  { intros s4 evs3. destruct (ab_synced s).
    - destruct (flush_drain flush_drain_fuel 0 s) as [[sd fl]|] eqn:Ed; [|discriminate].
      pose proof (kept_view_flush_drain _ _ _ _ _ Ed) as H4.
      pose proof (kept_view_buffering e sd) as H5.
      destruct (buffering e sd) as [sb evb]. cbn [fst] in H5.
      intros E. injection E as <- _. congruence.
    - intros E. injection E as <- _. reflexivity. }
  match goal with |- context [match ?x with Some _ => _ | None => _ end = _] =>
    destruct x as [[s4 evs3]|] end; [|discriminate].
  specialize (Hd s4 evs3 eq_refl).
  assert (Hs4 : please_stop s4 = true).
  { unfold kept_view in Hd. injection Hd as _ Hp _. congruence. }
  rewrite Hs4, andb_false_r.
  intros E. injection E as <- _ <-. split; [reflexivity|exact Hd].
Qed.

Lemma kept_turn_head e s :
  missing_packets (fst (turn_head e s)) = missing_packets s /\
  please_stop (fst (turn_head e s)) = please_stop s.
Proof.
  unfold turn_head.
  destruct (timeout_check_kept e s) as [M1 P1].
  destruct (timeout_check e s) as [s1 evs1]. cbn [fst] in M1, P1.
  pose proof (kept_view_apply_flush (track_connection e s1)) as H3.
  rewrite kept_view_track_connection in H3.
  destruct (apply_flush (track_connection e s1)) as [s3 evs2]. cbn [fst] in H3 |- *.
  unfold kept_view in H3. injection H3 as M3 P3 _. split; congruence.
Qed.

(** X14. Once [player_stop] has set [please_stop], a turn of
    [buffer_get_frame] that ends, ends by returning 0: it neither waits
    nor hands a frame over nor counts a missing packet, whatever the
    state and even if a flush lands in it. On a state that satisfies the
    ring invariant and on which a flush boundary, if one is set, is
    still to be applied or finds the ring unsynced, a call that no flush
    interrupts does end, at its first turn. *)
Theorem stop_request_returns (e : tick_env) (envs : list tick_env) (mid : option Z)
  (s : player) :
  (forall s' evs r,
     buffer_get_frame_turn_flushed e mid (player_stop s) = Some (s', evs, r) ->
     r = Stopped /\ please_stop s' = true /\ missing_packets s' = missing_packets s) /\
  (ring_inv s -> filter_inv s ->
   exists s' evs,
     buffer_get_frame (e :: envs) (player_stop s) = Some (s', evs, None) /\
     please_stop s' = true /\
     missing_packets s' = missing_packets s).
Proof.
  assert (G : forall m s' evs r,
            buffer_get_frame_turn_flushed e m (player_stop s) = Some (s', evs, r) ->
            r = Stopped /\ please_stop s' = true /\
            missing_packets s' = missing_packets s).
  { intros m s' evs r. unfold buffer_get_frame_turn_flushed.
    destruct (kept_turn_head e (player_stop s)) as [M1 P1].
    destruct (turn_head e (player_stop s)) as [s1 evs1]. cbn [fst] in M1, P1.
    set (s2 := match m with Some ts => player_flush ts s1 | None => s1 end).
    assert (K2 : kept_view s2 = kept_view s1) by (subst s2; destruct m; reflexivity).
    assert (P2 : please_stop s2 = true).
    { unfold kept_view in K2. injection K2 as _ P _. rewrite P, P1. reflexivity. }
    destruct (turn_tail e s2) as [[[s3 evs3] r3]|] eqn:Et; [|discriminate].
    destruct (kept_view_turn_tail_stopped _ _ _ _ _ P2 Et) as [-> K3].
    intros E. injection E as <- _ <-.
    unfold kept_view in K2, K3. injection K2 as M2 _ _. injection K3 as M3 P3 _.
    split; [reflexivity|]. split; [congruence|].
    rewrite M3, M2, M1. reflexivity. }
  split; [exact (G mid)|].
  intros Hring Hfilt.
  assert (Hinv : player_inv (player_stop s)).
  { apply player_inv_player_stop. split; assumption. }
  destruct (buffer_get_frame_turn_total e _ Hinv) as [[[s' evs] r] Et].
  pose proof Et as Et'. rewrite <- buffer_get_frame_turn_flushed_none in Et'.
  destruct (G None _ _ _ Et') as (-> & Hp & Hm).
  cbn [buffer_get_frame]. rewrite Et.
  exists s', evs. repeat split; assumption.
Qed.

Lemma stop_request_returns_witness :
  exists s' evs,
    buffer_get_frame [due_tick] (player_stop two_packets) = Some (s', evs, None) /\
    please_stop s' = true /\
    missing_packets s' = missing_packets two_packets.
Proof.
  apply (stop_request_returns due_tick [] None two_packets).
  - exact (proj1 player_inv_two_packets).
  - exact (proj2 player_inv_two_packets).
Defined.

(** X18. The inner loop of [buffer_get_frame] has no exit of its own
    when a flush boundary is set and the head slot is not ready: nothing
    in its body changes, so it runs for as long as no other thread
    clears the boundary. A call of [player_flush] with a non-zero
    timestamp that lands in a turn past the flush check, on a synced
    ring whose head slot is empty, leaves the turn in that loop. *)
Theorem flush_drain_spins (fuel : nat) (flush_limit : Z) (e : tick_env) (ts : Z)
  (s : player) :
  (ready (slot s (BUFIDX (ab_read s))) = false ->
   flush_rtp_timestamp s <> 0 -> flush_limit <= 8820 ->
   flush_drain fuel flush_limit s = None) /\
  (ready (slot s (BUFIDX (ab_read s))) = false ->
   ab_synced s = true -> flush_requested s = false ->
   connection_state_to_output s = rco e -> ts <> 0 ->
   buffer_get_frame_turn_flushed e (Some ts) s = None).
Proof.
  assert (G : forall n fl t,
            ready (slot t (BUFIDX (ab_read t))) = false ->
            flush_rtp_timestamp t <> 0 -> fl <= 8820 ->
            flush_drain n fl t = None).
  { induction n as [|n IH]; intros fl t Hr Hf Hfl; [reflexivity|].
    cbn [flush_drain]. unfold flush_drain_body. rewrite Hr. rewrite Hr.
    destruct (Z.eqb_spec (flush_rtp_timestamp t) 0) as [|_]; [contradiction|].
    destruct (Z.leb_spec fl 8820); [|lia]. cbn [negb andb].
    apply IH; assumption. }
  split; [apply G|].
  intros Hr Hs Hfr Hc Hts. unfold buffer_get_frame_turn_flushed, turn_head.
  assert (H1 : exists s1 evs1,
            timeout_check e s = (s1, evs1) /\
            s1 = s <| shutdown_requested := shutdown_requested s1 |>).
  { unfold timeout_check. destruct (_ && _ && _).
    - match goal with |- context [if ?c then _ else _] => destruct c end;
        do 2 eexists; (split; [reflexivity|]); destruct s; reflexivity.
    - do 2 eexists; (split; [reflexivity|]); destruct s; reflexivity. }
  destruct H1 as (s1 & evs1 & -> & E1).
  assert (T : track_connection e s1 = s1).
  { unfold track_connection. rewrite E1. proj_simpl. rewrite Hc, Z.eqb_refl. reflexivity. }
  rewrite T. unfold apply_flush.
  assert (F1 : flush_requested s1 = false) by (rewrite E1; exact Hfr).
  rewrite F1. unfold turn_tail.
  assert (S1 : ab_synced (player_flush ts s1) = true) by (rewrite E1; exact Hs).
  rewrite S1.
  rewrite G; [reflexivity| | |lia].
  - rewrite E1. exact Hr.
  - unfold player_flush. proj_simpl. exact Hts.
Qed.

Lemma flush_drain_spins_witness :
  flush_drain flush_drain_fuel 0 (player_flush 2000 hole_at_head) = None /\
  buffer_get_frame_turn_flushed due_tick (Some 2000) hole_at_head = None.
Proof.
  split.
  - apply (proj1 (flush_drain_spins flush_drain_fuel 0 due_tick 2000
                    (player_flush 2000 hole_at_head))).
    + vm_compute. reflexivity.
    + vm_compute. discriminate.
    + lia.
  - apply (proj2 (flush_drain_spins flush_drain_fuel 0 due_tick 2000 hole_at_head)).
    + vm_compute. reflexivity.
    + vm_compute. reflexivity.
    + vm_compute. reflexivity.
    + vm_compute. reflexivity.
    + discriminate.
Defined.

Section ShutdownOnce.

Lemma filter_is_shutdown_app l1 l2 :
  filter is_shutdown (l1 ++ l2) = filter is_shutdown l1 ++ filter is_shutdown l2.
Proof. apply filter_app. Qed.

Lemma resend_scan_no_shutdown fuel : forall i s,
  filter is_shutdown (snd (resend_scan fuel i s)) = [].
Proof.
  induction fuel as [|fuel IH]; intros i s; [reflexivity|].
  cbn [resend_scan]. destruct (_ <? _); [|reflexivity].
  destruct (ready _).
  - specialize (IH (to_int32 (i * 2)) s).
    destruct (resend_scan fuel _ s) as [s1 evs']. exact IH.
  - match goal with |- context [resend_scan fuel ?j ?t] =>
      specialize (IH j t); destruct (resend_scan fuel j t) as [s1 evs'] end.
    cbn [snd] in *. rewrite filter_is_shutdown_app, IH. reflexivity.
Qed.

Lemma call_output_flush_no_shutdown s :
  filter is_shutdown (call_output_flush s) = [].
Proof. unfold call_output_flush. destruct (output_has_flush _); reflexivity. Qed.

Lemma later_parts_shutdown e s1 :
  forall s3 evs2, apply_flush (track_connection e s1) = (s3, evs2) ->
  shutdown_requested s3 = shutdown_requested s1 /\ filter is_shutdown evs2 = [].
Proof.
  intros s3 evs2 E.
  pose proof (kept_view_apply_flush (track_connection e s1)) as H.
  rewrite E, kept_view_track_connection in H. cbn [fst] in H.
  unfold kept_view in H. injection H as _ _ H. split; [exact H|].
  revert E. unfold apply_flush. destruct (flush_requested _).
  - intros E; injection E as _ <-. apply call_output_flush_no_shutdown.
  - intros E; injection E as _ <-. reflexivity.
Qed.

Lemma lead_in_no_shutdown e s : filter is_shutdown (snd (lead_in e s)) = [].
Proof.
  unfold lead_in. destruct (negb _); [|reflexivity].
  destruct (_ <=? _); [apply call_output_flush_no_shutdown|].
  destruct (_ <=? 0); [apply call_output_flush_no_shutdown|].
  destruct (_ || _); reflexivity.
Qed.

Lemma buffering_shutdown e s :
  shutdown_requested (fst (buffering e s)) = shutdown_requested s /\
  filter is_shutdown (snd (buffering e s)) = [].
Proof.
  split.
  - pose proof (kept_view_buffering e s) as H. unfold kept_view in H.
    injection H as _ _ H. exact H.
  - unfold buffering. destruct (_ && _); [|reflexivity]. apply lead_in_no_shutdown.
Qed.

Lemma flush_drain_shutdown fuel fl s s' fl' :
  flush_drain fuel fl s = Some (s', fl') -> shutdown_requested s' = shutdown_requested s.
Proof.
  intros H. apply kept_view_flush_drain in H. unfold kept_view in H.
  injection H as _ _ H. exact H.
Qed.

Lemma release_frame_shutdown s :
  shutdown_requested (fst (fst (release_frame s))) = shutdown_requested s /\
  filter is_shutdown (snd (fst (release_frame s))) = [].
Proof.
  unfold release_frame.
  assert (H : exists s1 evs, (if ab_buffering s then (s, [])
                              else resend_scan resend_scan_fuel 8 s) = (s1, evs) /\
                             shutdown_requested s1 = shutdown_requested s /\
                             filter is_shutdown evs = []).
  { destruct (ab_buffering s); [eauto|].
    pose proof (resend_scan_frame resend_scan_fuel 8 s) as H.
    pose proof (resend_scan_no_shutdown resend_scan_fuel 8 s) as H'.
    destruct (resend_scan _ _ _) as [s1 evs']. cbn [fst snd] in H, H'.
    exists s1, evs'. split; [reflexivity|]. split; [|exact H']. rewrite H. reflexivity. }
  destruct H as (s1 & evs' & -> & Hs1 & Hev). cbn [fst snd]. rewrite <- Hs1.
  split; [|exact Hev]. destruct (ready _); reflexivity.
Qed.

End ShutdownOnce.

(** X15. The silence timeout asks for the stream to be shut down at most
    once: a turn of [buffer_get_frame] never calls
    [rtsp_request_shutdown_stream] when [shutdown_requested] is already
    set, and never clears the flag. When it does call it, it does so
    once, a packet has arrived before, timeout checking is on, and the
    flag is set. *)
Theorem shutdown_requested_once (e : tick_env) (s s' : player) (evs : list event)
  (r : turn_result) :
  buffer_get_frame_turn e s = Some (s', evs, r) ->
  (shutdown_requested s = true ->
   shutdown_requested s' = true /\ filter is_shutdown evs = []) /\
  (filter is_shutdown evs <> [] ->
   filter is_shutdown evs = [rtsp_request_shutdown_stream] /\
   shutdown_requested s = false /\ shutdown_requested s' = true /\
   time_of_last_audio_packet s <> 0 /\
   time_of_last_audio_packet s < local_time_now e /\
   dont_check_timeout (config s) = 0).
Proof.
  unfold buffer_get_frame_turn.
  assert (H1 : let '(s1, evs1) := timeout_check e s in
               (shutdown_requested s = true ->
                shutdown_requested s1 = true /\ evs1 = []) /\
               (evs1 <> [] ->
                evs1 = [rtsp_request_shutdown_stream] /\
                shutdown_requested s = false /\ shutdown_requested s1 = true /\
                time_of_last_audio_packet s <> 0 /\
                time_of_last_audio_packet s < local_time_now e /\
                dont_check_timeout (config s) = 0) /\
               filter is_shutdown evs1 = evs1).
  { unfold timeout_check.
    destruct (Z.eqb_spec (time_of_last_audio_packet s) 0) as [E0|N0]; cbn [negb andb].
    { split; [intros H; split; [exact H|reflexivity]|]. split; [congruence|reflexivity]. }
    destruct (shutdown_requested s) eqn:Esr; cbn [negb andb].
    { split; [intros H; split; [exact Esr|reflexivity]|]. split; [congruence|reflexivity]. }
    destruct (Z.eqb_spec (dont_check_timeout (config s)) 0) as [Ed|Nd].
    2:{ split; [discriminate|]. split; [congruence|reflexivity]. }
    destruct (Z.ltb_spec (time_of_last_audio_packet s) (local_time_now e)) as [Hlt|Hge];
      cbn [andb].
    2:{ split; [discriminate|]. split; [congruence|reflexivity]. }
    destruct (_ <=? _).
    - split; [discriminate|]. split; [|reflexivity].
      intros _. repeat split; assumption.
    - split; [discriminate|]. split; [congruence|reflexivity]. }
  destruct (timeout_check e s) as [s1 evs1].
  destruct H1 as (Ha & Hb & Hc).
  pose proof (later_parts_shutdown e s1) as H2.
  destruct (apply_flush (track_connection e s1)) as [s3 evs2].
  destruct (H2 _ _ eq_refl) as [S3 F2]. clear H2.
  assert (Hd : forall s4 evs3,
            (if ab_synced s3
             then match flush_drain flush_drain_fuel 0 s3 with
                  | Some (s, _) => Some (buffering e s)
                  | None => None
                  end
             else Some (s3, [])) = Some (s4, evs3) ->
            shutdown_requested s4 = shutdown_requested s1 /\ filter is_shutdown evs3 = []).
  { intros s4 evs3. destruct (ab_synced s3).
    - destruct (flush_drain flush_drain_fuel 0 s3) as [[sd fl]|] eqn:Ed; [|discriminate].
      pose proof (flush_drain_shutdown _ _ _ _ _ Ed) as H4.
      destruct (buffering_shutdown e sd) as [H5 H6].
      destruct (buffering e sd) as [sb evb]. cbn [fst snd] in H5, H6.
      intros E. injection E as <- <-. split; [congruence|exact H6].
    - intros E. injection E as <- <-. split; [exact S3|reflexivity]. }
  match goal with |- context [match ?x with Some _ => _ | None => _ end = _] =>
    destruct x as [[s4 evs3]|] end; [|discriminate].
  destruct (Hd s4 evs3 eq_refl) as [S4 F3]. clear Hd.
  assert (G : forall s5 evs4,
            shutdown_requested s5 = shutdown_requested s1 ->
            filter is_shutdown evs4 = [] ->
            (shutdown_requested s = true ->
             shutdown_requested s5 = true /\
             filter is_shutdown (evs1 ++ evs2 ++ evs3 ++ evs4) = []) /\
            (filter is_shutdown (evs1 ++ evs2 ++ evs3 ++ evs4) <> [] ->
             filter is_shutdown (evs1 ++ evs2 ++ evs3 ++ evs4) = [rtsp_request_shutdown_stream] /\
             shutdown_requested s = false /\ shutdown_requested s5 = true /\
             time_of_last_audio_packet s <> 0 /\
             time_of_last_audio_packet s < local_time_now e /\
             dont_check_timeout (config s) = 0)).
  { intros s5 evs4 S5 F4.
    rewrite !filter_is_shutdown_app, F2, F3, F4, Hc, !app_nil_r. rewrite S5.
    split; [exact Ha|exact Hb]. }
  destruct (_ && _).
  - intros E. injection E as <- <- _.
    specialize (G s4 [] S4 eq_refl). rewrite !app_nil_r in G. exact G.
  - destruct (please_stop s4).
    + intros E. injection E as <- <- _.
      specialize (G s4 [] S4 eq_refl). rewrite !app_nil_r in G. exact G.
    + destruct (release_frame_shutdown s4) as [S5 F4].
      destruct (release_frame s4) as [[s5 evs4] cur]. cbn [fst snd] in S5, F4.
      intros E. injection E as <- <- _.
      apply G; [congruence|exact F4].
Qed.

Lemma shutdown_requested_once_witness :
  exists s' evs r,
    buffer_get_frame_turn sample_tick two_packets = Some (s', evs, r) /\
    filter is_shutdown evs = [rtsp_request_shutdown_stream] /\
    (shutdown_requested two_packets = true ->
     shutdown_requested s' = true /\ filter is_shutdown evs = []) /\
    (filter is_shutdown evs <> [] ->
     filter is_shutdown evs = [rtsp_request_shutdown_stream] /\
     shutdown_requested two_packets = false /\ shutdown_requested s' = true /\
     time_of_last_audio_packet two_packets <> 0 /\
     time_of_last_audio_packet two_packets < local_time_now sample_tick /\
     dont_check_timeout (config two_packets) = 0).
Proof.
  do 3 eexists. split; [vm_compute; reflexivity|]. split; [vm_compute; reflexivity|].
  eapply (shutdown_requested_once sample_tick two_packets). vm_compute. reflexivity.
Defined.

(** X16. A requested flush, or the connection being switched off, empties
    the ring at the next turn of [buffer_get_frame]: every slot is marked
    not ready, the ring is unsynced and buffering again, the start time
    is forgotten, the backend is flushed if it can be, and the turn ends
    in the wait. The flush boundary itself stays in force. *)
Theorem flush_empties_ring (e : tick_env) (s : player) :
  flush_requested s = true \/ (connection_state_to_output s <> 0 /\ rco e = 0) ->
  please_stop s = false ->
  exists s' evs,
    buffer_get_frame_turn e s = Some (s', evs, Waiting) /\
    (forall j, ready (slot s' j) = false) /\
    ab_synced s' = false /\ ab_buffering s' = true /\
    flush_requested s' = false /\
    first_packet_timestamp s' = 0 /\ first_packet_time_to_play s' = 0 /\
    connection_state_to_output s' = rco e /\
    flush_rtp_timestamp s' = flush_rtp_timestamp s /\
    ab_read s' = ab_read s /\
    (output_has_flush (config s) = true -> In output_flush evs).
Proof.
  intros Hreq Hstop. unfold buffer_get_frame_turn.
  assert (H1 : exists s1 evs1,
            timeout_check e s = (s1, evs1) /\
            s1 = s <| shutdown_requested := shutdown_requested s1 |>).
  { unfold timeout_check. destruct (_ && _ && _).
    - destruct (_ && _); do 2 eexists; (split; [reflexivity|]); destruct s; reflexivity.
    - do 2 eexists; (split; [reflexivity|]); destruct s; reflexivity. }
  destruct H1 as (s1 & evs1 & -> & E1).
  assert (F1 : flush_requested s1 = flush_requested s) by (rewrite E1; reflexivity).
  assert (C1 : connection_state_to_output s1 = connection_state_to_output s)
    by (rewrite E1; reflexivity).
  set (s2 := track_connection e s1).
  assert (H2 : flush_requested s2 = true /\ connection_state_to_output s2 = rco e /\
               s2 = s1 <| connection_state_to_output := rco e |> <| flush_requested := true |>).
  { subst s2. unfold track_connection.
    destruct (Z.eqb_spec (connection_state_to_output s1) (rco e)) as [Ec|Nc].
    - destruct Hreq as [Hf|[Hc H0]]; [|congruence].
      rewrite F1. split; [exact Hf|]. split; [exact Ec|].
      rewrite <- Ec. rewrite <- F1 in Hf. rewrite <- Hf. destruct s1; reflexivity.
    - proj_simpl. destruct (Z.eqb_spec (rco e) 0) as [E0|N0].
      + repeat split.
      + destruct Hreq as [Hf|[Hc H0]]; [|congruence].
        rewrite <- F1 in Hf. proj_simpl. split; [exact Hf|]. split; [reflexivity|].
        rewrite <- Hf. destruct s1; reflexivity. }
  destruct H2 as (F2 & C2 & E2).
  unfold apply_flush. rewrite F2.
  set (s3 := (ab_resync s2) <| first_packet_timestamp := 0 |>
               <| first_packet_time_to_play := 0 |> <| time_since_play_started := 0 |>
               <| flush_requested := false |>).
  assert (P3 : please_stop s3 = false).
  { change (please_stop s3) with (please_stop s2). rewrite E2. proj_simpl.
    rewrite E1. exact Hstop. }
  assert (R3 : ab_read s3 = ab_read s).
  { change (ab_read s3) with (ab_read s2). rewrite E2. proj_simpl. rewrite E1. reflexivity. }
  assert (T3 : flush_rtp_timestamp s3 = flush_rtp_timestamp s).
  { change (flush_rtp_timestamp s3) with (flush_rtp_timestamp s2). rewrite E2. proj_simpl.
    rewrite E1. reflexivity. }
  assert (O3 : config s2 = config s).
  { rewrite E2. proj_simpl. rewrite E1. reflexivity. }
  assert (S3 : ab_synced s3 = false) by reflexivity.
  assert (B3 : ab_buffering s3 = true) by reflexivity.
  assert (Q3 : flush_requested s3 = false) by reflexivity.
  assert (A3 : first_packet_timestamp s3 = 0) by reflexivity.
  assert (U3 : first_packet_time_to_play s3 = 0) by reflexivity.
  assert (K3 : connection_state_to_output s3 = rco e) by exact C2.
  assert (L3 : forall j, ready (slot s3 j) = false) by (intros j; apply slot_ab_resync).
  clearbody s3.
  rewrite S3, B3, P3. cbn [orb negb andb].
  exists s3, (evs1 ++ call_output_flush s2 ++ []).
  split; [reflexivity|].
  split; [exact L3|].
  split; [exact S3|]. split; [exact B3|]. split; [exact Q3|].
  split; [exact A3|]. split; [exact U3|].
  split; [exact K3|]. split; [exact T3|]. split; [exact R3|].
  intros Hof. unfold call_output_flush. rewrite O3, Hof.
  apply in_or_app. right. left. reflexivity.
Qed.

Lemma flush_empties_ring_witness :
  exists s' evs,
    buffer_get_frame_turn due_tick (player_flush 1000 two_packets)
      = Some (s', evs, Waiting) /\
    (forall j, ready (slot s' j) = false) /\
    ab_synced s' = false /\ ab_buffering s' = true /\
    flush_requested s' = false /\
    first_packet_timestamp s' = 0 /\ first_packet_time_to_play s' = 0 /\
    connection_state_to_output s' = rco due_tick /\
    flush_rtp_timestamp s' = flush_rtp_timestamp (player_flush 1000 two_packets) /\
    ab_read s' = ab_read (player_flush 1000 two_packets) /\
    (output_has_flush (config (player_flush 1000 two_packets)) = true ->
     In output_flush evs).
Proof.
  apply (flush_empties_ring due_tick (player_flush 1000 two_packets)).
  - left. vm_compute. reflexivity.
  - vm_compute. reflexivity.
Defined.

(** X17. The silence played while buffering: [lead_in] plays at most one
    block, only while the time to start is still ahead; the block is all
    zeros, two shorts per frame, and never longer than 4410 frames or two
    packets, whichever is larger. The time to start is left as it was. *)
Theorem lead_in_silence (e : tick_env) (s s' : player) (evs : list event)
  (buf : list Z) (n : Z) :
  0 <= 2 * frame_size s < 2 ^ 31 ->
  lead_in e s = (s', evs) ->
  In (output_play buf n) evs ->
  evs = [output_play buf n] /\
  buf = replicate (Z.to_nat (2 * n)) 0 /\
  0 <= n <= Z.max 4410 (2 * frame_size s) /\
  local_time_now e < to_uint64 (first_packet_time_to_play s) /\
  first_packet_time_to_play s' = first_packet_time_to_play s.
Proof.
  intros Hfs. unfold lead_in.
  destruct (negb _).
  2:{ intros E; injection E as <- <-. cbn [In]. intros []. }
  destruct (Z.leb_spec (to_uint64 (first_packet_time_to_play s)) (local_time_now e))
    as [Hpast|Hahead].
  { unfold abandon_start, call_output_flush. intros E; injection E as <- <-.
    destruct (output_has_flush _); cbn [In]; intros H; [destruct H as [H|H]; [discriminate H|destruct H]|destruct H]. }
  set (dac_delay := if output_has_delay (config s) then _ else 0).
  set (gap := to_int64 _).
  destruct (Z.leb_spec gap 0) as [Hneg|Hpos].
  { unfold abandon_start, call_output_flush. intros E; injection E as <- <-.
    destruct (output_has_flush _); cbn [In]; intros H; [destruct H as [H|H]; [discriminate H|destruct H]|destruct H]. }
  set (fs1 := if to_uint32 (4410 - dac_delay) <? 4410 then to_uint32 (4410 - dac_delay)
              else 4410).
  assert (Hfs1 : 0 <= fs1 <= 4410).
  { subst fs1. destruct (Z.ltb_spec (to_uint32 (4410 - dac_delay)) 4410); [|lia].
    unfold to_uint32, wrap_u in *. pose proof (Z.mod_pos_bound (4410 - dac_delay) (2 ^ 32)).
    lia. }
  assert (H32 : to_int32 (frame_size s * 2) = 2 * frame_size s).
  { unfold to_int32, wrap_s. change (2 ^ (32 - 1)) with 2147483648.
    change (2 ^ 32) with 4294967296. change (2 ^ 31) with 2147483648 in Hfs.
    rewrite Z.mod_small by lia. lia. }
  rewrite H32.
  assert (G : forall fs t,
            0 <= fs <= Z.max 4410 (2 * frame_size s) ->
            first_packet_time_to_play t = first_packet_time_to_play s ->
            (let silence := replicate (FRAME_SHORTS fs) 0 in
             let evs := [output_play silence fs] in
             let s0 :=
               if ab_buffering t then t
               else t <| play_segment_reference_frame := reference_timestamp (ref_resume e) |>
                      <| play_segment_reference_frame_remote_time :=
                           remote_reference_timestamp_time (ref_resume e) |> in
             (s0, evs)) = (s', evs) ->
            In (output_play buf n) evs ->
            evs = [output_play buf n] /\
            buf = replicate (Z.to_nat (2 * n)) 0 /\
            0 <= n <= Z.max 4410 (2 * frame_size s) /\
            local_time_now e < to_uint64 (first_packet_time_to_play s) /\
            first_packet_time_to_play s' = first_packet_time_to_play s).
  { intros fs t Hb Ht. cbv zeta. intros E; injection E as <- <-.
    cbn [In]. intros [H|[]]. injection H as <- <-.
    split; [reflexivity|]. split; [reflexivity|]. split; [exact Hb|]. split; [exact Hahead|].
    rewrite <- Ht. destruct (ab_buffering t); reflexivity. }
  destruct ((gap <=? fs1) || (gap <=? 2 * frame_size s)) eqn:Hc.
  - apply G; [|reflexivity].
    assert (Hg : gap <= Z.max 4410 (2 * frame_size s)).
    { apply orb_true_iff in Hc as [Hc|Hc]; apply Z.leb_le in Hc; lia. }
    unfold to_uint32, wrap_u. change (2 ^ 31) with 2147483648 in Hfs.
    rewrite Z.mod_small; [lia|]. change (2 ^ 32) with 4294967296. lia.
  - apply G; [lia|reflexivity].
Qed.

Lemma lead_in_silence_witness :
  [output_play (replicate 198 0) 99] = [output_play (replicate 198 0) 99] /\
  replicate 198 0 = replicate (Z.to_nat (2 * 99)) 0 /\
  0 <= 99 <= Z.max 4410 (2 * frame_size lead_state) /\
  local_time_now due_tick < to_uint64 (first_packet_time_to_play lead_state) /\
  first_packet_time_to_play (fst (lead_in due_tick lead_state))
    = first_packet_time_to_play lead_state.
Proof.
  apply (lead_in_silence due_tick lead_state (fst (lead_in due_tick lead_state))
           [output_play (replicate 198 0) 99] (replicate 198 0) 99).
  - vm_compute. split; [discriminate|reflexivity].
  - vm_compute. reflexivity.
  - left. reflexivity.
Defined.
